(** * ASL validator (scripts/validate_asl.py): a shallow embedding

    The validator works on whatever [json.load] returns and leans on Python's
    dynamic operators ([in], [.get], subscripting, truthiness, iteration).
    The first module fixes the fragment of Python those operators need on
    parsed JSON values; the second embeds [ASLValidator] method by method;
    the last part states and proves the properties of the specification. *)

From Stdlib Require Import ZArith String Ascii List Bool Lia.
From Stdlib Require Import Floats.SpecFloat DecimalString Decimal.
From stdpp Require Import base list strings gmap sets sorting.

Set Warnings "-register-all,-clear-no-such-hyp".

Local Open Scope string_scope.
Local Open Scope list_scope.

(** ** Python values and operators *)

Module Py.

(** What [json.load] builds: [None], [bool], [int], [float], [str], [list]
    and [dict] (insertion ordered, string keys; the parser keeps one entry
    per key, and the lookups below take the first). A [str] is held as the
    string of its bytes. *)
Inductive json : Type :=
| JNull
| JBool (b : bool)
| JInt (z : Z)
| JFloat (f : spec_float)
| JStr (s : string)
| JArr (items : list json)
| JObj (fields : list (string * json)).

(** Outcome of running a piece of the validator: a value, a propagating
    Python exception ([TypeError], [AttributeError], [KeyError]: nothing below
    [load] catches any of them, so their kind is not recorded), or the
    exhaustion of the fuel that bounds the one [while] loop of the model. *)
Inductive result (A : Type) : Type :=
| Ok (a : A)
| Raise
| OutOfFuel.
Arguments Ok {A} a.
Arguments Raise {A}.
Arguments OutOfFuel {A}.

#[global] Instance result_ret : MRet result := @Ok.
#[global] Instance result_bind : MBind result := λ A B k r,
  match r with
  | Ok a => k a
  | Raise => Raise
  | OutOfFuel => OutOfFuel
  end.

#[global] Instance result_fmap : FMap result := λ A B f r,
  match r with
  | Ok a => Ok (f a)
  | Raise => Raise
  | OutOfFuel => OutOfFuel
  end.

(** A [for] loop threading an accumulator; stops at the first exception. *)
Fixpoint rfold {A B} (body : A -> B -> result A) (acc : A) (l : list B)
  : result A :=
  match l with
  | [] => Ok acc
  | x :: l' => acc' ← body acc x; rfold body acc' l'
  end.

(** *** Dictionaries *)

Fixpoint dict_lookup {V} (k : string) (d : list (string * V)) : option V :=
  match d with
  | [] => None
  | (k', v) :: d' => if String.eqb k k' then Some v else dict_lookup k d'
  end.

(** [k in d] for a dict [d] and a string [k]. *)
Definition dict_has {V} (k : string) (d : list (string * V)) : bool :=
  match dict_lookup k d with Some _ => true | None => false end.

(** [d.get(k, default)] for a dict [d]. *)
Definition dict_get (k : string) (default : json) (d : list (string * json))
  : json :=
  match dict_lookup k d with Some v => v | None => default end.

Definition dict_keys {V} (d : list (string * V)) : list string := map fst d.

(** *** Truthiness, hashing, equality *)

(** [bool(x)]: what [not x] and [if x] test. *)
Definition truthy (j : json) : bool :=
  match j with
  | JNull => false
  | JBool b => b
  | JInt z => negb (Z.eqb z 0)
  | JFloat (S754_zero _) => false
  | JFloat _ => true
  | JStr s => negb (String.eqb s "")
  | JArr l => match l with [] => false | _ => true end
  | JObj d => match d with [] => false | _ => true end
  end.

(** Lists and dicts are unhashable: looking one up in a dict or a set raises
    [TypeError]. *)
Definition hashable (j : json) : bool :=
  match j with
  | JArr _ | JObj _ => false
  | _ => true
  end.

Definition Z_of_bool (b : bool) : Z := if b then 1%Z else 0%Z.

(** A float equals an int when it denotes the same number. *)
Definition float_eq_int (f : spec_float) (z : Z) : bool :=
  match f with
  | S754_zero _ => Z.eqb z 0
  | S754_finite s m e =>
      let v := if s then Z.neg m else Z.pos m in
      if Z.leb 0 e then Z.eqb z (v * 2 ^ e) else Z.eqb (z * 2 ^ (- e)) v
  | _ => false
  end.

(** The parser hands out one shared object per [NaN], so the identity test
    that container comparisons make first succeeds on two of them. *)
Definition float_same_or_eq (f g : spec_float) : bool :=
  match f, g with
  | S754_nan, S754_nan => true
  | _, _ => SFeqb f g
  end.

(** [a is b or a == b], the comparison behind [x in some_list]. *)
Fixpoint py_eq (a b : json) {struct a} : bool :=
  match a, b with
  | JNull, JNull => true
  | JBool x, JBool y => Bool.eqb x y
  | JBool x, JInt z => Z.eqb (Z_of_bool x) z
  | JInt z, JBool x => Z.eqb z (Z_of_bool x)
  | JBool x, JFloat f => float_eq_int f (Z_of_bool x)
  | JFloat f, JBool x => float_eq_int f (Z_of_bool x)
  | JInt x, JInt y => Z.eqb x y
  | JInt z, JFloat f => float_eq_int f z
  | JFloat f, JInt z => float_eq_int f z
  | JFloat f, JFloat g => float_same_or_eq f g
  | JStr s, JStr t => String.eqb s t
  | JArr l1, JArr l2 =>
      (fix go (l1 l2 : list json) : bool :=
         match l1, l2 with
         | [], [] => true
         | x :: l1', y :: l2' => py_eq x y && go l1' l2'
         | _, _ => false
         end) l1 l2
  | JObj d1, JObj d2 =>
      Nat.eqb (length d1) (length d2) &&
      (fix go (d : list (string * json)) : bool :=
         match d with
         | [] => true
         | (k, v) :: d' =>
             match dict_lookup k d2 with
             | Some v' => py_eq v v'
             | None => false
             end && go d'
         end) d1
  | _, _ => false
  end.

(** *** Strings *)

Fixpoint is_substring (needle hay : string) : bool :=
  String.prefix needle hay ||
  match hay with
  | EmptyString => false
  | String _ hay' => is_substring needle hay'
  end.

(** Iterating a string yields its one-character strings. *)
Fixpoint chars (s : string) : list json :=
  match s with
  | EmptyString => []
  | String c s' => JStr (String c EmptyString) :: chars s'
  end.

(** *** The dynamic operators *)

(** [x in hay]. *)
Definition py_in (x hay : json) : result bool :=
  match hay with
  | JObj d =>
      if hashable x
      then Ok (match x with JStr k => dict_has k d | _ => false end)
      else Raise
  | JArr l => Ok (existsb (fun y => py_eq y x) l)
  | JStr h =>
      match x with
      | JStr s => Ok (is_substring s h)
      | _ => Raise
      end
  | _ => Raise
  end.

(** [obj[k]] for a string literal [k]: only a dict can be subscripted by a
    string ([TypeError] otherwise), and the key must be there ([KeyError]). *)
Definition py_getitem (obj : json) (k : string) : result json :=
  match obj with
  | JObj d =>
      match dict_lookup k d with
      | Some v => Ok v
      | None => Raise
      end
  | _ => Raise
  end.

(** [obj.get(k, default)]: only dicts have the method ([AttributeError]). *)
Definition py_get (obj : json) (k : string) (default : json) : result json :=
  match obj with
  | JObj d => Ok (dict_get k default d)
  | _ => Raise
  end.

(** [obj.items()]. *)
Definition py_items (obj : json) : result (list (string * json)) :=
  match obj with
  | JObj d => Ok d
  | _ => Raise
  end.

(** [for x in obj] / [enumerate(obj)]: lists give their elements, dicts their
    keys, strings their characters; nothing else is iterable. *)
Definition py_iter (obj : json) : result (list json) :=
  match obj with
  | JArr l => Ok l
  | JObj d => Ok (map JStr (dict_keys d))
  | JStr s => Ok (chars s)
  | _ => Raise
  end.

(** [x == "literal"]. *)
Definition eq_str (x : json) (s : string) : bool :=
  match x with
  | JStr t => String.eqb t s
  | _ => false
  end.

(** [isinstance(x, dict)]. *)
Definition is_dict (x : json) : bool :=
  match x with JObj _ => true | _ => false end.

(** [enumerate(l)]. *)
Definition enumerate {A} (l : list A) : list (nat * A) :=
  combine (seq 0 (length l)) l.

(** [x in s] for a set [s] of strings: [x] is hashed first. *)
Definition set_has (x : json) (s : gset string) : result bool :=
  if hashable x
  then Ok (match x with JStr k => bool_decide (k ∈ s) | _ => false end)
  else Raise.

(** [str(n)] for a non-negative count. *)
Definition str_of_nat (n : nat) : string :=
  NilEmpty.string_of_uint (Nat.to_uint n).

(** [sep.join(l)]. *)
Definition join (sep : string) (l : list string) : string :=
  String.concat sep l.

End Py.

Import Py.

(** ** The validator *)

(** What opening and parsing the file of a validator comes to: the parsed
    document, or one of the three exception classes [load] tells apart
    (the strings are the text of the exception). *)
Inductive load_outcome : Type :=
| Loaded (document : json)
| JSONDecodeError (e : string)
| FileNotFoundError
| OtherException (e : string).

(** The instance attributes of [ASLValidator]. *)
Record validator : Type := mkValidator {
  file_path : string;
  errors : list string;
  warnings : list string;
  info : list string;
  definition : json
}.

(** [self.errors.append(msg)] and its two siblings. *)
Definition add_error (msg : string) (self : validator) : validator :=
  mkValidator (file_path self) (errors self ++ [msg]) (warnings self)
              (info self) (definition self).

Definition add_warning (msg : string) (self : validator) : validator :=
  mkValidator (file_path self) (errors self) (warnings self ++ [msg])
              (info self) (definition self).

Definition add_info (msg : string) (self : validator) : validator :=
  mkValidator (file_path self) (errors self) (warnings self)
              (info self ++ [msg]) (definition self).

Definition set_definition (j : json) (self : validator) : validator :=
  mkValidator (file_path self) (errors self) (warnings self) (info self) j.

(** [ASLValidator.__init__]. *)
Definition init (path : string) : validator :=
  mkValidator path [] [] [] (JObj []).

Definition VALID_STATE_TYPES : gset string :=
  list_to_set ["Task"; "Pass"; "Choice"; "Wait"; "Succeed"; "Fail";
               "Parallel"; "Map"].

Definition TERMINAL_STATE_TYPES : gset string :=
  list_to_set ["Succeed"; "Fail"].

Definition NO_TRANSITION_TYPES : gset string :=
  list_to_set ["Choice"; "Succeed"; "Fail"].

Section Validator.

(** Three library behaviours the validator is parametric in: the text
    [str()] gives for a value that is not a string (inside an f-string),
    the text [json.dumps] gives for a document, and the order in which a
    [set] of strings is iterated (CPython fixes none). *)
Variable py_repr : json -> string.
Variable json_dumps : json -> string.
Variable set_iter : gset string -> list string.

(** The file system and parser: what loading each path comes to. *)
Variable read_json : string -> load_outcome.

(** [f"{x}"]. *)
Definition fmt (x : json) : string :=
  match x with
  | JStr s => s
  | _ => py_repr x
  end.

(** *** load *)

Definition load (self : validator) : bool * validator :=
  match read_json (file_path self) with
  | Loaded j => (true, set_definition j self)
  | JSONDecodeError e => (false, add_error ("Invalid JSON syntax: " +:+ e) self)
  | FileNotFoundError =>
      (false, add_error ("File not found: " +:+ file_path self) self)
  | OtherException e => (false, add_error ("Error reading file: " +:+ e) self)
  end.

(** *** _validate_required_fields *)

Definition _validate_required_fields (self : validator) : result validator :=
  has_start ← py_in (JStr "StartAt") (definition self);
  let self :=
    if negb has_start
    then add_error "Missing required field: 'StartAt'" self
    else self in
  has_states ← py_in (JStr "States") (definition self);
  if negb has_states
  then Ok (add_error "Missing required field: 'States'" self)
  else
    states ← py_getitem (definition self) "States";
    match states with
    | JObj [] => Ok (add_error "'States' cannot be empty" self)
    | JObj _ => Ok self
    | _ => Ok (add_error "'States' must be an object" self)
    end.

(** *** _validate_start_at *)

Definition _validate_start_at (self : validator) : result validator :=
  has_start ← py_in (JStr "StartAt") (definition self);
  skip ← (if negb has_start then Ok true
          else negb <$> py_in (JStr "States") (definition self));
  if skip : bool then Ok self
  else
    start_at ← py_getitem (definition self) "StartAt";
    states ← py_get (definition self) "States" (JObj []);
    found ← py_in start_at states;
    if negb found
    then Ok (add_error ("'StartAt' references non-existent state: '"
                        +:+ fmt start_at +:+ "'") self)
    else Ok self.

(** *** _validate_states and the per-type checks

    The per-type checks are reached only behind [isinstance(state_def, dict)],
    so they take the fields of the dict. *)

Definition _validate_choice_state (state_name : string)
    (state_def : list (string * json)) (self : validator) : result validator :=
  if negb (dict_has "Choices" state_def)
  then Ok (add_error ("Choice state '" +:+ state_name
                      +:+ "' missing required 'Choices' field") self)
  else
    choices ← py_getitem (JObj state_def) "Choices";
    match choices with
    | JArr choices =>
        let self :=
          if Nat.eqb (length choices) 0
          then add_error ("Choice state '" +:+ state_name
                          +:+ "': 'Choices' array cannot be empty") self
          else self in
        self ← rfold (fun self '(i, choice) =>
                  has_next ← py_in (JStr "Next") choice;
                  Ok (if negb has_next
                      then add_error ("Choice state '" +:+ state_name
                                      +:+ "' choice[" +:+ str_of_nat i
                                      +:+ "] missing 'Next' field") self
                      else self))
               self (enumerate choices);
        Ok (if negb (dict_has "Default" state_def)
            then add_warning ("Choice state '" +:+ state_name +:+
              "' has no 'Default' - may fail at runtime if no choice matches")
              self
            else self)
    | _ => Ok (add_error ("Choice state '" +:+ state_name
                          +:+ "': 'Choices' must be an array") self)
    end.

Definition _validate_task_state (state_name : string)
    (state_def : list (string * json)) (self : validator) : validator :=
  let self :=
    if negb (dict_has "Resource" state_def)
    then add_error ("Task state '" +:+ state_name
                    +:+ "' missing required 'Resource' field") self
    else self in
  let has_catch := dict_has "Catch" state_def in
  let has_retry := dict_has "Retry" state_def in
  if negb has_catch && negb has_retry
  then add_warning ("Task state '" +:+ state_name
                    +:+ "' has no error handling (Catch/Retry)") self
  else self.

Definition wait_fields : list string :=
  ["Seconds"; "SecondsPath"; "Timestamp"; "TimestampPath"].

Definition _validate_wait_state (state_name : string)
    (state_def : list (string * json)) (self : validator) : validator :=
  let has_wait_field := existsb (fun f => dict_has f state_def) wait_fields in
  if negb has_wait_field
  then add_error ("Wait state '" +:+ state_name +:+ "' must have one of: "
                  +:+ join ", " wait_fields) self
  else self.

Definition _validate_map_state (state_name : string)
    (state_def : list (string * json)) (self : validator) : validator :=
  let has_item_processor := dict_has "ItemProcessor" state_def in
  let has_iterator := dict_has "Iterator" state_def in
  if negb has_item_processor && negb has_iterator
  then add_error ("Map state '" +:+ state_name
                  +:+ "' missing 'ItemProcessor' or 'Iterator'") self
  else self.

Definition _validate_parallel_state (state_name : string)
    (state_def : list (string * json)) (self : validator) : result validator :=
  if negb (dict_has "Branches" state_def)
  then Ok (add_error ("Parallel state '" +:+ state_name
                      +:+ "' missing required 'Branches' field") self)
  else
    branches ← py_getitem (JObj state_def) "Branches";
    match branches with
    | JArr (_ :: _) => Ok self
    | _ => Ok (add_error ("Parallel state '" +:+ state_name
                          +:+ "': 'Branches' must be a non-empty array") self)
    end.

(** The body of the loop of [_validate_states]. *)
Definition validate_state (self : validator) (item : string * json)
  : result validator :=
  let '(state_name, state_def) := item in
  match state_def with
  | JObj state_def =>
      let state_type := dict_get "Type" JNull state_def in
      if negb (truthy state_type)
      then Ok (add_error ("State '" +:+ state_name
                          +:+ "' missing 'Type' field") self)
      else
        valid ← set_has state_type VALID_STATE_TYPES;
        if negb valid
        then Ok (add_error ("State '" +:+ state_name +:+ "' has invalid type: '"
                            +:+ fmt state_type +:+ "'") self)
        else
          no_transition ← set_has state_type NO_TRANSITION_TYPES;
          let self :=
            if negb no_transition
            then
              let has_end := dict_get "End" (JBool false) state_def in
              let has_next := dict_has "Next" state_def in
              if negb (truthy has_end) && negb has_next
              then add_error ("State '" +:+ state_name +:+ "' (Type: "
                              +:+ fmt state_type
                              +:+ ") must have 'End: true' or 'Next'") self
              else self
            else self in
          if eq_str state_type "Choice"
          then _validate_choice_state state_name state_def self
          else if eq_str state_type "Task"
          then Ok (_validate_task_state state_name state_def self)
          else if eq_str state_type "Wait"
          then Ok (_validate_wait_state state_name state_def self)
          else if eq_str state_type "Map"
          then Ok (_validate_map_state state_name state_def self)
          else if eq_str state_type "Parallel"
          then _validate_parallel_state state_name state_def self
          else Ok self
  | _ => Ok (add_error ("State '" +:+ state_name +:+ "' must be an object") self)
  end.

Definition _validate_states (self : validator) : result validator :=
  states ← py_get (definition self) "States" (JObj []);
  items ← py_items states;
  rfold validate_state self items.

(** *** _validate_state_references *)

(** The four places a transition target is read from, and the message of
    each when the target is unknown. *)
Inductive edge_field : Type :=
| FNext
| FChoice (i : nat)
| FDefault
| FCatch (i : nat).

Definition reference_error (state_name : string) (e : edge_field * json)
  : string :=
  match e with
  | (FNext, t) =>
      "State '" +:+ state_name
      +:+ "' 'Next' references non-existent state: '" +:+ fmt t +:+ "'"
  | (FChoice i, t) =>
      "Choice state '" +:+ state_name +:+ "' choice[" +:+ str_of_nat i
      +:+ "] references non-existent state: '" +:+ fmt t +:+ "'"
  | (FDefault, t) =>
      "Choice state '" +:+ state_name
      +:+ "' 'Default' references non-existent state: '" +:+ fmt t +:+ "'"
  | (FCatch i, t) =>
      "State '" +:+ state_name +:+ "' Catch[" +:+ str_of_nat i
      +:+ "] references non-existent state: '" +:+ fmt t +:+ "'"
  end.

(** [if field in x and x[field] not in valid_states: errors.append(...)],
    the test made on the state itself for [Next] and [Default] and on each
    element of [Choices] and [Catch] for [Next]. *)
Definition check_reference (valid_states : gset string) (state_name : string)
    (f : edge_field) (field : string) (self : validator) (x : json)
  : result validator :=
  has_field ← py_in (JStr field) x;
  if has_field : bool
  then
    target ← py_getitem x field;
    known ← set_has target valid_states;
    Ok (if negb known
        then add_error (reference_error state_name (f, target)) self
        else self)
  else Ok self.

(** The body of the loop of [_validate_state_references]. *)
Definition validate_references_of (valid_states : gset string)
    (self : validator) (item : string * json) : result validator :=
  let '(state_name, state_def) := item in
  match state_def with
  | JObj fields =>
      self ← check_reference valid_states state_name FNext "Next" self
                             state_def;
      self ←
        (if eq_str (dict_get "Type" JNull fields) "Choice"
         then
           choices ← py_iter (dict_get "Choices" (JArr []) fields);
           self ← rfold (fun self '(i, choice) =>
                     check_reference valid_states state_name (FChoice i)
                                     "Next" self choice)
                  self (enumerate choices);
           check_reference valid_states state_name FDefault "Default" self
                           state_def
         else Ok self);
      catches ← py_iter (dict_get "Catch" (JArr []) fields);
      rfold (fun self '(i, catch) =>
               check_reference valid_states state_name (FCatch i) "Next"
                               self catch)
            self (enumerate catches)
  | _ => Ok self
  end.

Definition _validate_state_references (self : validator) : result validator :=
  states ← py_get (definition self) "States" (JObj []);
  items ← py_items states;
  let valid_states : gset string := list_to_set (dict_keys items) in
  rfold (validate_references_of valid_states) self items.

(** *** _validate_terminal_states *)

Definition no_terminal_msg : string :=
  "No terminal state found - workflow will never complete (need 'End: true', 'Succeed', or 'Fail' state)".

Definition _validate_terminal_states (self : validator) : result validator :=
  states ← py_get (definition self) "States" (JObj []);
  items ← py_items states;
  terminal_states ←
    rfold (fun (terminal_states : list string) '(state_name, state_def) =>
             match state_def with
             | JObj state_def =>
                 let state_type := dict_get "Type" (JStr "") state_def in
                 is_terminal_type ← set_has state_type TERMINAL_STATE_TYPES;
                 Ok (if is_terminal_type
                        || truthy (dict_get "End" (JBool false) state_def)
                     then terminal_states ++ [state_name]
                     else terminal_states)
             | _ => Ok terminal_states
             end) [] items;
  Ok (match terminal_states with
      | [] => add_error no_terminal_msg self
      | _ => self
      end).

(** *** _detect_unreachable_states *)

(** [next_states] of one visited state: [Next], then for a Choice state the
    [Next] of each choice and [Default], then the [Next] of each catcher.
    The loop over [Branches] has an empty body but still iterates. *)
Definition collect_next (next_states : list json) (x : json)
  : result (list json) :=
  has_next ← py_in (JStr "Next") x;
  if has_next : bool
  then target ← py_getitem x "Next"; Ok (next_states ++ [target])
  else Ok next_states.

Definition next_states_of (state_def : list (string * json))
  : result (list json) :=
  let next_states :=
    if dict_has "Next" state_def
    then [dict_get "Next" JNull state_def]
    else [] in
  next_states ←
    (if eq_str (dict_get "Type" JNull state_def) "Choice"
     then
       choices ← py_iter (dict_get "Choices" (JArr []) state_def);
       next_states ← rfold collect_next next_states choices;
       Ok (if dict_has "Default" state_def
           then next_states ++ [dict_get "Default" JNull state_def]
           else next_states)
     else Ok next_states);
  catches ← py_iter (dict_get "Catch" (JArr []) state_def);
  next_states ← rfold collect_next next_states catches;
  _ ← py_iter (dict_get "Branches" (JArr []) state_def);
  Ok next_states.

(** The [while queue:] loop, one iteration per unit of fuel. A queue entry
    that is a number, a boolean or [None] is hashable and is no key of
    [states], so it is skipped like an unknown name. *)
Fixpoint bfs (fuel : nat) (states : list (string * json))
    (reachable : gset string) (queue : list json) : result (gset string) :=
  match fuel with
  | O => OutOfFuel
  | S fuel =>
      match queue with
      | [] => Ok reachable
      | current :: queue =>
          if negb (hashable current) then Raise
          else
            match current with
            | JStr name =>
                if bool_decide (name ∈ reachable)
                then bfs fuel states reachable queue
                else
                  match dict_lookup name states with
                  | None => bfs fuel states reachable queue
                  | Some state_def =>
                      let reachable := {[name]} ∪ reachable in
                      match state_def with
                      | JObj state_def =>
                          next_states ← next_states_of state_def;
                          bfs fuel states reachable (queue ++ next_states)
                      | _ => bfs fuel states reachable queue
                      end
                  end
            | _ => bfs fuel states reachable queue
            end
      end
  end.

(** Number of targets a state pushes when it is visited. *)
Definition out_degree (state_def : json) : nat :=
  match state_def with
  | JObj state_def =>
      match next_states_of state_def with
      | Ok next_states => length next_states
      | _ => 0
      end
  | _ => 0
  end.

(** Every iteration pops one entry and entries are pushed only when a state
    is visited for the first time, so the loop makes at most this many
    iterations (the final test of the empty queue included). *)
Definition bfs_fuel (states : list (string * json)) : nat :=
  2 + sum_list (map (fun item => S (out_degree (snd item))) states).

Definition unreachable_msg (state : string) : string :=
  "State '" +:+ state +:+ "' is unreachable from StartAt".

(** When [states] is truthy but not a dict, the method ends in an exception
    whatever happens in the loop: the loop ends (it visits members of
    [states] once each) and [states.keys()] then raises. *)
Definition _detect_unreachable_states (self : validator) : result validator :=
  states ← py_get (definition self) "States" (JObj []);
  start_at ← py_get (definition self) "StartAt" JNull;
  if negb (truthy states) || negb (truthy start_at)
  then Ok self
  else
    match states with
    | JObj states =>
        reachable ← bfs (bfs_fuel states) states ∅ [start_at];
        let unreachable : gset string :=
          list_to_set (dict_keys states) ∖ reachable in
        Ok (fold_left (fun self state => add_warning (unreachable_msg state) self)
                      (set_iter unreachable) self)
    | _ => Raise
    end.

(** *** _check_cross_account_patterns *)

Definition _check_cross_account_patterns (self : validator)
  : result validator :=
  states ← py_get (definition self) "States" (JObj []);
  items ← py_items states;
  '(self, credentials_count) ←
    rfold (fun '(self, credentials_count) '(state_name, state_def) =>
             match state_def with
             | JObj state_def =>
                 if dict_has "Credentials" state_def
                 then
                   creds ← py_getitem (JObj state_def) "Credentials";
                   has_role ← py_in (JStr "RoleArn") creds;
                   has_path ← (if has_role : bool then Ok true
                               else py_in (JStr "RoleArn.$") creds);
                   Ok (if negb has_role && negb has_path
                       then add_warning ("State '" +:+ state_name
                              +:+ "' has Credentials but no RoleArn") self
                       else self,
                       S credentials_count)
                 else Ok (self, credentials_count)
             | _ => Ok (self, credentials_count)
             end) (self, 0) items;
  Ok (if Nat.ltb 0 credentials_count
      then add_info ("Cross-account pattern detected: "
                     +:+ str_of_nat credentials_count
                     +:+ " states with Credentials") self
      else self).

(** *** _check_hardcoded_arns

    [re.findall] for the one pattern of the method,
    [arn:aws:[a-z0-9-]+:[a-z0-9-]*:(\d{12}):], on ASCII text (which is what
    [json.dumps] gives by default). Neither character class contains the
    colon that follows it, so the greedy runs never have to give back. *)

Definition is_digit (c : ascii) : bool :=
  let n := nat_of_ascii c in Nat.leb 48 n && Nat.leb n 57.

Definition is_arn_char (c : ascii) : bool :=
  let n := nat_of_ascii c in
  (Nat.leb 97 n && Nat.leb n 122) || is_digit c || Nat.eqb n 45.

Fixpoint drop_prefix (p s : string) : option string :=
  match p, s with
  | EmptyString, _ => Some s
  | String a p', String b s' =>
      if Ascii.eqb a b then drop_prefix p' s' else None
  | _, _ => None
  end.

(** The longest run of [is_arn_char] characters at the head: its length and
    what follows it. *)
Fixpoint arn_run (s : string) : nat * string :=
  match s with
  | String c s' =>
      if is_arn_char c
      then let '(n, rest) := arn_run s' in (S n, rest)
      else (0, s)
  | EmptyString => (0, s)
  end.

(** Exactly [n] digits at the head: the digits and what follows them. *)
Fixpoint take_digits (n : nat) (s : string) : option (string * string) :=
  match n with
  | O => Some (EmptyString, s)
  | S n' =>
      match s with
      | String c s' =>
          if is_digit c
          then match take_digits n' s' with
               | Some (ds, rest) => Some (String c ds, rest)
               | None => None
               end
          else None
      | EmptyString => None
      end
  end.

Definition drop_colon (s : string) : option string :=
  match s with
  | String c s' => if Ascii.eqb c ":"%char then Some s' else None
  | EmptyString => None
  end.

(** A match of the pattern at the head of [s]: the captured group and the
    text after the match. *)
Definition match_arn (s : string) : option (string * string) :=
  s ← drop_prefix "arn:aws:" s;
  let '(n, s) := arn_run s in
  if Nat.eqb n 0 then None
  else
    s ← drop_colon s;
    let '(_, s) := arn_run s in
    s ← drop_colon s;
    '(account, s) ← take_digits 12 s;
    s ← drop_colon s;
    Some (account, s).

(** Left-to-right scan for non-overlapping matches; [skip] counts the
    characters still covered by the last match. *)
Fixpoint findall_from (skip : nat) (s : string) : list string :=
  match s with
  | EmptyString => []
  | String _ s' =>
      match skip with
      | S skip' => findall_from skip' s'
      | O =>
          match match_arn s with
          | Some (account, rest) =>
              account ::
              findall_from (String.length s - String.length rest - 1) s'
          | None => findall_from 0 s'
          end
      end
  end.

Definition findall_account_ids (content : string) : list string :=
  findall_from 0 content.

Definition hardcoded_msg (accounts : list string) : string :=
  "Hardcoded AWS account ID(s) found: " +:+ join ", " accounts
  +:+ " - consider using parameters".

Definition _check_hardcoded_arns (self : validator) : validator :=
  let content := json_dumps (definition self) in
  let matches := findall_account_ids content in
  match matches with
  | [] => self
  | _ =>
      let unique_accounts : gset string := list_to_set matches in
      add_warning (hardcoded_msg (set_iter unique_accounts)) self
  end.

(** *** validate *)

Definition validate (self : validator) : result (bool * validator) :=
  let '(loaded, self) := load self in
  if negb loaded then Ok (false, self)
  else
    self ← _validate_required_fields self;
    self ← _validate_start_at self;
    self ← _validate_states self;
    self ← _validate_state_references self;
    self ← _validate_terminal_states self;
    self ← _detect_unreachable_states self;
    self ← _check_cross_account_patterns self;
    let self := _check_hardcoded_arns self in
    Ok (Nat.eqb (length (errors self)) 0, self).

(** *** report *)

Definition newline : string := String (ascii_of_nat 10) EmptyString.

Definition truthy_list {A} (l : list A) : bool :=
  match l with [] => false | _ => true end.

Definition report_lines (self : validator) (verbose : bool) : list string :=
  let lines := ["File: " +:+ file_path self] in
  let lines :=
    if truthy_list (errors self)
    then lines
         ++ ["  ERRORS (" +:+ str_of_nat (length (errors self)) +:+ "):"]
         ++ map (fun error => "    ✗ " +:+ error) (errors self)
    else lines in
  let lines :=
    if truthy_list (warnings self) && verbose
    then lines
         ++ ["  WARNINGS (" +:+ str_of_nat (length (warnings self)) +:+ "):"]
         ++ map (fun warning => "    ⚠ " +:+ warning) (warnings self)
    else lines in
  let lines :=
    if truthy_list (info self) && verbose
    then lines
         ++ ["  INFO (" +:+ str_of_nat (length (info self)) +:+ "):"]
         ++ map (fun i => "    ℹ " +:+ i) (info self)
    else lines in
  let lines :=
    if negb (truthy_list (errors self))
    then lines ++ ["  ✓ Valid"]
    else lines in
  lines.

Definition report (self : validator) (verbose : bool) : string :=
  join newline (report_lines self verbose).

(** *** main: the loop over the files *)

Record tally : Type := mkTally {
  total_errors : nat;
  total_warnings : nat;
  failed_files : list string;
  printed : list string
}.

(** One iteration of [for file_path in asl_files]. *)
Definition main_step (strict quiet verbose : bool) (t : tally)
    (path : string) : result tally :=
  let validator := init path in
  '(is_valid, validator) ← validate validator;
  let is_valid :=
    if strict
    then is_valid && Nat.eqb (length (warnings validator)) 0
    else is_valid in
  let printed :=
    if negb quiet || negb is_valid
    then printed t ++ [report validator verbose; ""]
    else printed t in
  Ok (mkTally (total_errors t + length (errors validator))
              (total_warnings t + length (warnings validator))
              (if negb is_valid then failed_files t ++ [path]
               else failed_files t)
              printed).

Definition main_loop (strict quiet verbose : bool) (asl_files : list string)
  : result tally :=
  rfold (main_step strict quiet verbose) (mkTally 0 0 [] []) asl_files.

(** *** find_asl_files and main

    [found] stands for what [Path(root_dir).rglob("*.asl.json")] yields:
    for each file, the text [str(path)] and the tuple [path.parts]. *)

Definition starts_with_dot (part : string) : bool := String.prefix "." part.

Definition find_asl_files (found : list (string * list string))
  : list string :=
  let asl_files :=
    List.filter
      (fun '(text, parts) =>
         negb (existsb starts_with_dot parts)
         && negb (existsb (String.eqb "node_modules") parts
                  || existsb (String.eqb ".terraform") parts))
      found in
  merge_sort String.le (map fst asl_files).

(** ["=" * 60]. *)
Definition rule_line : string := string_of_list_ascii (repeat "="%char 60).

(** [main] after the arguments are parsed: the exit status and the texts
    handed to [print], in order. *)
Definition main (strict quiet verbose : bool) (files : list string)
    (found : list (string * list string)) : result (nat * list string) :=
  let asl_files :=
    if truthy_list files then files else find_asl_files found in
  if negb (truthy_list asl_files)
  then Ok (0, if negb quiet then ["No .asl.json files found"] else [])
  else
    let banner :=
      if negb quiet
      then [rule_line; "ASL (Amazon States Language) Validator"; rule_line;
            "Found " +:+ str_of_nat (length asl_files) +:+ " ASL file(s)"
            +:+ newline]
      else [] in
    t ← main_loop strict quiet verbose asl_files;
    let summary :=
      if negb quiet
      then [rule_line; "Summary"; rule_line;
            "Files validated: " +:+ str_of_nat (length asl_files);
            "Files passed:    "
            +:+ str_of_nat (length asl_files - length (failed_files t));
            "Files failed:    " +:+ str_of_nat (length (failed_files t));
            "Total errors:    " +:+ str_of_nat (total_errors t);
            "Total warnings:  " +:+ str_of_nat (total_warnings t)]
      else [] in
    if truthy_list (failed_files t)
    then
      Ok (1, banner ++ printed t ++ summary
             ++ (if negb quiet
                 then (newline +:+ "Failed files:")
                      :: map (fun f => "  - " +:+ f) (failed_files t)
                 else []))
    else
      Ok (0, banner ++ printed t ++ summary
             ++ (if negb quiet
                 then [newline +:+ "✓ All ASL files are valid"]
                 else [])).

(** ** Notions of the specification *)

(** A block of the report: a title line with the count, then one line per
    entry; nothing for an empty list. *)
Definition block (title bullet : string) (entries : list string)
  : list string :=
  match entries with
  | [] => []
  | _ => ("  " +:+ title +:+ " (" +:+ str_of_nat (length entries) +:+ "):")
         :: map (fun e => "    " +:+ bullet +:+ " " +:+ e) entries
  end.

(** The transition edges of a state (section 4.3): [Next], for a Choice
    state each [Choices[i].Next] and [Default], and each [Catch[i].Next]. *)
Definition field_edge (f : edge_field) (target : option json)
  : list (edge_field * json) :=
  match target with
  | Some t => [(f, t)]
  | None => []
  end.

Definition rule_next (rule : json) : option json :=
  match rule with
  | JObj rule => dict_lookup "Next" rule
  | _ => None
  end.

Definition rule_edges (f : nat → edge_field) (rules : list json)
  : list (edge_field * json) :=
  flat_map (fun '(i, rule) => field_edge (f i) (rule_next rule))
           (enumerate rules).

Definition rules_of (field : string) (state_def : list (string * json))
  : list json :=
  match dict_lookup field state_def with
  | Some (JArr rules) => rules
  | _ => []
  end.

Definition edges_of (state_def : list (string * json))
  : list (edge_field * json) :=
  field_edge FNext (dict_lookup "Next" state_def)
  ++ (if eq_str (dict_get "Type" JNull state_def) "Choice"
      then rule_edges FChoice (rules_of "Choices" state_def)
           ++ field_edge FDefault (dict_lookup "Default" state_def)
      else [])
  ++ rule_edges FCatch (rules_of "Catch" state_def).

(** The data model of section 3 for those fields: a target is a state-name
    string, [Choices] and [Catch] are sequences of rule objects. *)
Definition is_str (x : json) : bool :=
  match x with JStr _ => true | _ => false end.

Definition typed_target (target : option json) : bool :=
  match target with
  | Some t => is_str t
  | None => true
  end.

Definition typed_rule (rule : json) : bool :=
  match rule with
  | JObj rule => typed_target (dict_lookup "Next" rule)
  | _ => false
  end.

Definition typed_rules (field : string) (state_def : list (string * json))
  : bool :=
  match dict_lookup field state_def with
  | Some (JArr rules) => forallb typed_rule rules
  | Some _ => false
  | None => true
  end.

Definition typed_edges (state_def : list (string * json)) : bool :=
  typed_target (dict_lookup "Next" state_def)
  && (if eq_str (dict_get "Type" JNull state_def) "Choice"
      then typed_rules "Choices" state_def
           && typed_target (dict_lookup "Default" state_def)
      else true)
  && typed_rules "Catch" state_def.

(** [Branches], where present, is a sequence. *)
Definition typed_branches (state_def : list (string * json)) : bool :=
  match dict_lookup "Branches" state_def with
  | Some (JArr _) | None => true
  | Some _ => false
  end.

(** [Type], where present, is a scalar (a string in the data model) and
    [End], where present, a boolean. *)
Definition typed_tags (state_def : list (string * json)) : bool :=
  match dict_lookup "Type" state_def with
  | Some t => hashable t
  | None => true
  end
  && match dict_lookup "End" state_def with
     | Some (JBool _) | None => true
     | Some _ => false
     end.

(** A predicate that holds of every state that is an object. *)
Definition all_states (P : list (string * json) → bool)
    (states : list (string * json)) : Prop :=
  ∀ name state_def, (name, JObj state_def) ∈ states → P state_def = true.

(** The states the traversal of section 4.4 can reach from [start_at]. *)
Inductive reach (states : list (string * json)) (start_at : json)
  : string → Prop :=
| reach_start name :
    start_at = JStr name →
    dict_has name states = true →
    reach states start_at name
| reach_step name state_def field target :
    reach states start_at name →
    dict_lookup name states = Some (JObj state_def) →
    (field, JStr target) ∈ edges_of state_def →
    dict_has target states = true →
    reach states start_at target.

(** An edge whose target is no key of [states]. *)
Definition dangling (states : list (string * json)) (e : edge_field * json)
  : bool :=
  match snd e with
  | JStr target => negb (dict_has target states)
  | _ => true
  end.

(** The errors that section 4.3 asks for one state: one per dangling
    edge. *)
Definition reference_errors (states : list (string * json))
    (item : string * json) : list string :=
  match snd item with
  | JObj state_def =>
      map (reference_error (fst item))
          (List.filter (dangling states) (edges_of state_def))
  | _ => []
  end.

(** A state of the terminal-state check of section 4.5: of type [Succeed]
    or [Fail], or with [End] equal to [true]. *)
Definition is_terminal (state_def : json) : bool :=
  match state_def with
  | JObj state_def =>
      eq_str (dict_get "Type" JNull state_def) "Succeed"
      || eq_str (dict_get "Type" JNull state_def) "Fail"
      || match dict_lookup "End" state_def with
         | Some (JBool true) => true
         | _ => false
         end
  | _ => false
  end.

(** A state without its [Branches] field. *)
Definition without_branches (state_def : json) : json :=
  match state_def with
  | JObj fields =>
      JObj (List.filter (fun kv => negb (String.eqb (fst kv) "Branches"))
                        fields)
  | _ => state_def
  end.

(** What is left to do for the traversal: one unit per state not yet
    visited, plus the targets it will push. *)
Definition potential (states : list (string * json)) (reachable : gset string)
  : nat :=
  sum_list (map (fun item => if bool_decide (fst item ∈ reachable) then 0
                             else S (out_degree (snd item))) states).


(** The validator with more warnings, everything else as it was. *)
Definition with_warnings (msgs : list string) (self : validator) : validator :=
  mkValidator (file_path self) (errors self) (warnings self ++ msgs)
              (info self) (definition self).

(** The validator with more errors, everything else as it was. *)
Definition with_errors (msgs : list string) (self : validator) : validator :=
  mkValidator (file_path self) (errors self ++ msgs) (warnings self)
              (info self) (definition self).

(** The example of section 8: [A] goes to [B], nothing goes to [C]. *)
Definition three_state_example : json :=
  JObj [("StartAt", JStr "A");
        ("States",
         JObj [("A", JObj [("Type", JStr "Pass"); ("Next", JStr "B");
                           ("End", JBool false)]);
               ("B", JObj [("Type", JStr "Succeed")]);
               ("C", JObj [("Type", JStr "Succeed")])])].

(** The error of [_validate_start_at], and how to tell it from the other
    errors: no other message starts like it. *)
Definition start_at_error (start_at : json) : string :=
  "'StartAt' references non-existent state: '" +:+ fmt start_at +:+ "'".

Definition is_start_at_error (msg : string) : bool :=
  String.prefix "'StartAt' references" msg.

(** Partial correctness of a run: if it ends normally, its value
    satisfies [Q]. *)
Definition wp {A} (r : result A) (Q : A → Prop) : Prop :=
  match r with
  | Ok a => Q a
  | _ => True
  end.

(** [self'] is [self] with more diagnostics, the new errors all in [P]. *)
Definition grows (P : string → Prop) (self self' : validator) : Prop :=
  definition self' = definition self
  ∧ file_path self' = file_path self
  ∧ ∃ new, errors self' = errors self ++ new ∧ Forall P new.

(** A set of states closed under the targets that [next_states_of] lists. *)
Definition closed_under_next (states : list (string * json))
    (P : string → Prop) : Prop :=
  ∀ name state_def next target,
    P name →
    dict_lookup name states = Some (JObj state_def) →
    next_states_of state_def = Ok next →
    JStr target ∈ next →
    dict_has target states = true →
    P target.

(** The target of a rule of [Choices] or [Catch], if it has one. *)
Definition targets_of (rule : json) : list json :=
  match rule_next rule with
  | Some t => [t]
  | None => []
  end.

(** The errors other than the one of a dangling [StartAt]. *)
Definition other_error (msg : string) : Prop := is_start_at_error msg = false.

(** *** Sample documents and a sample environment

    Used to run the validator: a [str()] and a [json.dumps] that give fixed
    texts (the second with two ARNs of one account), sets iterated in the
    order of [elements], and a handful of files. *)

Definition sample_repr : json → string := fun _ => "<value>".

Definition sample_dumps : json → string := fun _ =>
  "arn:aws:states:eu-west-1:123456789012:x arn:aws:lambda::123456789012:f".

(** [StartAt] is the empty string. *)
Definition empty_start_document : json :=
  JObj [("StartAt", JStr "");
        ("States", JObj [("A", JObj [("Type", JStr "Succeed")])])].

(** [StartAt] is the empty string, two states. *)
Definition empty_start_two_states : json :=
  JObj [("StartAt", JStr "");
        ("States", JObj [("A", JObj [("Type", JStr "Succeed")]);
                         ("B", JObj [("Type", JStr "Fail")])])].

(** [StartAt] names a state that does not exist. *)
Definition dangling_start_document : json :=
  JObj [("StartAt", JStr "X");
        ("States", JObj [("A", JObj [("Type", JStr "Succeed")])])].

(** The only terminal state, [B], cannot be reached from [A]. *)
Definition unreachable_terminal_document : json :=
  JObj [("StartAt", JStr "A");
        ("States", JObj [("A", JObj [("Type", JStr "Pass");
                                     ("Next", JStr "A")]);
                         ("B", JObj [("Type", JStr "Succeed")])])].

(** A dangling [Next], [Default], choice and catcher, and a [Branches]
    field that would dangle too if it were looked at. *)
Definition dangling_edges_document : json :=
  JObj [("StartAt", JStr "A");
        ("States",
         JObj [("A", JObj [("Type", JStr "Choice");
                           ("Choices", JArr [JObj [("Next", JStr "B")];
                                             JObj [("Next", JStr "Nowhere")]]);
                           ("Default", JStr "Lost")]);
               ("B", JObj [("Type", JStr "Parallel");
                           ("Next", JStr "Gone");
                           ("Catch", JArr [JObj [("Next", JStr "Missing")]]);
                           ("Branches",
                            JArr [JObj [("StartAt", JStr "Inner");
                                        ("States", JObj [])]])])])].

(** Shapes that the validator does not guard against: a root that is an
    array, [States] that is an array, a number as [Choices], as an element
    of [Choices], as an element of [Catch] and as [Credentials]. *)
Definition array_root_document : json := JArr [].

Definition array_states_document : json :=
  JObj [("StartAt", JStr "A"); ("States", JArr [])].

Definition number_choices_document : json :=
  JObj [("StartAt", JStr "A");
        ("States", JObj [("A", JObj [("Type", JStr "Choice");
                                     ("Choices", JInt 5);
                                     ("Default", JStr "A")])])].

Definition number_choice_document : json :=
  JObj [("StartAt", JStr "A");
        ("States", JObj [("A", JObj [("Type", JStr "Choice");
                                     ("Choices", JArr [JInt 1]);
                                     ("Default", JStr "A")])])].

Definition number_catch_document : json :=
  JObj [("StartAt", JStr "A");
        ("States", JObj [("A", JObj [("Type", JStr "Pass");
                                     ("End", JBool true);
                                     ("Catch", JArr [JInt 1])])])].

Definition number_credentials_document : json :=
  JObj [("StartAt", JStr "A");
        ("States", JObj [("A", JObj [("Type", JStr "Pass");
                                     ("End", JBool true);
                                     ("Credentials", JInt 5)])])].

(** The fields of a document that is an object, and its [States] when
    that is an object too. *)
Definition root_of (document : json) : list (string * json) :=
  match document with
  | JObj root => root
  | _ => []
  end.

Definition states_of (document : json) : list (string * json) :=
  match dict_lookup "States" (root_of document) with
  | Some (JObj states) => states
  | _ => []
  end.

Definition unguarded_documents : list json :=
  [array_root_document; array_states_document; number_choices_document;
   number_choice_document; number_catch_document;
   number_credentials_document].

Definition sample_files (path : string) : load_outcome :=
  if String.eqb path "three.asl.json" then Loaded three_state_example
  else if String.eqb path "dangling.asl.json"
       then Loaded dangling_start_document
  else if String.eqb path "array.asl.json" then Loaded array_root_document
  else if String.eqb path "broken.asl.json"
       then JSONDecodeError "Expecting value: line 1 column 1 (char 0)"
  else FileNotFoundError.

(** *** Notions for the further properties *)

(** One iteration of the loop of [_detect_unreachable_states], with what
    follows it as [continue]: [bfs (S fuel)] is this step followed by
    [bfs fuel]. *)
Definition bfs_step (states : list (string * json))
    (continue : gset string → list json → result (gset string))
    (reachable : gset string) (queue : list json) : result (gset string) :=
  match queue with
  | [] => Ok reachable
  | current :: queue =>
      if negb (hashable current) then Raise
      else
        match current with
        | JStr name =>
            if bool_decide (name ∈ reachable)
            then continue reachable queue
            else
              match dict_lookup name states with
              | None => continue reachable queue
              | Some state_def =>
                  let reachable := {[name]} ∪ reachable in
                  match state_def with
                  | JObj state_def =>
                      next_states ← next_states_of state_def;
                      continue reachable (queue ++ next_states)
                  | _ => continue reachable queue
                  end
              end
        | _ => continue reachable queue
        end
  end.

(** [self'] is [self] after more diagnostics were appended: same document,
    same path, and each list of [self] is the beginning of that of
    [self']. *)
Definition keeps (self self' : validator) : Prop :=
  definition self' = definition self
  ∧ file_path self' = file_path self
  ∧ errors self `prefix_of` errors self'
  ∧ warnings self `prefix_of` warnings self'
  ∧ info self `prefix_of` info self'.

(** [Credentials], where present, is an object. *)
Definition typed_credentials (state_def : list (string * json)) : bool :=
  match dict_lookup "Credentials" state_def with
  | Some (JObj _) | None => true
  | Some _ => false
  end.

(** A state typed as in the data model, for the fields the validator
    reads. *)
Definition typed_state (state_def : list (string * json)) : bool :=
  typed_tags state_def && typed_edges state_def
  && typed_branches state_def && typed_credentials state_def.

(** A document typed as in the data model: an object whose [StartAt],
    where present, is a string and whose [States], where present, is an
    object; the states that are objects are typed. *)
Definition typed_document (document : json) : bool :=
  match document with
  | JObj root =>
      typed_target (dict_lookup "StartAt" root)
      && match dict_lookup "States" root with
         | None => true
         | Some (JObj states) =>
             forallb (fun item => match snd item with
                                  | JObj state_def => typed_state state_def
                                  | _ => true
                                  end) states
         | Some _ => false
         end
  | _ => false
  end.

(** What the driver asks of a result: no error, and under [--strict] no
    warning. *)
Definition passes (strict : bool) (r : bool * validator) : bool :=
  fst r && (if strict then Nat.eqb (length (warnings (snd r))) 0 else true).

(** The states that carry [Credentials], and those whose [Credentials]
    object has neither [RoleArn] nor [RoleArn.$]. *)
Definition has_credentials (state_def : json) : bool :=
  match state_def with
  | JObj fields => dict_has "Credentials" fields
  | _ => false
  end.

Definition lacks_role (state_def : json) : bool :=
  match state_def with
  | JObj fields =>
      match dict_lookup "Credentials" fields with
      | Some (JObj creds) =>
          negb (dict_has "RoleArn" creds) && negb (dict_has "RoleArn.$" creds)
      | _ => false
      end
  | _ => false
  end.

Definition credentials_msg (state_name : string) : string :=
  "State '" +:+ state_name +:+ "' has Credentials but no RoleArn".

Definition cross_account_msg (credentials_count : nat) : string :=
  "Cross-account pattern detected: " +:+ str_of_nat credentials_count
  +:+ " states with Credentials".

(** The validator with more info lines, everything else as it was. *)
Definition with_info (msgs : list string) (self : validator) : validator :=
  mkValidator (file_path self) (errors self) (warnings self)
              (info self ++ msgs) (definition self).

(** Sample documents and a file system for the further properties. *)
Definition single_state_document : json :=
  JObj [("StartAt", JStr "A");
        ("States", JObj [("A", JObj [("Type", JStr "Succeed")])])].

Definition credentials_document : json :=
  JObj [("StartAt", JStr "A");
        ("States",
         JObj [("A", JObj [("Type", JStr "Task"); ("Resource", JStr "r");
                           ("Credentials",
                            JObj [("RoleArn", JStr "role")]);
                           ("Next", JStr "B")]);
               ("B", JObj [("Type", JStr "Task"); ("Resource", JStr "r");
                           ("Credentials", JObj []);
                           ("Next", JStr "C")]);
               ("C", JObj [("Type", JStr "Succeed")])])].

Definition stateless_document : json :=
  JObj [("Comment", JStr "no states yet")].

Definition plain_dumps : json → string := fun _ => "{}".

Definition plain_files (path : string) : load_outcome :=
  if String.eqb path "single.asl.json" then Loaded single_state_document
  else if String.eqb path "stateless.asl.json" then Loaded stateless_document
  else FileNotFoundError.

(** A field that is absent or holds a falsy value: what [not d.get(k)]
    accepts. *)
Definition falsy (field : option json) : bool :=
  match field with
  | Some value => negb (truthy value)
  | None => true
  end.

(** [Type], where present, is a scalar. *)
Definition scalar_type (state_def : list (string * json)) : bool :=
  match dict_lookup "Type" state_def with
  | Some t => hashable t
  | None => true
  end.

(** A state whose [End] is a non-empty string, and a state with a number
    among its catchers before a state with a dangling [Next]. *)
Definition truthy_end_document : json :=
  JObj [("StartAt", JStr "A");
        ("States", JObj [("A", JObj [("Type", JStr "Pass");
                                     ("End", JStr "no")])])].

Definition catch_before_dangling_document : json :=
  JObj [("StartAt", JStr "A");
        ("States", JObj [("A", JObj [("Type", JStr "Pass");
                                     ("Next", JStr "B");
                                     ("Catch", JArr [JInt 1])]);
                         ("B", JObj [("Type", JStr "Pass");
                                     ("Next", JStr "Gone")])])].

(** What the structural rules ask of the fields of a state of type [ty]. *)
Definition type_rule (ty : string) (fields : list (string * json)) : Prop :=
  (ty = "Choice" →
     ∃ choices, dict_lookup "Choices" fields = Some (JArr choices)
                ∧ choices ≠ []
                ∧ Forall (λ choice, py_in (JStr "Next") choice = Ok true)
                         choices)
  ∧ (ty = "Task" → dict_has "Resource" fields = true)
  ∧ (ty = "Wait" → existsb (λ f, dict_has f fields) wait_fields = true)
  ∧ (ty = "Map" → dict_has "ItemProcessor" fields
                  || dict_has "Iterator" fields = true)
  ∧ (ty = "Parallel" →
       ∃ branch branches,
         dict_lookup "Branches" fields = Some (JArr (branch :: branches))).

(** A state the structural check has nothing to say against. *)
Definition state_shape (state_def : json) : Prop :=
  ∃ fields ty,
    state_def = JObj fields
    ∧ dict_lookup "Type" fields = Some (JStr ty)
    ∧ ty ∈ VALID_STATE_TYPES
    ∧ (ty ∉ NO_TRANSITION_TYPES →
       truthy (dict_get "End" (JBool false) fields) = true
       ∨ dict_has "Next" fields = true)
    ∧ type_rule ty fields.

(** A transition target that names a state. *)
Definition known (states : list (string * json)) (target : json) : Prop :=
  ∃ name, target = JStr name ∧ dict_has name states = true.

(** A state all of whose transition targets name a state: its [Next], the
    [Next] of each catcher, and for a Choice state its [Default] and the
    [Next] of each rule. *)
Definition targets_known (states : list (string * json)) (state_def : json)
  : Prop :=
  ∀ fields, state_def = JObj fields →
    (∀ target, dict_lookup "Next" fields = Some target → known states target)
    ∧ (eq_str (dict_get "Type" JNull fields) "Choice" = true →
       (∀ target, dict_lookup "Default" fields = Some target →
                  known states target)
       ∧ ∀ choices rule target,
           dict_lookup "Choices" fields = Some (JArr choices) →
           JObj rule ∈ choices →
           dict_lookup "Next" rule = Some target → known states target)
    ∧ (∀ catches rule target,
         dict_lookup "Catch" fields = Some (JArr catches) →
         JObj rule ∈ catches →
         dict_lookup "Next" rule = Some target → known states target).

(** What the terminal check looks for in a state. *)
Definition ends_workflow (state_def : json) : bool :=
  match state_def with
  | JObj fields =>
      eq_str (dict_get "Type" (JStr "") fields) "Succeed"
      || eq_str (dict_get "Type" (JStr "") fields) "Fail"
      || truthy (dict_get "End" (JBool false) fields)
  | _ => false
  end.

(** A document against which no check of [validate] records an error. *)
Definition well_formed (document : json) : Prop :=
  ∃ root states start,
    document = JObj root
    ∧ dict_lookup "States" root = Some (JObj states)
    ∧ states ≠ []
    ∧ dict_lookup "StartAt" root = Some (JStr start)
    ∧ dict_has start states = true
    ∧ Forall (λ item, state_shape (snd item)) states
    ∧ Forall (λ item, targets_known states (snd item)) states
    ∧ Exists (λ item, ends_workflow (snd item) = true) states.

(** A path [find_asl_files] keeps: no part starts with a dot and none is
    [node_modules]. *)
Definition visible (parts : list string) : bool :=
  forallb (λ part, negb (starts_with_dot part)
                   && negb (String.eqb "node_modules" part)) parts.

(** Every character of a string satisfies a test. *)
Definition all_chars (test : ascii → bool) (s : string) : bool :=
  forallb test (list_ascii_of_string s).

(** The warnings of the structural check on one state: a Choice state
    without [Default], a Task state with neither [Catch] nor [Retry]. *)
Definition choice_default_msg (state_name : string) : string :=
  "Choice state '" +:+ state_name +:+
  "' has no 'Default' - may fail at runtime if no choice matches".

Definition task_handling_msg (state_name : string) : string :=
  "Task state '" +:+ state_name +:+ "' has no error handling (Catch/Retry)".

Definition state_warnings (item : string * json) : list string :=
  match snd item with
  | JObj fields =>
      if eq_str (dict_get "Type" JNull fields) "Choice"
      then if dict_has "Default" fields then []
           else [choice_default_msg (fst item)]
      else if eq_str (dict_get "Type" JNull fields) "Task"
      then if negb (dict_has "Catch" fields) && negb (dict_has "Retry" fields)
           then [task_handling_msg (fst item)]
           else []
      else []
  | _ => []
  end.


(** ** Properties *)

(** The iteration order of a set is unspecified, but it goes through each
    member once. *)
Hypothesis set_iter_perm : ∀ X : gset string, set_iter X ≡ₚ elements X.

(** Keep out of a proof the parameters its statement does not mention. *)
Ltac no_env :=
  try clear set_iter_perm; try clear read_json; try clear json_dumps;
  try clear set_iter; try clear py_repr.

Ltac keep_perm :=
  try clear read_json; try clear json_dumps; try clear py_repr.

Lemma bind_Ok {A B} (r : result A) (k : A → result B) (b : B) :
  r ≫= k = Ok b → ∃ a, r = Ok a ∧ k a = Ok b.
Proof. no_env. destruct r; simpl; intros H; try discriminate; eauto. Qed.

Lemma app_singleton_neq_nil {A} (l : list A) (x : A) : l ++ [x] ≠ [].
Proof. no_env. destruct l; discriminate. Qed.

Lemma app_singleton_neq_self {A} (l : list A) (x : A) : l ++ [x] ≠ l.
Proof. no_env.
  intros H. apply (f_equal length) in H. rewrite length_app in H.
  simpl in H. lia.
Qed.

Lemma length_eqb_0 {A} (l : list A) : Nat.eqb (length l) 0 = true ↔ l = [].
Proof. no_env. destruct l; simpl; split; intros; congruence. Qed.

Lemma set_iter_NoDup (X : gset string) : NoDup (set_iter X).
Proof. keep_perm. rewrite set_iter_perm. apply NoDup_elements. Qed.

Lemma elem_of_set_iter (X : gset string) (x : string) :
  x ∈ set_iter X ↔ x ∈ X.
Proof. keep_perm. rewrite set_iter_perm. apply elem_of_elements. Qed.

(** *** Dictionaries *)

Lemma dict_has_lookup {V} (k : string) (d : list (string * V)) :
  dict_has k d = true ↔ ∃ v, dict_lookup k d = Some v.
Proof. no_env.
  unfold dict_has. destruct (dict_lookup k d); split;
    try intros [? ?]; eauto; discriminate.
Qed.

Lemma dict_has_keys {V} (k : string) (d : list (string * V)) :
  dict_has k d = true ↔ k ∈ dict_keys d.
Proof. no_env.
  unfold dict_has, dict_keys.
  induction d as [|[k' v] d IH]; simpl.
  - split; [discriminate|]. intros H. now apply not_elem_of_nil in H.
  - destruct (String.eqb_spec k k') as [->|Hne].
    + split; [intros _; left|reflexivity].
    + rewrite IH. split; [intros H; now right|].
      intros H. apply elem_of_cons in H as [H|H]; [congruence|exact H].
Qed.

Lemma dict_lookup_elem_of {V} (k : string) (v : V) (d : list (string * V)) :
  dict_lookup k d = Some v → (k, v) ∈ d.
Proof. no_env.
  induction d as [|[k' v'] d IH]; simpl; [discriminate|].
  destruct (String.eqb_spec k k') as [->|Hne].
  - intros [= ->]. left.
  - intros H. right. auto.
Qed.

(** *** The traversal terminates within its fuel *)

Lemma potential_mono (states : list (string * json)) (name : string)
    (V : gset string) :
  (potential states ({[name]} ∪ V) ≤ potential states V)%nat.
Proof. no_env.
  unfold potential. induction states as [|[k v] states IH]; simpl; [lia|].
  destruct (bool_decide (k ∈ V)) eqn:HkV.
  - apply bool_decide_eq_true in HkV.
    rewrite bool_decide_eq_true_2 by set_solver. simpl. lia.
  - destruct (bool_decide (k ∈ {[name]} ∪ V)); simpl; lia.
Qed.

Lemma potential_visit (states : list (string * json)) (name : string)
    (state_def : json) (V : gset string) :
  name ∉ V →
  dict_lookup name states = Some state_def →
  (potential states ({[name]} ∪ V) + S (out_degree state_def)
   ≤ potential states V)%nat.
Proof. no_env.
  intros HV. unfold potential.
  induction states as [|[k v] states IH]; simpl; [discriminate|].
  destruct (String.eqb_spec name k) as [<-|Hne].
  - intros [= ->].
    rewrite (bool_decide_eq_true_2 (name ∈ {[name]} ∪ V)) by set_solver.
    rewrite (bool_decide_eq_false_2 (name ∈ V)) by exact HV. simpl.
    pose proof (potential_mono states name V) as Hm.
    unfold potential in Hm. lia.
  - intros Hl. specialize (IH Hl).
    destruct (bool_decide (k ∈ V)) eqn:HkV.
    + apply bool_decide_eq_true in HkV.
      rewrite bool_decide_eq_true_2 by set_solver. simpl. lia.
    + rewrite bool_decide_eq_false_2.
      * simpl. lia.
      * apply bool_decide_eq_false in HkV. set_solver.
Qed.

Lemma bind_fuel {A B} (r : result A) (k : A → result B) :
  r ≠ OutOfFuel → (∀ a, k a ≠ OutOfFuel) → r ≫= k ≠ OutOfFuel.
Proof. no_env. destruct r; simpl; auto. Qed.

Lemma fmap_fuel {A B} (f : A → B) (r : result A) :
  r ≠ OutOfFuel → f <$> r ≠ OutOfFuel.
Proof. no_env. destruct r; simpl; auto; discriminate. Qed.

Lemma rfold_fuel {A B} (body : A → B → result A) (l : list B) :
  (∀ acc x, body acc x ≠ OutOfFuel) →
  ∀ acc, rfold body acc l ≠ OutOfFuel.
Proof. no_env.
  intros Hbody. induction l as [|x l IH]; intros acc; simpl.
  - discriminate.
  - apply bind_fuel; auto.
Qed.

Lemma py_in_fuel (x hay : json) : py_in x hay ≠ OutOfFuel.
Proof. no_env.
  destruct hay; simpl; try discriminate.
  - destruct x; discriminate.
  - destruct (hashable x); discriminate.
Qed.

Lemma py_getitem_fuel (x : json) (k : string) : py_getitem x k ≠ OutOfFuel.
Proof. no_env.
  destruct x as [| | | | | |d]; simpl; try discriminate.
  destruct (dict_lookup k d); discriminate.
Qed.

Lemma py_get_fuel (x : json) (k : string) (d : json) :
  py_get x k d ≠ OutOfFuel.
Proof. no_env. destruct x; discriminate. Qed.

Lemma py_items_fuel (x : json) : py_items x ≠ OutOfFuel.
Proof. no_env. destruct x; discriminate. Qed.

Lemma py_iter_fuel (x : json) : py_iter x ≠ OutOfFuel.
Proof. no_env. destruct x; discriminate. Qed.

Lemma set_has_fuel (x : json) (s : gset string) : set_has x s ≠ OutOfFuel.
Proof. no_env. unfold set_has. destruct (hashable x); discriminate. Qed.

(** Peels a goal "this never runs out of fuel" down to its calls. *)
Ltac fuel_step :=
  match goal with
  | |- Ok _ ≠ OutOfFuel => discriminate
  | |- Raise ≠ OutOfFuel => discriminate
  | |- py_in _ _ ≠ OutOfFuel => apply py_in_fuel
  | |- py_getitem _ _ ≠ OutOfFuel => apply py_getitem_fuel
  | |- py_get _ _ _ ≠ OutOfFuel => apply py_get_fuel
  | |- py_items _ ≠ OutOfFuel => apply py_items_fuel
  | |- py_iter _ ≠ OutOfFuel => apply py_iter_fuel
  | |- set_has _ _ ≠ OutOfFuel => apply set_has_fuel
  | |- (_ ≫= _) ≠ OutOfFuel => apply bind_fuel
  | |- (_ <$> _) ≠ OutOfFuel => apply fmap_fuel
  | |- rfold _ _ _ ≠ OutOfFuel => apply rfold_fuel
  | |- (if ?b then _ else _) ≠ OutOfFuel => destruct b
  | |- (match ?x with _ => _ end) ≠ OutOfFuel => destruct x
  | |- ∀ _, _ => intro
  end.

Lemma next_states_of_fuel (state_def : list (string * json)) :
  next_states_of state_def ≠ OutOfFuel.
Proof. no_env. unfold next_states_of, collect_next. repeat fuel_step. Qed.

Lemma bfs_fuel_enough (states : list (string * json)) (fuel : nat) :
  ∀ (V : gset string) (queue : list json),
    (potential states V + length queue < fuel)%nat →
    bfs fuel states V queue ≠ OutOfFuel.
Proof. no_env.
  induction fuel as [|fuel IH]; intros V queue Hfuel; [lia|].
  simpl. destruct queue as [|current queue]; [discriminate|].
  simpl in Hfuel.
  destruct (hashable current); simpl; [|discriminate].
  assert (Hskip : bfs fuel states V queue ≠ OutOfFuel) by (apply IH; lia).
  destruct current as [| | | |name| |]; try exact Hskip.
  destruct (bool_decide (name ∈ V)) eqn:HV; [exact Hskip|].
  apply bool_decide_eq_false in HV.
  destruct (dict_lookup name states) as [state_def|] eqn:Hl; [|exact Hskip].
  pose proof (potential_visit _ _ _ _ HV Hl) as Hp.
  assert (Hnodict : bfs fuel states ({[name]} ∪ V) queue ≠ OutOfFuel)
    by (apply IH; lia).
  destruct state_def as [| | | | | |state_def]; try exact Hnodict.
  simpl in Hp.
  pose proof (next_states_of_fuel state_def) as Hnext.
  destruct (next_states_of state_def) as [next| |]; simpl.
  - apply IH. rewrite length_app. lia.
  - discriminate.
  - congruence.
Qed.

Lemma bfs_fuel_potential (states : list (string * json)) :
  bfs_fuel states = 2 + potential states ∅.
Proof. no_env.
  unfold bfs_fuel, potential. reflexivity.
Qed.

(** *** What the traversal computes *)

(** The two ways one iteration of the loop goes on: the entry is skipped,
    or it names a state not yet visited, which is marked and whose targets
    are queued. *)
Lemma bfs_inv (states : list (string * json)) (fuel : nat) (V : gset string)
    (current : json) (queue : list json) (R : gset string) :
  bfs (S fuel) states V (current :: queue) = Ok R →
  (bfs fuel states V queue = Ok R
   ∧ (∀ name, current = JStr name → dict_has name states = true → name ∈ V))
  ∨ (∃ name state_def next,
       current = JStr name ∧ (name ∉ V)
       ∧ dict_lookup name states = Some state_def
       ∧ (match state_def with
          | JObj state_def => next_states_of state_def = Ok next
          | _ => next = []
          end)
       ∧ bfs fuel states ({[name]} ∪ V) (queue ++ next) = Ok R).
Proof. no_env.
  simpl. destruct (hashable current) eqn:Hh; simpl; [|discriminate].
  destruct current as [| | | |name| |]; try discriminate;
    try (intros H; left; split; [exact H|discriminate]).
  destruct (bool_decide (name ∈ V)) eqn:HV.
  { apply bool_decide_eq_true in HV. intros H. left.
    split; [exact H|]. now intros ? [= <-]. }
  apply bool_decide_eq_false in HV.
  destruct (dict_lookup name states) as [state_def|] eqn:Hl.
  2:{ intros H. left. split; [exact H|]. intros ? [= <-] Hhas.
      apply dict_has_lookup in Hhas as [? ?]. congruence. }
  intros H. right. exists name, state_def.
  destruct state_def as [| | | | | |state_def];
    try (exists []; rewrite app_nil_r; now repeat split).
  apply bind_Ok in H as (next & Hnext & H).
  exists next. now repeat split.
Qed.

Section Traversal.

Variable states : list (string * json).

Lemma bfs_sound (P : string → Prop) :
  closed_under_next states P →
  ∀ fuel V queue R,
    bfs fuel states V queue = Ok R →
    (∀ name, name ∈ V → P name) →
    (∀ name, JStr name ∈ queue → dict_has name states = true → P name) →
    ∀ name, name ∈ R → P name.
Proof. no_env.
  intros Hclosed. induction fuel as [|fuel IH]; intros V queue R Hbfs HV HQ;
    [discriminate|].
  destruct queue as [|current queue]; [injection Hbfs as <-; exact HV|].
  apply bfs_inv in Hbfs
    as [[Hbfs _]|(name & state_def & next & -> & Hnew & Hl & Hnext & Hbfs)].
  - eapply IH; [exact Hbfs|exact HV|].
    intros name Hin. apply HQ. now right.
  - assert (HP : P name).
    { apply HQ; [left|]. apply dict_has_lookup. eauto. }
    eapply IH; [exact Hbfs| |].
    + intros k Hk. apply elem_of_union in Hk as [Hk|Hk]; [|now apply HV].
      apply elem_of_singleton in Hk as ->. exact HP.
    + intros k Hk Hhas. apply elem_of_app in Hk as [Hk|Hk].
      * apply HQ; [now right|exact Hhas].
      * destruct state_def as [| | | | | |state_def]; subst;
          try (now apply not_elem_of_nil in Hk).
        eapply Hclosed; eauto.
Qed.

Lemma bfs_complete :
  ∀ fuel V queue R,
    bfs fuel states V queue = Ok R →
    V ⊆ R
    ∧ (∀ name, JStr name ∈ queue → dict_has name states = true → name ∈ R)
    ∧ ((∀ name state_def next target,
          name ∈ V →
          dict_lookup name states = Some (JObj state_def) →
          next_states_of state_def = Ok next →
          JStr target ∈ next →
          dict_has target states = true →
          target ∈ V ∨ JStr target ∈ queue) →
       closed_under_next states (λ name, name ∈ R)).
Proof. no_env.
  induction fuel as [|fuel IH]; intros V queue R Hbfs; [discriminate|].
  destruct queue as [|current queue].
  { injection Hbfs as <-. split; [done|]. split.
    - intros name Hin. now apply not_elem_of_nil in Hin.
    - intros Hinv name state_def next target Hn Hl Hnext Ht Hhas.
      destruct (Hinv _ _ _ _ Hn Hl Hnext Ht Hhas) as [H|H]; [exact H|].
      now apply not_elem_of_nil in H. }
  apply bfs_inv in Hbfs
    as [[Hbfs Hskip]|(name & sd & next & -> & Hnew & Hl & Hnext & Hbfs)].
  - destruct (IH _ _ _ Hbfs) as (HVR & HQR & Hcl).
    split; [exact HVR|]. split.
    + intros name Hin Hhas. apply elem_of_cons in Hin as [Heq|Hin].
      * apply HVR, Hskip; auto.
      * now apply HQR.
    + intros Hinv. apply Hcl.
      intros name state_def next target Hn Hl Hnext Ht Hhas.
      destruct (Hinv _ _ _ _ Hn Hl Hnext Ht Hhas) as [H|H]; [now left|].
      apply elem_of_cons in H as [Heq|H]; [|now right].
      left. apply Hskip; auto.
  - destruct (IH _ _ _ Hbfs) as (HVR & HQR & Hcl).
    assert (HnameR : name ∈ R) by (apply HVR; set_solver).
    split; [set_solver|]. split.
    + intros k Hin Hhas. apply elem_of_cons in Hin as [[= ->]|Hin].
      * exact HnameR.
      * apply HQR; [|exact Hhas]. apply elem_of_app. now left.
    + intros Hinv. apply Hcl.
      intros k state_def next' target Hk Hlk Hnext' Ht Hhas.
      apply elem_of_union in Hk as [Hk|Hk].
      * apply elem_of_singleton in Hk as ->.
        rewrite Hl in Hlk. injection Hlk as ->.
        rewrite Hnext in Hnext'. injection Hnext' as ->.
        right. apply elem_of_app. now right.
      * destruct (Hinv _ _ _ _ Hk Hlk Hnext' Ht Hhas) as [H|H].
        { left. set_solver. }
        apply elem_of_cons in H as [[= ->]|H].
        { left. set_solver. }
        right. apply elem_of_app. now left.
Qed.

End Traversal.

(** *** The traversal on well-typed transition fields *)

Lemma rule_edges_targets (f : nat → edge_field) (rules : list json) :
  map snd (rule_edges f rules) = flat_map targets_of rules.
Proof. no_env.
  unfold rule_edges, enumerate. generalize 0 as n.
  induction rules as [|rule rules IH]; intros n; simpl; [reflexivity|].
  rewrite map_app, IH. f_equal.
  unfold targets_of, field_edge. now destruct (rule_next rule).
Qed.

Lemma rfold_cons {A B} (body : A → B → result A) (acc : A) (x : B)
    (l : list B) :
  rfold body acc (x :: l) = body acc x ≫= λ acc', rfold body acc' l.
Proof. no_env. reflexivity. Qed.

Lemma collect_next_rule (acc : list json) (rule : json) :
  typed_rule rule = true →
  collect_next acc rule = Ok (acc ++ targets_of rule).
Proof. no_env.
  destruct rule as [| | | | | |d]; try discriminate. intros _.
  unfold collect_next, targets_of. simpl. unfold dict_has.
  destruct (dict_lookup "Next" d); simpl; [reflexivity|].
  now rewrite app_nil_r.
Qed.

Lemma collect_next_typed (rules : list json) :
  forallb typed_rule rules = true →
  ∀ acc, rfold collect_next acc rules = Ok (acc ++ flat_map targets_of rules).
Proof. no_env.
  induction rules as [|rule rules IH]; intros Htyped acc.
  - simpl. now rewrite app_nil_r.
  - apply andb_true_iff in Htyped as [Hrule Hrules].
    rewrite rfold_cons, collect_next_rule by exact Hrule.
    simpl. rewrite IH by exact Hrules. now rewrite <- app_assoc.
Qed.

Lemma typed_rules_iter (field : string) (state_def : list (string * json)) :
  typed_rules field state_def = true →
  py_iter (dict_get field (JArr []) state_def) = Ok (rules_of field state_def)
  ∧ forallb typed_rule (rules_of field state_def) = true.
Proof. no_env.
  unfold typed_rules, rules_of, dict_get.
  destruct (dict_lookup field state_def) as [[| | | | |rules|]|];
    try discriminate; auto.
Qed.

Lemma next_states_of_typed (state_def : list (string * json)) :
  typed_edges state_def = true →
  typed_branches state_def = true →
  next_states_of state_def = Ok (map snd (edges_of state_def)).
Proof. no_env.
  unfold typed_edges, typed_branches, next_states_of, edges_of.
  intros Hedges Hbranches.
  apply andb_true_iff in Hedges as [Hedges Hcatch].
  apply andb_true_iff in Hedges as [_ Hchoice].
  apply typed_rules_iter in Hcatch as [Hcatch_iter Hcatch].
  assert (Hnext : (if dict_has "Next" state_def
                   then [dict_get "Next" JNull state_def] else [])
                  = map snd (field_edge FNext (dict_lookup "Next" state_def))).
  { unfold dict_has, dict_get.
    now destruct (dict_lookup "Next" state_def). }
  rewrite Hnext. clear Hnext.
  assert (Hbr : py_iter (dict_get "Branches" (JArr []) state_def)
                ≠ Raise ∧
                py_iter (dict_get "Branches" (JArr []) state_def)
                ≠ OutOfFuel).
  { unfold dict_get.
    destruct (dict_lookup "Branches" state_def) as [[| | | | |?|]|];
      try discriminate; split; discriminate. }
  destruct (eq_str (dict_get "Type" JNull state_def) "Choice"); simpl.
  - apply andb_true_iff in Hchoice as [Hchoices _].
    apply typed_rules_iter in Hchoices as [Hchoices_iter Hchoices].
    rewrite Hchoices_iter. simpl.
    rewrite (collect_next_typed _ Hchoices). simpl.
    rewrite Hcatch_iter. simpl.
    assert (Hdef : ∀ l, (if dict_has "Default" state_def
                   then l ++ [dict_get "Default" JNull state_def] else l)
                  = l ++ map snd (field_edge FDefault
                                    (dict_lookup "Default" state_def))).
    { intros l. unfold dict_has, dict_get.
      destruct (dict_lookup "Default" state_def); simpl;
        [reflexivity|now rewrite app_nil_r]. }
    rewrite Hdef, (collect_next_typed _ Hcatch). simpl.
    destruct (py_iter (dict_get "Branches" (JArr []) state_def));
      simpl; [|now destruct Hbr..].
    rewrite !map_app, !rule_edges_targets. now rewrite <- !app_assoc.
  - rewrite Hcatch_iter. simpl.
    rewrite (collect_next_typed _ Hcatch). simpl.
    destruct (py_iter (dict_get "Branches" (JArr []) state_def));
      simpl; [|now destruct Hbr..].
    now rewrite !map_app, !rule_edges_targets.
Qed.

Lemma typed_rules_targets (rules : list json) :
  forallb typed_rule rules = true →
  Forall (λ t, is_str t = true) (flat_map targets_of rules).
Proof. no_env.
  induction rules as [|rule rules IH]; simpl; intros H; [constructor|].
  apply andb_true_iff in H as [Hrule Hrules].
  apply Forall_app. split; [|auto].
  destruct rule as [| | | | | |d]; try discriminate.
  unfold targets_of. simpl. simpl in Hrule.
  destruct (dict_lookup "Next" d); repeat constructor. exact Hrule.
Qed.

Lemma typed_edges_targets (state_def : list (string * json)) :
  typed_edges state_def = true →
  Forall (λ t, is_str t = true) (map snd (edges_of state_def)).
Proof. no_env.
  unfold typed_edges, edges_of. intros H.
  apply andb_true_iff in H as [H Hcatch].
  apply andb_true_iff in H as [Hnext Hchoice].
  rewrite !map_app, rule_edges_targets.
  assert (Hfield : ∀ f target, typed_target target = true →
            Forall (λ t, is_str t = true) (map snd (field_edge f target))).
  { intros f [t|] Ht; repeat constructor. exact Ht. }
  repeat (apply Forall_app; split).
  - now apply Hfield.
  - destruct (eq_str (dict_get "Type" JNull state_def) "Choice");
      [|constructor].
    apply andb_true_iff in Hchoice as [Hchoices Hdefault].
    rewrite map_app, rule_edges_targets. apply Forall_app. split.
    + apply typed_rules_iter in Hchoices as [_ Hchoices].
      now apply typed_rules_targets.
    + now apply Hfield.
  - apply typed_rules_iter in Hcatch as [_ Hcatch].
    now apply typed_rules_targets.
Qed.

Lemma is_str_hashable (t : json) : is_str t = true → hashable t = true.
Proof. no_env. destruct t; simpl; congruence. Qed.

Lemma bfs_no_raise (states : list (string * json)) :
  all_states typed_edges states →
  all_states typed_branches states →
  ∀ fuel V queue,
    Forall (λ t, hashable t = true) queue →
    bfs fuel states V queue ≠ Raise.
Proof. no_env.
  intros Hedges Hbranches.
  induction fuel as [|fuel IH]; intros V queue Hq; simpl; [discriminate|].
  destruct queue as [|current queue]; [discriminate|].
  apply Forall_cons in Hq as [Hc Hq]. rewrite Hc. simpl.
  destruct current as [| | | |name| |]; try (now apply IH).
  destruct (bool_decide (name ∈ V)); [now apply IH|].
  destruct (dict_lookup name states) as [state_def|] eqn:Hl; [|now apply IH].
  destruct state_def as [| | | | | |state_def]; try (now apply IH).
  apply dict_lookup_elem_of in Hl.
  rewrite next_states_of_typed by eauto. simpl.
  apply IH. apply Forall_app. split; [exact Hq|].
  eapply Forall_impl; [apply typed_edges_targets; eauto|].
  intros t. apply is_str_hashable.
Qed.

Lemma bfs_reach (states : list (string * json)) (start_at : json)
    (fuel : nat) (R : gset string) :
  all_states typed_edges states →
  all_states typed_branches states →
  bfs fuel states ∅ [start_at] = Ok R →
  ∀ name, name ∈ R ↔ reach states start_at name.
Proof. no_env.
  intros Hedges Hbranches Hbfs name. split.
  - revert name. eapply bfs_sound; [|exact Hbfs|set_solver|].
    + intros k state_def next target Hk Hl Hnext Ht Hhas.
      rewrite next_states_of_typed in Hnext
        by (apply dict_lookup_elem_of in Hl; eauto).
      injection Hnext as <-.
      apply list_elem_of_In, in_map_iff in Ht as ([field t] & Heq & Hin).
      simpl in Heq. subst t. apply list_elem_of_In in Hin.
      eapply reach_step; eauto.
    + intros k Hk Hhas. apply list_elem_of_singleton in Hk.
      now apply reach_start.
  - destruct (bfs_complete _ _ _ _ _ Hbfs) as (_ & Hq & Hcl).
    assert (Hcl' : closed_under_next states (λ k, k ∈ R))
      by (apply Hcl; set_solver).
    induction 1 as [k Hstart Hhas|k state_def field target _ IH Hl Hin Hhas].
    + apply Hq; [rewrite Hstart; left|exact Hhas].
    + apply (Hcl' k state_def (map snd (edges_of state_def)) target);
        [exact IH|exact Hl| | |exact Hhas].
      * apply next_states_of_typed;
          apply dict_lookup_elem_of in Hl; eauto.
      * apply list_elem_of_In, in_map_iff. exists (field, JStr target).
        split; [reflexivity|now apply list_elem_of_In].
Qed.

(** *** The reachability stage *)

Lemma with_warnings_nil (self : validator) : with_warnings [] self = self.
Proof. no_env. destruct self. unfold with_warnings. simpl. now rewrite app_nil_r. Qed.

Lemma fold_add_warning (f : string → string) (l : list string) :
  ∀ self, fold_left (λ self x, add_warning (f x) self) l self
          = with_warnings (map f l) self.
Proof. no_env.
  induction l as [|x l IH]; intros self; simpl.
  - now rewrite with_warnings_nil.
  - rewrite IH. unfold with_warnings, add_warning. simpl.
    now rewrite <- app_assoc.
Qed.

Lemma detect_unreachable_unfold (self : validator)
    (root states : list (string * json)) (s : string) :
  definition self = JObj root →
  dict_lookup "States" root = Some (JObj states) →
  states ≠ [] →
  dict_lookup "StartAt" root = Some (JStr s) →
  s ≠ "" →
  _detect_unreachable_states self
  = (reachable ← bfs (bfs_fuel states) states ∅ [JStr s];
     Ok (with_warnings
           (map unreachable_msg
                (set_iter (list_to_set (dict_keys states) ∖ reachable)))
           self)).
Proof. no_env.
  intros Hdef Hstates Hne Hstart Hs.
  unfold _detect_unreachable_states. rewrite Hdef.
  cbn [py_get mbind result_bind].
  unfold dict_get. rewrite Hstates, Hstart.
  assert (Htruthy : negb (truthy (JObj states)) || negb (truthy (JStr s))
                    = false).
  { destruct states; [congruence|]. simpl.
    now destruct (String.eqb_spec s "") as [->|_]. }
  cbn [mbind result_bind]. rewrite Htruthy.
  destruct (bfs (bfs_fuel states) states ∅ [JStr s]);
    cbn [mbind result_bind]; try reflexivity.
  now rewrite fold_add_warning.
Qed.

Lemma string_app_inv_tail (a b s : string) : a +:+ s = b +:+ s → a = b.
Proof. no_env.
  intros H. apply (f_equal list_ascii_of_string) in H.
  assert (Happ : ∀ x y, list_ascii_of_string (x +:+ y)
                        = list_ascii_of_string x ++ list_ascii_of_string y).
  { induction x as [|c x IH]; intros y; simpl; [reflexivity|].
    now rewrite IH. }
  rewrite !Happ in H. apply app_inv_tail in H.
  apply (f_equal string_of_list_ascii) in H.
  now rewrite !string_of_list_ascii_of_string in H.
Qed.

Lemma unreachable_msg_inj (a b : string) :
  unreachable_msg a = unreachable_msg b → a = b.
Proof. no_env.
  unfold unreachable_msg. intros H.
  apply (String.app_inj "State '") in H.
  now apply string_app_inv_tail in H.
Qed.

Lemma detect_unreachable_unknown_start (self : validator)
    (root states : list (string * json)) (s : string) :
  definition self = JObj root →
  dict_lookup "States" root = Some (JObj states) →
  states ≠ [] →
  dict_lookup "StartAt" root = Some (JStr s) →
  s ≠ "" →
  dict_has s states = false →
  bfs (bfs_fuel states) states ∅ [JStr s] = Ok ∅
  ∧ _detect_unreachable_states self
    = Ok (with_warnings
            (map unreachable_msg
                 (set_iter (list_to_set (dict_keys states) ∖ ∅)))
            self).
Proof. no_env.
  intros Hdef Hstates Hne Hstart Hs Hhas.
  assert (Hbfs : bfs (bfs_fuel states) states ∅ [JStr s] = Ok ∅).
  { unfold bfs_fuel. simpl.
    rewrite bool_decide_eq_false_2 by set_solver.
    unfold dict_has in Hhas.
    destruct (dict_lookup s states); [discriminate|reflexivity]. }
  split; [exact Hbfs|].
  rewrite (detect_unreachable_unfold _ _ _ _ Hdef Hstates Hne Hstart Hs).
  now rewrite Hbfs.
Qed.

(** C9 (amended). When [States] is a non-empty mapping and [StartAt] is a
    non-empty string that names no key of it, the traversal visits no state
    and the stage appends one unreachable warning for each key of
    [States], and nothing else. *)
Theorem unknown_start_all_unreachable (self : validator)
    (root states : list (string * json)) (s : string) :
  definition self = JObj root →
  dict_lookup "States" root = Some (JObj states) →
  states ≠ [] →
  dict_lookup "StartAt" root = Some (JStr s) →
  s ≠ "" →
  dict_has s states = false →
  bfs (bfs_fuel states) states ∅ [JStr s] = Ok ∅
  ∧ ∃ order,
      _detect_unreachable_states self
      = Ok (with_warnings (map unreachable_msg order) self)
      ∧ NoDup order
      ∧ (∀ name, name ∈ order ↔ name ∈ dict_keys states).
Proof. keep_perm.
  intros Hdef Hstates Hne Hstart Hs Hhas.
  destruct (detect_unreachable_unknown_start self root states s)
    as [Hbfs Hrun]; auto.
  split; [exact Hbfs|].
  exists (set_iter (list_to_set (dict_keys states) ∖ ∅)).
  split; [exact Hrun|]. split.
  - apply set_iter_NoDup.
  - intros name. rewrite elem_of_set_iter. set_solver.
Qed.

(** *** The terminal-state stage *)

Lemma terminal_types_has (t : string) :
  bool_decide (t ∈ TERMINAL_STATE_TYPES)
  = String.eqb t "Succeed" || String.eqb t "Fail".
Proof. no_env.
  unfold TERMINAL_STATE_TYPES.
  destruct (String.eqb_spec t "Succeed") as [->|H1]; simpl.
  { apply bool_decide_eq_true_2. set_solver. }
  destruct (String.eqb_spec t "Fail") as [->|H2]; simpl.
  { apply bool_decide_eq_true_2. set_solver. }
  apply bool_decide_eq_false_2. set_solver.
Qed.

Lemma terminal_scan (items : list (string * json)) :
  all_states typed_tags items →
  ∀ acc,
    rfold (fun (terminal_states : list string) '(state_name, state_def) =>
             match state_def with
             | JObj state_def =>
                 let state_type := dict_get "Type" (JStr "") state_def in
                 is_terminal_type ← set_has state_type TERMINAL_STATE_TYPES;
                 Ok (if is_terminal_type
                        || truthy (dict_get "End" (JBool false) state_def)
                     then terminal_states ++ [state_name]
                     else terminal_states)
             | _ => Ok terminal_states
             end) acc items
    = Ok (acc ++ map fst (List.filter (λ item, is_terminal (snd item)) items)).
Proof. no_env.
  induction items as [|[name sd] items IH]; intros Htyped acc.
  - simpl. now rewrite app_nil_r.
  - assert (Hrest : all_states typed_tags items).
    { intros n d Hin. apply (Htyped n d). now right. }
    rewrite rfold_cons.
    destruct sd as [| | | | | |d]; simpl; try (now apply IH).
    assert (Hd : typed_tags d = true) by (apply (Htyped name d); left).
    unfold typed_tags in Hd. apply andb_true_iff in Hd as [Htype Hend].
    unfold dict_get.
    assert (Hsame :
      ∃ b, set_has match dict_lookup "Type" d with
                   | Some v => v | None => JStr "" end TERMINAL_STATE_TYPES
           = Ok b
           ∧ b || truthy match dict_lookup "End" d with
                         | Some v => v | None => JBool false end
             = eq_str match dict_lookup "Type" d with
                      | Some v => v | None => JNull end "Succeed"
               || eq_str match dict_lookup "Type" d with
                         | Some v => v | None => JNull end "Fail"
               || match dict_lookup "End" d with
                  | Some (JBool true) => true | _ => false end).
    { assert (Hend' : truthy match dict_lookup "End" d with
                             | Some v => v | None => JBool false end
                      = match dict_lookup "End" d with
                        | Some (JBool true) => true | _ => false end).
      { destruct (dict_lookup "End" d) as [[| [] | | | | |]|];
          try discriminate; reflexivity. }
      rewrite Hend'.
      destruct (dict_lookup "Type" d) as [[| | | |t| |]|];
        try discriminate; unfold set_has; cbn [hashable];
        (eexists; split; [reflexivity|]);
        rewrite ?terminal_types_has; reflexivity. }
    destruct Hsame as (b & -> & Hb). simpl. rewrite Hb.
    match goal with
    | |- context [if ?c then acc ++ [name] else acc] => destruct c
    end; simpl.
    + rewrite IH by exact Hrest. now rewrite <- app_assoc.
    + now apply IH.
Qed.

Lemma terminal_states_found (items : list (string * json)) :
  ∀ acc found,
    rfold (fun (terminal_states : list string) '(state_name, state_def) =>
             match state_def with
             | JObj state_def =>
                 let state_type := dict_get "Type" (JStr "") state_def in
                 is_terminal_type ← set_has state_type TERMINAL_STATE_TYPES;
                 Ok (if is_terminal_type
                        || truthy (dict_get "End" (JBool false) state_def)
                     then terminal_states ++ [state_name]
                     else terminal_states)
             | _ => Ok terminal_states
             end) acc items = Ok found →
    found ≠ [] →
    acc ≠ [] ∨ Exists (λ item, ends_workflow (snd item) = true) items.
Proof. no_env.
  induction items as [|[name sd] items IH]; intros acc found Hrun Hne.
  - simpl in Hrun. injection Hrun as <-. now left.
  - rewrite rfold_cons in Hrun. apply bind_Ok in Hrun as (acc1 & Hx & Hrun).
    destruct (IH _ _ Hrun Hne) as [Hacc1|Hex]; [|right; now right].
    destruct sd as [| | | | | |d]; try (injection Hx as <-; now left).
    cbv zeta in Hx. apply bind_Ok in Hx as (is_terminal_type & Hset & Hx).
    injection Hx as <-.
    destruct (is_terminal_type
              || truthy (dict_get "End" (JBool false) d)) eqn:Hc;
      [|now left].
    right. left. simpl. unfold set_has in Hset.
    destruct (hashable _); [|discriminate]. injection Hset as <-.
    destruct (dict_get "Type" (JStr "") d) as [| | | |ty| |];
      simpl in Hc |- *; try exact Hc.
    destruct (bool_decide (ty ∈ TERMINAL_STATE_TYPES)) eqn:Hty;
      simpl in Hc; [|now rewrite Hc, orb_true_r].
    apply bool_decide_eq_true in Hty. unfold TERMINAL_STATE_TYPES in Hty.
    rewrite elem_of_list_to_set, !elem_of_cons in Hty.
    destruct Hty as [->|[->|Hty]]; [reflexivity|reflexivity|].
    now apply not_elem_of_nil in Hty.
Qed.

Lemma terminal_states_kept (items : list (string * json)) :
  ∀ acc found,
    rfold (fun (terminal_states : list string) '(state_name, state_def) =>
             match state_def with
             | JObj state_def =>
                 let state_type := dict_get "Type" (JStr "") state_def in
                 is_terminal_type ← set_has state_type TERMINAL_STATE_TYPES;
                 Ok (if is_terminal_type
                        || truthy (dict_get "End" (JBool false) state_def)
                     then terminal_states ++ [state_name]
                     else terminal_states)
             | _ => Ok terminal_states
             end) acc items = Ok found →
    acc ≠ [] ∨ Exists (λ item, ends_workflow (snd item) = true) items →
    found ≠ [].
Proof. no_env.
  induction items as [|[name sd] items IH]; intros acc found Hrun Hex.
  - simpl in Hrun. injection Hrun as <-. destruct Hex as [H|H]; [exact H|].
    now apply Exists_nil in H.
  - rewrite rfold_cons in Hrun. apply bind_Ok in Hrun as (acc1 & Hx & Hrun).
    apply (IH _ _ Hrun).
    destruct Hex as [Hacc|Hex].
    + left. destruct sd as [| | | | | |d]; try (now injection Hx as <-).
      cbv zeta in Hx. apply bind_Ok in Hx as (b & _ & Hx).
      injection Hx as <-. destruct (_ || _); [|exact Hacc].
      apply app_singleton_neq_nil.
    + apply Exists_cons in Hex as [Hhere|Hex]; [|now right].
      left. simpl in Hhere. destruct sd as [| | | | | |d]; try discriminate.
      cbv zeta in Hx. apply bind_Ok in Hx as (b & Hset & Hx).
      injection Hx as <-. unfold set_has in Hset.
      unfold ends_workflow in Hhere. revert Hset Hhere.
      destruct (dict_get "Type" (JStr "") d) as [| | | |ty| |];
        simpl; try discriminate; intros Hset Hhere; injection Hset as <-;
        simpl; try (rewrite Hhere; apply app_singleton_neq_nil).
      destruct (String.eqb_spec ty "Succeed") as [->|_];
        [apply app_singleton_neq_nil|].
      destruct (String.eqb_spec ty "Fail") as [->|_];
        [apply app_singleton_neq_nil|].
      simpl in Hhere. rewrite Hhere, orb_true_r.
      apply app_singleton_neq_nil.
Qed.

Lemma terminal_states_unfold (self : validator)
    (root states : list (string * json)) :
  definition self = JObj root →
  dict_lookup "States" root = Some (JObj states) →
  _validate_terminal_states self
  = (terminal_states ←
       rfold (fun (terminal_states : list string) '(state_name, state_def) =>
                match state_def with
                | JObj state_def =>
                    let state_type := dict_get "Type" (JStr "") state_def in
                    is_terminal_type ← set_has state_type TERMINAL_STATE_TYPES;
                    Ok (if is_terminal_type
                           || truthy (dict_get "End" (JBool false) state_def)
                        then terminal_states ++ [state_name]
                        else terminal_states)
                | _ => Ok terminal_states
                end) [] states;
     Ok (match terminal_states with
         | [] => add_error no_terminal_msg self
         | _ => self
         end)).
Proof. no_env.
  intros Hdef Hstates. unfold _validate_terminal_states. rewrite Hdef.
  change (py_get (JObj root) "States" (JObj []))
    with (Ok (dict_get "States" (JObj []) root)).
  cbn [mbind result_bind].
  replace (dict_get "States" (JObj []) root) with (JObj states)
    by (unfold dict_get; now rewrite Hstates).
  reflexivity.
Qed.

Lemma terminal_scan_returns (items : list (string * json)) :
  all_states scalar_type items →
  ∀ acc,
    ∃ found,
      rfold (fun (terminal_states : list string) '(state_name, state_def) =>
               match state_def with
               | JObj state_def =>
                   let state_type := dict_get "Type" (JStr "") state_def in
                   is_terminal_type ← set_has state_type TERMINAL_STATE_TYPES;
                   Ok (if is_terminal_type
                          || truthy (dict_get "End" (JBool false) state_def)
                       then terminal_states ++ [state_name]
                       else terminal_states)
               | _ => Ok terminal_states
               end) acc items = Ok found.
Proof. no_env.
  induction items as [|[name sd] items IH]; intros Htyped acc.
  - exists acc. reflexivity.
  - assert (Hrest : all_states scalar_type items).
    { intros n d Hin. apply (Htyped n d). now right. }
    rewrite rfold_cons.
    destruct sd as [| | | | | |d]; cbn [mbind result_bind];
      try (now apply IH).
    assert (Hd : scalar_type d = true) by (apply (Htyped name d); left).
    cbv zeta. unfold set_has.
    assert (Hhash : hashable (dict_get "Type" (JStr "") d) = true).
    { unfold scalar_type in Hd. unfold dict_get.
      destruct (dict_lookup "Type" d); [exact Hd|reflexivity]. }
    rewrite Hhash. cbn [mbind result_bind]. now apply IH.
Qed.

Lemma ends_workflow_typed (fields : list (string * json)) :
  typed_tags fields = true →
  ends_workflow (JObj fields) = is_terminal (JObj fields).
Proof. no_env.
  unfold typed_tags, ends_workflow, is_terminal, dict_get. intros Htyped.
  apply andb_true_iff in Htyped as [_ Hend].
  assert (Htruthy : truthy match dict_lookup "End" fields with
                           | Some v => v | None => JBool false end
                    = match dict_lookup "End" fields with
                      | Some (JBool true) => true | _ => false end).
  { destruct (dict_lookup "End" fields) as [[| [] | | | | |]|];
      try discriminate; reflexivity. }
  rewrite Htruthy.
  now destruct (dict_lookup "Type" fields) as [[| | | |t| |]|].
Qed.

(** C4 (amended). The stage looks at every state of [States] that is an
    object, wherever the traversal from [StartAt] gets: whenever it
    returns, and it does when the [Type] of each state is a scalar, it has
    appended the one "no terminal state" error, and nothing else, exactly
    when no state is of type [Succeed] or [Fail] or has a truthy [End]; a
    state that ends the workflow keeps the error away whether it is
    reachable or not. [End] is tested by truthiness: on a boolean this is
    [End] equal to [true], on another value it is not. *)
Theorem terminal_check_scans_all_states (self : validator)
    (root states : list (string * json)) :
  definition self = JObj root →
  dict_lookup "States" root = Some (JObj states) →
  (all_states scalar_type states →
   ∃ self', _validate_terminal_states self = Ok self')
  ∧ (∀ self',
       _validate_terminal_states self = Ok self' →
       (self' = add_error no_terminal_msg self ∨ self' = self)
       ∧ (self' = add_error no_terminal_msg self
          ↔ ∀ name state_def,
              (name, state_def) ∈ states → ends_workflow state_def = false)
       ∧ (∀ start_at name state_def,
            (name, state_def) ∈ states →
            ends_workflow state_def = true →
            ¬ reach states start_at name →
            self' = self))
  ∧ (∀ fields,
       typed_tags fields = true →
       ends_workflow (JObj fields) = is_terminal (JObj fields)).
Proof. no_env.
  intros Hdef Hstates.
  rewrite (terminal_states_unfold _ _ _ Hdef Hstates).
  split; [|split].
  - intros Htyped.
    destruct (terminal_scan_returns states Htyped []) as (found & ->).
    eexists. reflexivity.
  - intros self' Hrun.
    apply bind_Ok in Hrun as (found & Hloop & Hrun).
    assert (Hnone : found = [] →
              ∀ name state_def,
                (name, state_def) ∈ states → ends_workflow state_def = false).
    { intros -> name sd Hin.
      destruct (ends_workflow sd) eqn:Hsd; [|reflexivity].
      exfalso. apply (terminal_states_kept _ _ _ Hloop); [|reflexivity].
      right. apply Exists_exists. exists (name, sd). auto. }
    assert (Hsome : found ≠ [] →
              ∃ name state_def,
                (name, state_def) ∈ states ∧ ends_workflow state_def = true).
    { intros Hne.
      destruct (terminal_states_found _ _ _ Hloop Hne) as [H|H];
        [congruence|].
      apply Exists_exists in H as ([name sd] & Hin & Hsd). eauto. }
    destruct found as [|first found]; injection Hrun as <-.
    + split; [now left|]. split; [split; [intros _|reflexivity]|].
      * now apply Hnone.
      * intros _ name sd Hin Hsd _.
        rewrite (Hnone eq_refl _ _ Hin) in Hsd. discriminate.
    + split; [now right|]. split; [|reflexivity].
      split.
      * intros Heq. apply (f_equal errors) in Heq. simpl in Heq.
        symmetry in Heq. now apply app_singleton_neq_self in Heq.
      * intros Hall.
        destruct Hsome as (name & sd & Hin & Hsd); [discriminate|].
        rewrite (Hall _ _ Hin) in Hsd. discriminate.
  - apply ends_workflow_typed.
Qed.

(** *** The reference stage *)

Lemma with_errors_nil (self : validator) : with_errors [] self = self.
Proof. no_env. destruct self. unfold with_errors. simpl. now rewrite app_nil_r. Qed.

Lemma with_errors_app (a b : list string) (self : validator) :
  with_errors b (with_errors a self) = with_errors (a ++ b) self.
Proof. no_env. unfold with_errors. simpl. now rewrite app_assoc. Qed.

Lemma add_error_with_errors (msg : string) (self : validator) :
  add_error msg self = with_errors [msg] self.
Proof. no_env. reflexivity. Qed.

Lemma valid_states_has (states : list (string * json)) (t : string) :
  bool_decide (t ∈ (list_to_set (dict_keys states) : gset string))
  = dict_has t states.
Proof. no_env.
  destruct (dict_has t states) eqn:Hhas.
  - apply bool_decide_eq_true_2, elem_of_list_to_set.
    now apply dict_has_keys.
  - apply bool_decide_eq_false_2. rewrite elem_of_list_to_set.
    rewrite <- dict_has_keys. congruence.
Qed.

Lemma check_reference_typed (states : list (string * json))
    (name : string) (f : edge_field) (field : string)
    (d : list (string * json)) (self : validator) :
  typed_target (dict_lookup field d) = true →
  check_reference (list_to_set (dict_keys states)) name f field self (JObj d)
  = Ok (with_errors
          (map (reference_error name)
               (List.filter (dangling states)
                            (field_edge f (dict_lookup field d))))
          self).
Proof. no_env.
  unfold check_reference. simpl. unfold dict_has.
  destruct (dict_lookup field d) as [[| | | |t| |]|]; try discriminate;
    intros _; simpl.
  - unfold dangling. simpl. rewrite valid_states_has.
    destruct (dict_has t states); simpl; [now rewrite with_errors_nil|].
    reflexivity.
  - now rewrite with_errors_nil.
Qed.

Lemma check_rules_typed (states : list (string * json))
    (f : nat → edge_field) (name : string) (rules : list json) :
  forallb typed_rule rules = true →
  ∀ n self,
    rfold (fun self '(i, rule) =>
             check_reference (list_to_set (dict_keys states)) name (f i)
                             "Next" self rule)
          self (combine (seq n (length rules)) rules)
    = Ok (with_errors
            (map (reference_error name)
                 (List.filter (dangling states)
                    (flat_map (fun '(i, rule) =>
                                 field_edge (f i) (rule_next rule))
                              (combine (seq n (length rules)) rules))))
            self).
Proof. no_env.
  intros Htyped.
  induction rules as [|rule rules IH]; intros n self.
  - simpl. now rewrite with_errors_nil.
  - simpl in Htyped. apply andb_true_iff in Htyped as [Hrule Hrules].
    cbn [length seq combine flat_map]. rewrite rfold_cons.
    destruct rule as [| | | | | |d]; try discriminate.
    rewrite check_reference_typed by exact Hrule.
    cbn [mbind result_bind]. rewrite IH by exact Hrules.
    rewrite with_errors_app, List.filter_app, map_app. reflexivity.
Qed.

Lemma validate_references_of_typed (states : list (string * json))
    (name : string) (state_def : json) (self : validator) :
  (∀ d, state_def = JObj d → typed_edges d = true) →
  validate_references_of (list_to_set (dict_keys states)) self
                         (name, state_def)
  = Ok (with_errors (reference_errors states (name, state_def)) self).
Proof. no_env.
  intros Htyped. unfold reference_errors. simpl.
  destruct state_def as [| | | | | |d];
    try (simpl; now rewrite with_errors_nil).
  specialize (Htyped d eq_refl). unfold typed_edges in Htyped.
  apply andb_true_iff in Htyped as [Htyped Hcatch].
  apply andb_true_iff in Htyped as [Hnext Hchoice].
  apply typed_rules_iter in Hcatch as [Hcatch_iter Hcatch].
  unfold validate_references_of, edges_of, rule_edges, enumerate.
  rewrite !List.filter_app, !map_app.
  rewrite check_reference_typed by exact Hnext.
  cbn [mbind result_bind].
  destruct (eq_str (dict_get "Type" JNull d) "Choice").
  - apply andb_true_iff in Hchoice as [Hchoices Hdefault].
    apply typed_rules_iter in Hchoices as [Hchoices_iter Hchoices].
    rewrite Hchoices_iter. cbn [mbind result_bind].
    rewrite check_rules_typed by exact Hchoices.
    cbn [mbind result_bind].
    rewrite check_reference_typed by exact Hdefault.
    cbn [mbind result_bind].
    rewrite Hcatch_iter. cbn [mbind result_bind].
    rewrite check_rules_typed by exact Hcatch.
    rewrite !with_errors_app, !List.filter_app, !map_app, <- !app_assoc.
    reflexivity.
  - cbn [mbind result_bind].
    rewrite Hcatch_iter. cbn [mbind result_bind].
    rewrite check_rules_typed by exact Hcatch.
    rewrite !with_errors_app. reflexivity.
Qed.

Lemma validate_references_typed (states items : list (string * json)) :
  all_states typed_edges items →
  ∀ self,
    rfold (validate_references_of (list_to_set (dict_keys states))) self items
    = Ok (with_errors (flat_map (reference_errors states) items) self).
Proof. no_env.
  induction items as [|[name sd] items IH]; intros Htyped self.
  - simpl. now rewrite with_errors_nil.
  - rewrite rfold_cons, validate_references_of_typed.
    + cbn [mbind result_bind]. rewrite IH.
      * now rewrite with_errors_app.
      * intros n d Hin. apply (Htyped n d). now right.
    + intros d ->. apply (Htyped name d). left.
Qed.

Lemma dict_lookup_without_branches (k : string)
    (fields : list (string * json)) :
  k ≠ "Branches" →
  dict_lookup k (List.filter (fun kv => negb (String.eqb (fst kv) "Branches"))
                             fields)
  = dict_lookup k fields.
Proof. no_env.
  intros Hk. induction fields as [|[k' v] fields IH]; simpl; [reflexivity|].
  destruct (String.eqb_spec k' "Branches") as [->|Hne]; simpl.
  - destruct (String.eqb_spec k "Branches"); [congruence|exact IH].
  - now rewrite IH.
Qed.

Lemma check_reference_returns (states : list (string * json))
    (name : string) (f : edge_field) (field : string)
    (self self' : validator) (x : json) :
  check_reference (list_to_set (dict_keys states)) name f field self x
  = Ok self' →
  self' = with_errors
            (map (reference_error name)
                 (List.filter (dangling states)
                    (field_edge f match x with
                                  | JObj d => dict_lookup field d
                                  | _ => None
                                  end)))
            self.
Proof. no_env.
  unfold check_reference. intros Hrun.
  apply bind_Ok in Hrun as (has_field & Hin & Hrun).
  destruct has_field.
  - apply bind_Ok in Hrun as (target & Hget & Hrun).
    destruct x as [| | | | | |d]; try discriminate.
    simpl in Hget. destruct (dict_lookup field d) as [v|]; [|discriminate].
    injection Hget as ->.
    apply bind_Ok in Hrun as (known & Hknown & Hrun). injection Hrun as <-.
    unfold set_has in Hknown.
    destruct (hashable target); [|discriminate]. injection Hknown as <-.
    unfold dangling. simpl.
    destruct target as [| | | |t| |]; try reflexivity.
    rewrite valid_states_has.
    destruct (dict_has t states); simpl; [now rewrite with_errors_nil|].
    reflexivity.
  - injection Hrun as <-.
    destruct x as [| | | | | |d]; try (now rewrite with_errors_nil).
    simpl in Hin. injection Hin as Hin. unfold dict_has in Hin.
    destruct (dict_lookup field d); [discriminate|].
    now rewrite with_errors_nil.
Qed.

Lemma check_rules_returns (states : list (string * json))
    (f : nat → edge_field) (name : string) (rules : list json) :
  ∀ n self self',
    rfold (fun self '(i, rule) =>
             check_reference (list_to_set (dict_keys states)) name (f i)
                             "Next" self rule)
          self (combine (seq n (length rules)) rules) = Ok self' →
    self' = with_errors
              (map (reference_error name)
                   (List.filter (dangling states)
                      (flat_map (fun '(i, rule) =>
                                   field_edge (f i) (rule_next rule))
                                (combine (seq n (length rules)) rules))))
              self.
Proof. no_env.
  induction rules as [|rule rules IH]; intros n self self' Hrun.
  - simpl in Hrun. injection Hrun as <-. simpl. now rewrite with_errors_nil.
  - cbn [length seq combine flat_map] in Hrun |- *.
    rewrite rfold_cons in Hrun.
    apply bind_Ok in Hrun as (self1 & Hrule & Hrun).
    apply check_reference_returns in Hrule. apply IH in Hrun.
    rewrite Hrun, Hrule, with_errors_app, List.filter_app, map_app.
    reflexivity.
Qed.

Lemma no_rule_edges (f : nat → edge_field) (l : list json) :
  Forall (λ x, rule_next x = None) l →
  ∀ n, flat_map (fun '(i, rule) => field_edge (f i) (rule_next rule))
                (combine (seq n (length l)) l) = [].
Proof. no_env.
  induction 1 as [|x l Hx _ IH]; intros n; [reflexivity|].
  cbn [length seq combine flat_map]. now rewrite Hx, IH.
Qed.

Lemma iter_rule_edges (f : nat → edge_field) (field : string)
    (fields : list (string * json)) (l : list json) :
  py_iter (dict_get field (JArr []) fields) = Ok l →
  flat_map (fun '(i, rule) => field_edge (f i) (rule_next rule))
           (enumerate l)
  = rule_edges f (rules_of field fields).
Proof. no_env.
  unfold dict_get, rules_of, rule_edges.
  destruct (dict_lookup field fields) as [[| | | |s|rules|d]|]; simpl;
    try discriminate; intros H; injection H as <-; try reflexivity.
  - unfold enumerate. apply no_rule_edges.
    induction s as [|c s IH]; simpl; constructor; auto.
  - unfold enumerate. apply no_rule_edges.
    unfold dict_keys. induction d as [|[k v] d IH]; simpl; constructor; auto.
Qed.

Lemma validate_references_of_returns (states : list (string * json))
    (self self' : validator) (item : string * json) :
  validate_references_of (list_to_set (dict_keys states)) self item
  = Ok self' →
  self' = with_errors (reference_errors states item) self.
Proof. no_env.
  destruct item as [name sd]. unfold reference_errors. simpl.
  destruct sd as [| | | | | |d];
    try (intros H; injection H as <-; now rewrite with_errors_nil).
  intros Hrun.
  apply bind_Ok in Hrun as (self1 & Hnext & Hrun).
  apply bind_Ok in Hrun as (self2 & Hchoice & Hrun).
  apply bind_Ok in Hrun as (catches & Hiter & Hcatch).
  apply check_reference_returns in Hnext.
  apply (check_rules_returns states FCatch) in Hcatch.
  change (combine (seq 0 (length catches)) catches)
    with (enumerate catches) in Hcatch.
  rewrite (iter_rule_edges FCatch "Catch" d catches Hiter) in Hcatch.
  unfold edges_of. rewrite !List.filter_app, !map_app.
  destruct (eq_str (dict_get "Type" JNull d) "Choice").
  - apply bind_Ok in Hchoice as (choices & Hiterc & Hchoice).
    apply bind_Ok in Hchoice as (self3 & Hloop & Hdefault).
    apply (check_rules_returns states FChoice) in Hloop.
    change (combine (seq 0 (length choices)) choices)
      with (enumerate choices) in Hloop.
    rewrite (iter_rule_edges FChoice "Choices" d choices Hiterc) in Hloop.
    apply check_reference_returns in Hdefault.
    rewrite Hcatch, Hdefault, Hloop, Hnext.
    rewrite !with_errors_app, !List.filter_app, !map_app, <- !app_assoc.
    reflexivity.
  - injection Hchoice as <-. rewrite Hcatch, Hnext.
    rewrite !with_errors_app. reflexivity.
Qed.

Lemma validate_references_returns (states items : list (string * json)) :
  ∀ self self',
    rfold (validate_references_of (list_to_set (dict_keys states))) self items
    = Ok self' →
    self' = with_errors (flat_map (reference_errors states) items) self.
Proof. no_env.
  induction items as [|item items IH]; intros self self' Hrun.
  - simpl in Hrun. injection Hrun as <-. simpl. now rewrite with_errors_nil.
  - rewrite rfold_cons in Hrun.
    apply bind_Ok in Hrun as (self1 & Hitem & Hrun).
    apply validate_references_of_returns in Hitem. apply IH in Hrun.
    rewrite Hrun, Hitem, with_errors_app. reflexivity.
Qed.

Lemma ok_or_raise {A} (r : result A) :
  r ≠ OutOfFuel → (∃ a, r = Ok a) ∨ r = Raise.
Proof. no_env. destruct r; intros H; eauto. congruence. Qed.

Lemma rfold_raises {A B} (body : A → B → result A) (l : list B) (x : B) :
  x ∈ l →
  (∀ acc, body acc x = Raise) →
  (∀ acc y, body acc y ≠ OutOfFuel) →
  ∀ acc, rfold body acc l = Raise.
Proof. no_env.
  intros Hin Hx Hfuel. induction l as [|y l IH]; intros acc.
  - now apply not_elem_of_nil in Hin.
  - rewrite rfold_cons.
    apply elem_of_cons in Hin as [<-|Hin]; [now rewrite Hx|].
    destruct (ok_or_raise _ (Hfuel acc y)) as [[acc' ->]| ->];
      [|reflexivity].
    cbn [mbind result_bind]. now apply IH.
Qed.

Lemma check_reference_fuel (vs : gset string) (name : string)
    (f : edge_field) (field : string) (self : validator) (x : json) :
  check_reference vs name f field self x ≠ OutOfFuel.
Proof. no_env. unfold check_reference. repeat fuel_step. Qed.

Lemma validate_references_of_fuel (vs : gset string) (self : validator)
    (item : string * json) :
  validate_references_of vs self item ≠ OutOfFuel.
Proof. no_env.
  destruct item as [name sd]. unfold validate_references_of.
  destruct sd; try discriminate.
  repeat first [ apply check_reference_fuel | fuel_step ].
  all: destruct x as [i rule]; apply check_reference_fuel.
Qed.

Lemma elem_of_enumerate_index {A} (l : list A) (x : A) :
  x ∈ l → ∃ i, (i, x) ∈ enumerate l.
Proof. no_env.
  unfold enumerate. generalize 0 as n.
  induction l as [|y l IH]; intros n Hin.
  - now apply not_elem_of_nil in Hin.
  - cbn [length seq combine].
    apply elem_of_cons in Hin as [->|Hin].
    + exists n. left.
    + destruct (IH (S n) Hin) as (i & Hi). exists i. now right.
Qed.

Lemma reference_loop_raises (vs : gset string) (name : string)
    (f : nat → edge_field) (l : list json) (x : json) :
  x ∈ l →
  py_in (JStr "Next") x = Raise →
  ∀ self,
    rfold (fun self '(i, rule) =>
             check_reference vs name (f i) "Next" self rule)
          self (enumerate l) = Raise.
Proof. no_env.
  intros Hin Hraise.
  destruct (elem_of_enumerate_index l x Hin) as (i & Hi).
  apply (rfold_raises _ _ (i, x)); [exact Hi| |].
  - intros acc. unfold check_reference. now rewrite Hraise.
  - intros acc [j y]. apply check_reference_fuel.
Qed.

Lemma validate_references_of_raises (vs : gset string) (self : validator)
    (name field : string) (fields : list (string * json))
    (rules : list json) (rule : json) :
  field = "Catch"
  ∨ field = "Choices" ∧ eq_str (dict_get "Type" JNull fields) "Choice" = true →
  dict_lookup field fields = Some (JArr rules) →
  rule ∈ rules →
  py_in (JStr "Next") rule = Raise →
  validate_references_of vs self (name, JObj fields) = Raise.
Proof. no_env.
  intros Hfield Hrules Hin Hraise. unfold validate_references_of.
  destruct (ok_or_raise _ (check_reference_fuel vs name FNext "Next" self
                             (JObj fields))) as [[self1 ->]| ->];
    [|reflexivity].
  cbn [mbind result_bind].
  destruct Hfield as [->|[-> Hty]].
  - match goal with
    | |- ?r ≫= _ = Raise =>
        assert (Hfuel : r ≠ OutOfFuel);
        [|destruct (ok_or_raise _ Hfuel) as [[self2 ->]| ->];
          [|reflexivity]]
    end.
    { repeat first [ apply check_reference_fuel | fuel_step ]. }
    cbn [mbind result_bind]. unfold dict_get. rewrite Hrules.
    cbn [py_iter mbind result_bind].
    now apply reference_loop_raises with (x := rule).
  - rewrite Hty.
    replace (dict_get "Choices" (JArr []) fields) with (JArr rules)
      by (unfold dict_get; now rewrite Hrules).
    cbn [py_iter mbind result_bind].
    now rewrite (reference_loop_raises vs name FChoice rules rule Hin Hraise).
Qed.

(** C5. Whenever the stage returns, it has appended, state by state, one
    error for each edge ([Next], [Choices[i].Next] and [Default] of a
    Choice state, [Catch[i].Next]) whose target is no key of [States],
    naming the state, the field and the target, and nothing else; it
    returns when the transition fields are typed as in the data model.
    But a rule of [Catch], or of the [Choices] of a Choice state, that is
    a number, a boolean or null makes the stage raise, in whatever state
    it stands: no dangling edge of the definition is reported then. What a
    state has under [Branches] is never looked at: without the field the
    state is checked the same way, whatever the field held. *)
Theorem reference_errors_per_edge (self : validator)
    (root states : list (string * json)) :
  definition self = JObj root →
  dict_lookup "States" root = Some (JObj states) →
  (∀ self',
     _validate_state_references self = Ok self' →
     self' = with_errors (flat_map (reference_errors states) states) self)
  ∧ (all_states typed_edges states →
     _validate_state_references self
     = Ok (with_errors (flat_map (reference_errors states) states) self))
  ∧ (∀ name fields field rules rule,
       (name, JObj fields) ∈ states →
       field = "Catch"
       ∨ field = "Choices"
         ∧ eq_str (dict_get "Type" JNull fields) "Choice" = true →
       dict_lookup field fields = Some (JArr rules) →
       rule ∈ rules →
       py_in (JStr "Next") rule = Raise →
       _validate_state_references self = Raise)
  ∧ (∀ valid_states v name state_def,
       validate_references_of valid_states v (name, without_branches state_def)
       = validate_references_of valid_states v (name, state_def))
  ∧ (∀ name state_def,
       reference_errors states (name, without_branches state_def)
       = reference_errors states (name, state_def)).
Proof. no_env.
  intros Hdef Hstates.
  assert (Hbody : ∀ valid_states v name state_def,
       validate_references_of valid_states v (name, without_branches state_def)
       = validate_references_of valid_states v (name, state_def)).
  { intros vs v name [| | | | | |d]; try reflexivity.
    assert (Hcheck : ∀ f field v,
              field ≠ "Branches" →
              check_reference vs name f field v (without_branches (JObj d))
              = check_reference vs name f field v (JObj d)).
    { intros f field v' Hfield. unfold check_reference, without_branches.
      simpl. unfold dict_has.
      now rewrite !dict_lookup_without_branches by exact Hfield. }
    unfold validate_references_of.
    change (JObj (List.filter
                    (λ kv : string * json, negb (String.eqb kv.1 "Branches"))
                    d))
      with (without_branches (JObj d)).
    rewrite Hcheck by discriminate. unfold dict_get. simpl.
    rewrite !dict_lookup_without_branches by discriminate.
    destruct (check_reference vs name FNext "Next" v (JObj d)); simpl;
      try reflexivity.
    repeat f_equal.
    destruct (eq_str _ "Choice"); [|reflexivity].
    destruct (py_iter _); simpl; try reflexivity.
    destruct (rfold _ _ _); simpl; try reflexivity.
    apply (Hcheck FDefault "Default"). discriminate. }
  assert (Hstage : _validate_state_references self
                   = rfold (validate_references_of
                              (list_to_set (dict_keys states))) self states).
  { unfold _validate_state_references.
    rewrite Hdef. simpl. unfold dict_get. now rewrite Hstates. }
  rewrite Hstage.
  split; [|split; [|split; [|split; [exact Hbody|]]]].
  - intros self'. apply validate_references_returns.
  - intros Htyped. now apply validate_references_typed.
  - intros name fields field rules rule Hin Hfield Hrules Hrule Hraise.
    apply (rfold_raises _ _ (name, JObj fields)); [exact Hin| |].
    + intros acc.
      now apply (validate_references_of_raises _ _ _ field _ rules rule).
    + intros acc item. apply validate_references_of_fuel.
  - intros name [| | | | | |d]; try reflexivity.
    unfold reference_errors, without_branches, edges_of, rules_of, dict_get.
    simpl.
    now rewrite !dict_lookup_without_branches by discriminate.
Qed.

(** *** Which errors a stage can add *)

Lemma wp_bind {A B} (r : result A) (k : A → result B) (Q : B → Prop) :
  wp r (λ a, wp (k a) Q) → wp (r ≫= k) Q.
Proof. no_env. destruct r; simpl; auto. Qed.

Lemma wp_any {A} (r : result A) (Q : A → Prop) : (∀ a, Q a) → wp r Q.
Proof. no_env. destruct r; simpl; auto. Qed.

Lemma wp_elim {A} (r : result A) (Q : A → Prop) (a : A) :
  wp r Q → r = Ok a → Q a.
Proof. no_env. intros H ->. exact H. Qed.

Lemma wp_rfold {A B} (I : A → Prop) (body : A → B → result A) (l : list B)
    (Q : A → Prop) :
  (∀ acc x, I acc → wp (body acc x) I) →
  (∀ acc, I acc → Q acc) →
  ∀ acc, I acc → wp (rfold body acc l) Q.
Proof. no_env.
  intros Hbody HQ. induction l as [|x l IH]; intros acc Hacc; simpl.
  - auto.
  - apply wp_bind. specialize (Hbody acc x Hacc).
    destruct (body acc x); simpl in *; auto.
Qed.

Section Grows.

Variable P : string → Prop.

Lemma grows_refl (self : validator) : grows P self self.
Proof. no_env.
  repeat split. exists []. split; [now rewrite app_nil_r|constructor].
Qed.

Lemma grows_trans (a b c : validator) :
  grows P a b → grows P b c → grows P a c.
Proof. no_env.
  intros (Hd1 & Hf1 & n1 & He1 & Hp1) (Hd2 & Hf2 & n2 & He2 & Hp2).
  repeat split; try congruence.
  exists (n1 ++ n2). split.
  - rewrite He2, He1. now rewrite app_assoc.
  - apply Forall_app. auto.
Qed.

Lemma grows_add_error (msg : string) (a b : validator) :
  P msg → grows P a b → grows P a (add_error msg b).
Proof. no_env.
  intros Hmsg H. eapply grows_trans; [exact H|].
  repeat split. exists [msg]. split; [reflexivity|]. now constructor.
Qed.

Lemma grows_add_warning (msg : string) (a b : validator) :
  grows P a b → grows P a (add_warning msg b).
Proof. no_env.
  intros H. eapply grows_trans; [exact H|].
  repeat split. exists []. split; [simpl; now rewrite app_nil_r|constructor].
Qed.

Lemma grows_add_info (msg : string) (a b : validator) :
  grows P a b → grows P a (add_info msg b).
Proof. no_env.
  intros H. eapply grows_trans; [exact H|].
  repeat split. exists []. split; [simpl; now rewrite app_nil_r|constructor].
Qed.

Lemma grows_with_warnings (msgs : list string) (a b : validator) :
  grows P a b → grows P a (with_warnings msgs b).
Proof. no_env.
  intros H. eapply grows_trans; [exact H|].
  repeat split. exists []. split; [simpl; now rewrite app_nil_r|constructor].
Qed.

End Grows.

(** Peels a goal [wp run (grows P self)] down to the messages added. *)
Ltac wp_step P :=
  match goal with
  | |- wp (Ok _) _ => unfold wp
  | |- wp Raise _ => exact I
  | |- wp (_ ≫= _) _ => apply wp_bind
  | |- wp (_ <$> _) _ => apply wp_any; intro
  | |- wp (if ?b then _ else _) _ => destruct b
  | |- wp (py_in _ _) _ => apply wp_any; intro
  | |- wp (py_getitem _ _) _ => apply wp_any; intro
  | |- wp (py_get _ _ _) _ => apply wp_any; intro
  | |- wp (py_items _) _ => apply wp_any; intro
  | |- wp (py_iter _) _ => apply wp_any; intro
  | |- wp (set_has _ _) _ => apply wp_any; intro
  | |- wp (match ?x with _ => _ end) _ => destruct x
  | |- grows _ _ (if ?b then _ else _) => destruct b
  | |- grows _ _ (match ?x with _ => _ end) => destruct x
  | |- grows _ _ (add_error _ _) => apply grows_add_error; [reflexivity|]
  | |- grows _ _ (add_warning _ _) => apply grows_add_warning
  | |- grows _ _ (add_info _ _) => apply grows_add_info
  | |- grows _ ?a ?a => apply grows_refl
  | H : grows _ ?a ?b |- grows _ ?a ?b => exact H
  end.

Lemma required_fields_grows (self : validator) :
  wp (_validate_required_fields self) (grows other_error self).
Proof. no_env.
  unfold _validate_required_fields. cbv zeta.
  repeat wp_step other_error.
Qed.

Lemma choice_state_grows (name : string) (d : list (string * json))
    (self0 self : validator) :
  grows other_error self0 self →
  wp (_validate_choice_state name d self) (grows other_error self0).
Proof. no_env.
  intros H. unfold _validate_choice_state. cbv zeta.
  repeat wp_step other_error.
  all: try (apply (wp_rfold (grows other_error self0));
            [intros acc [i choice] Hacc|intros acc Hacc|]);
    repeat wp_step other_error.
Qed.

Lemma parallel_state_grows (name : string) (d : list (string * json))
    (self0 self : validator) :
  grows other_error self0 self →
  wp (_validate_parallel_state name d self) (grows other_error self0).
Proof. no_env.
  intros H. unfold _validate_parallel_state.
  repeat wp_step other_error.
Qed.

Lemma validate_state_grows (self0 self : validator) (item : string * json) :
  grows other_error self0 self →
  wp (validate_state self item) (grows other_error self0).
Proof. no_env.
  intros H. destruct item as [name sd]. unfold validate_state.
  destruct sd as [| | | | | |d]; [repeat wp_step other_error..|].
  cbv zeta.
  destruct (negb (truthy (dict_get "Type" JNull d)));
    [repeat wp_step other_error|].
  apply wp_bind, wp_any. intros valid.
  destruct (negb valid); [repeat wp_step other_error|].
  apply wp_bind, wp_any. intros no_transition.
  set (self1 := if negb no_transition then _ else self).
  assert (H1 : grows other_error self0 self1).
  { subst self1. repeat wp_step other_error. }
  clearbody self1.
  unfold _validate_task_state, _validate_wait_state, _validate_map_state.
  cbv zeta.
  repeat match goal with
  | |- wp (if eq_str ?a ?b then _ else _) _ => destruct (eq_str a b)
  end;
  try (now apply choice_state_grows);
  try (now apply parallel_state_grows);
  repeat wp_step other_error.
Qed.

Lemma states_grows (self : validator) :
  wp (_validate_states self) (grows other_error self).
Proof. no_env.
  unfold _validate_states.
  repeat wp_step other_error.
  apply (wp_rfold (grows other_error self)); auto using grows_refl.
  intros acc item Hacc. now apply validate_state_grows.
Qed.

Lemma check_reference_grows (vs : gset string) (name : string)
    (f : edge_field) (field : string) (self0 self : validator) (x : json) :
  grows other_error self0 self →
  wp (check_reference vs name f field self x) (grows other_error self0).
Proof. no_env.
  intros H. unfold check_reference.
  repeat wp_step other_error.
  apply grows_add_error; [|exact H].
  unfold other_error. destruct f; reflexivity.
Qed.

Lemma state_references_grows (self : validator) :
  wp (_validate_state_references self) (grows other_error self).
Proof. no_env.
  unfold _validate_state_references. cbv zeta.
  repeat wp_step other_error.
  apply (wp_rfold (grows other_error self)); auto using grows_refl.
  intros acc [name sd] Hacc. unfold validate_references_of.
  destruct sd as [| | | | | |d]; try exact Hacc.
  apply wp_bind.
  pose proof (check_reference_grows (list_to_set (dict_keys a0)) name FNext
                "Next" self acc (JObj d) Hacc) as H1.
  destruct (check_reference _ name FNext "Next" acc (JObj d)) as [acc1| |];
    try exact I.
  simpl in H1. simpl. apply wp_bind.
  assert (H2 : wp (if eq_str (dict_get "Type" JNull d) "Choice"
       then
        py_iter (dict_get "Choices" (JArr []) d)
        ≫= λ choices : list json,
             rfold
               (λ (self1 : validator) '(i, choice),
                  check_reference (list_to_set (dict_keys a0)) name
                    (FChoice i) "Next" self1 choice)
               acc1 (enumerate choices)
             ≫= λ self1 : validator,
                  check_reference (list_to_set (dict_keys a0)) name FDefault
                    "Default" self1 (JObj d)
       else Ok acc1) (grows other_error self)).
  { destruct (eq_str _ "Choice"); [|exact H1].
    apply wp_bind, wp_any. intros choices. apply wp_bind.
    apply (wp_rfold (grows other_error self)); [| |exact H1].
    - intros acc' [i choice] Hacc'. now apply check_reference_grows.
    - intros acc' Hacc'. now apply check_reference_grows. }
  match goal with
  | |- wp ?r _ => destruct r as [acc2| |]; try exact I
  end.
  simpl in H2. simpl. apply wp_bind, wp_any. intros catches.
  apply (wp_rfold (grows other_error self)); [|auto|exact H2].
  intros acc' [i catch] Hacc'. now apply check_reference_grows.
Qed.

Lemma terminal_states_grows (self : validator) :
  wp (_validate_terminal_states self) (grows other_error self).
Proof. no_env.
  unfold _validate_terminal_states.
  repeat wp_step other_error.
  apply wp_any. intros terminal_states.
  repeat wp_step other_error.
Qed.

Lemma unreachable_states_grows (self : validator) :
  wp (_detect_unreachable_states self) (grows other_error self).
Proof. no_env.
  unfold _detect_unreachable_states.
  repeat wp_step other_error.
  apply wp_any. intros reachable. rewrite fold_add_warning.
  apply grows_with_warnings, grows_refl.
Qed.

Lemma cross_account_grows (self : validator) :
  wp (_check_cross_account_patterns self) (grows other_error self).
Proof. no_env.
  unfold _check_cross_account_patterns.
  repeat wp_step other_error.
  apply (wp_rfold (λ acc, grows other_error self (fst acc)));
    [| |apply grows_refl].
  - intros [acc n] [name sd] Hacc. simpl in Hacc.
    repeat wp_step other_error; simpl; repeat wp_step other_error.
  - intros [acc n] Hacc. simpl in Hacc. repeat wp_step other_error.
Qed.

Lemma hardcoded_arns_grows (self : validator) :
  grows other_error self (_check_hardcoded_arns self).
Proof. no_env.
  unfold _check_hardcoded_arns. cbv zeta.
  repeat wp_step other_error.
Qed.

(** *** A dangling StartAt *)

Lemma filter_other_errors (l : list string) :
  Forall other_error l → List.filter is_start_at_error l = [].
Proof. no_env.
  induction 1 as [|msg l Hmsg _ IH]; simpl; [reflexivity|].
  unfold other_error in Hmsg. now rewrite Hmsg.
Qed.

Lemma validate_start_at_dangling (self : validator)
    (root states : list (string * json)) (x : string) :
  definition self = JObj root →
  dict_lookup "StartAt" root = Some (JStr x) →
  dict_lookup "States" root = Some (JObj states) →
  dict_has x states = false →
  _validate_start_at self = Ok (add_error (start_at_error (JStr x)) self).
Proof. no_env.
  intros Hdef Hstart Hstates Hhas.
  unfold _validate_start_at. rewrite Hdef. simpl.
  unfold dict_has, dict_get. rewrite Hstart, Hstates. simpl.
  now rewrite Hhas.
Qed.

Lemma detect_unreachable_dangling (self : validator)
    (root states : list (string * json)) (x : string) :
  definition self = JObj root →
  dict_lookup "StartAt" root = Some (JStr x) →
  dict_lookup "States" root = Some (JObj states) →
  dict_has x states = false →
  ∃ self', _detect_unreachable_states self = Ok self'
           ∧ errors self' = errors self.
Proof. no_env.
  intros Hdef Hstart Hstates Hhas.
  destruct states as [|item states'] eqn:Hst.
  { exists self. split; [|reflexivity].
    unfold _detect_unreachable_states. rewrite Hdef. simpl.
    unfold dict_get. now rewrite Hstates. }
  destruct (String.eqb_spec x "") as [->|Hx].
  { exists self. split; [|reflexivity].
    unfold _detect_unreachable_states. rewrite Hdef.
    cbn [py_get mbind result_bind].
    unfold dict_get. now rewrite Hstates, Hstart. }
  rewrite <- Hst in *.
  destruct (detect_unreachable_unknown_start self root states x)
    as [_ Hrun]; auto; [congruence|].
  eexists. split; [exact Hrun|reflexivity].
Qed.

(** C8. When [StartAt] is a string that names no state of the [States]
    mapping, [_validate_start_at] appends its error; the reachability stage
    ends normally on that definition, without touching the errors; and
    whenever [validate] returns on such a document it returns [False] with
    exactly one StartAt-reference error among its errors. *)
Theorem dangling_start_at_one_error (self : validator)
    (root states : list (string * json)) (x : string) :
  definition self = JObj root →
  dict_lookup "StartAt" root = Some (JStr x) →
  dict_lookup "States" root = Some (JObj states) →
  dict_has x states = false →
  _validate_start_at self = Ok (add_error (start_at_error (JStr x)) self)
  ∧ (∃ self', _detect_unreachable_states self = Ok self'
              ∧ errors self' = errors self)
  ∧ (∀ path b v,
       read_json path = Loaded (JObj root) →
       validate (init path) = Ok (b, v) →
       b = false
       ∧ List.filter is_start_at_error (errors v)
         = [start_at_error (JStr x)]).
Proof. no_env.
  intros Hdef Hstart Hstates Hhas.
  split; [now apply (validate_start_at_dangling _ root states)|].
  split; [now apply (detect_unreachable_dangling _ root states x)|].
  intros path b v Hread H.
  unfold validate, load in H. simpl in H. rewrite Hread in H. simpl in H.
  set (v0 := set_definition (JObj root) (init path)) in H.
  apply bind_Ok in H as (v1 & E1 & H).
  pose proof (wp_elim _ _ _ (required_fields_grows v0) E1)
    as (Hd1 & _ & new1 & He1 & Hn1).
  apply bind_Ok in H as (v2 & E2 & H).
  rewrite (validate_start_at_dangling v1 root states x) in E2; auto.
  injection E2 as <-.
  apply bind_Ok in H as (v3 & E3 & H).
  pose proof (wp_elim _ _ _ (states_grows _) E3) as G3.
  apply bind_Ok in H as (v4 & E4 & H).
  pose proof (wp_elim _ _ _ (state_references_grows _) E4) as G4.
  apply bind_Ok in H as (v5 & E5 & H).
  pose proof (wp_elim _ _ _ (terminal_states_grows _) E5) as G5.
  apply bind_Ok in H as (v6 & E6 & H).
  pose proof (wp_elim _ _ _ (unreachable_states_grows _) E6) as G6.
  apply bind_Ok in H as (v7 & E7 & H).
  pose proof (wp_elim _ _ _ (cross_account_grows _) E7) as G7.
  pose proof (hardcoded_arns_grows v7) as G8.
  injection H as <- <-.
  pose proof (grows_trans _ _ _ _ G3
               (grows_trans _ _ _ _ G4
                 (grows_trans _ _ _ _ G5
                   (grows_trans _ _ _ _ G6
                     (grows_trans _ _ _ _ G7 G8)))))
    as (_ & _ & new & He & Hn).
  assert (Herr : errors (_check_hardcoded_arns v7)
                 = (new1 ++ [start_at_error (JStr x)]) ++ new).
  { rewrite He. simpl. now rewrite He1. }
  rewrite Herr. split.
  - apply Nat.eqb_neq. rewrite !length_app. simpl. lia.
  - rewrite !List.filter_app.
    rewrite (filter_other_errors new1), (filter_other_errors new)
      by assumption.
    reflexivity.
Qed.

(** *** The three-state example *)

Lemma check_hardcoded_arns_cases (self : validator) :
  _check_hardcoded_arns self = self
  ∨ ∃ accounts,
      _check_hardcoded_arns self = add_warning (hardcoded_msg accounts) self.
Proof. no_env.
  unfold _check_hardcoded_arns. cbv zeta.
  destruct (findall_account_ids (json_dumps (definition self)));
    [now left|right; eauto].
Qed.

Lemma set_iter_singleton (X : gset string) (x : string) :
  elements X = [x] → set_iter X = [x].
Proof. keep_perm.
  intros HX. pose proof (set_iter_perm X) as Hperm. rewrite HX in Hperm.
  symmetry in Hperm. now apply Permutation_singleton_l in Hperm.
Qed.

Lemma three_state_example_validates (path : string) :
  read_json path = Loaded three_state_example →
  ∃ v, validate (init path) = Ok (true, v)
       ∧ errors v = []
       ∧ (∀ name, unreachable_msg name ∈ warnings v ↔ name = "C").
Proof. keep_perm.
  intros Hread. unfold validate, load.
  change (file_path (init path)) with path. rewrite Hread.
  cbv beta iota delta [negb].
  set (v0 := set_definition three_state_example (init path)).
  assert (H1 : _validate_required_fields v0 = Ok v0) by reflexivity.
  assert (H2 : _validate_start_at v0 = Ok v0) by reflexivity.
  assert (H3 : _validate_states v0 = Ok v0) by (vm_compute; reflexivity).
  assert (H4 : _validate_state_references v0 = Ok v0)
    by (vm_compute; reflexivity).
  assert (H5 : _validate_terminal_states v0 = Ok v0)
    by (vm_compute; reflexivity).
  assert (H6 : _detect_unreachable_states v0
               = Ok (with_warnings [unreachable_msg "C"] v0)).
  { erewrite detect_unreachable_unfold;
      [|reflexivity|reflexivity|discriminate|reflexivity|discriminate].
    match goal with
    | |- (bfs ?f ?sts ?V ?Q ≫= _) = _ =>
        assert (Hbfs : bfs f sts V Q = Ok {["A"; "B"]})
          by (vm_compute; reflexivity);
        rewrite Hbfs
    end.
    cbn [mbind result_bind].
    rewrite (set_iter_singleton _ "C") by (vm_compute; reflexivity).
    reflexivity. }
  assert (H7 : ∀ v, definition v = three_state_example →
                    _check_cross_account_patterns v = Ok v).
  { intros v Hv. unfold _check_cross_account_patterns. rewrite Hv.
    reflexivity. }
  rewrite H1. cbn [mbind result_bind].
  rewrite H2. cbn [mbind result_bind].
  rewrite H3. cbn [mbind result_bind].
  rewrite H4. cbn [mbind result_bind].
  rewrite H5. cbn [mbind result_bind].
  rewrite H6. cbn [mbind result_bind].
  rewrite H7 by reflexivity. cbn [mbind result_bind].
  set (v1 := with_warnings [unreachable_msg "C"] v0).
  assert (Hhard : ∀ name accounts,
            hardcoded_msg accounts ≠ unreachable_msg name)
    by (intros name accounts; discriminate).
  destruct (check_hardcoded_arns_cases v1) as [->|[accounts ->]];
    (eexists; split; [reflexivity|]; split; [reflexivity|]);
    intros name; simpl; split.
  - intros H. apply list_elem_of_singleton in H.
    now apply unreachable_msg_inj in H.
  - intros ->. left.
  - intros H. apply elem_of_cons in H as [H|H].
    + now apply unreachable_msg_inj in H.
    + apply list_elem_of_singleton in H. symmetry in H.
      now apply Hhard in H.
  - intros ->. left.
Qed.

Lemma detect_unreachable_falsy (self : validator)
    (root : list (string * json)) :
  definition self = JObj root →
  falsy (dict_lookup "States" root) = true
  ∨ falsy (dict_lookup "StartAt" root) = true →
  _detect_unreachable_states self = Ok self.
Proof. no_env.
  intros Hdef Hfalsy. unfold _detect_unreachable_states. rewrite Hdef.
  cbn [py_get mbind result_bind]. unfold dict_get.
  assert (Hguard :
    negb (truthy match dict_lookup "States" root with
                 | Some v => v | None => JObj [] end)
    || negb (truthy match dict_lookup "StartAt" root with
                    | Some v => v | None => JNull end) = true).
  { unfold falsy in Hfalsy. destruct Hfalsy as [H|H].
    - destruct (dict_lookup "States" root); [now rewrite H|reflexivity].
    - apply orb_true_iff. right.
      destruct (dict_lookup "StartAt" root); [exact H|reflexivity]. }
  cbn [mbind result_bind]. now rewrite Hguard.
Qed.

Lemma detect_unreachable_unfold_start (self : validator)
    (root states : list (string * json)) (start : json) :
  definition self = JObj root →
  dict_lookup "States" root = Some (JObj states) →
  states ≠ [] →
  dict_lookup "StartAt" root = Some start →
  truthy start = true →
  _detect_unreachable_states self
  = (reachable ← bfs (bfs_fuel states) states ∅ [start];
     Ok (with_warnings
           (map unreachable_msg
                (set_iter (list_to_set (dict_keys states) ∖ reachable)))
           self)).
Proof. no_env.
  intros Hdef Hstates Hne Hstart Hs.
  unfold _detect_unreachable_states. rewrite Hdef.
  cbn [py_get mbind result_bind].
  unfold dict_get. rewrite Hstates, Hstart.
  assert (Htruthy : negb (truthy (JObj states)) || negb (truthy start)
                    = false).
  { rewrite Hs. destruct states; [congruence|reflexivity]. }
  cbn [mbind result_bind]. rewrite Htruthy.
  destruct (bfs (bfs_fuel states) states ∅ [start]);
    cbn [mbind result_bind]; try reflexivity.
  now rewrite fold_add_warning.
Qed.

Lemma detect_unreachable_scalar_start (self : validator)
    (root states : list (string * json)) (start : json) :
  definition self = JObj root →
  dict_lookup "States" root = Some (JObj states) →
  states ≠ [] →
  dict_lookup "StartAt" root = Some start →
  truthy start = true →
  hashable start = true →
  all_states typed_edges states →
  all_states typed_branches states →
  ∃ unreachable,
    _detect_unreachable_states self
    = Ok (with_warnings (map unreachable_msg unreachable) self)
    ∧ NoDup unreachable
    ∧ (∀ name, name ∈ unreachable
               ↔ name ∈ dict_keys states ∧ ¬ reach states start name).
Proof. keep_perm.
  intros Hdef Hstates Hne Hstart Hs Hhash Hedges Hbranches.
  rewrite (detect_unreachable_unfold_start _ _ _ _ Hdef Hstates Hne Hstart Hs).
  destruct (bfs (bfs_fuel states) states ∅ [start]) as [R| |] eqn:Hbfs.
  - exists (set_iter (list_to_set (dict_keys states) ∖ R)).
    split; [reflexivity|]. split; [apply set_iter_NoDup|].
    intros name. rewrite elem_of_set_iter, elem_of_difference.
    rewrite elem_of_list_to_set.
    now rewrite (bfs_reach _ _ _ _ Hedges Hbranches Hbfs).
  - exfalso. revert Hbfs. apply bfs_no_raise; auto.
  - exfalso. revert Hbfs. apply bfs_fuel_enough.
    rewrite bfs_fuel_potential. simpl. lia.
Qed.

(** C3 (amended). When [States] is a non-empty mapping whose transition
    fields are typed as in the data model (a target is a string, [Choices],
    [Catch] and [Branches] are sequences) and [StartAt] is a truthy scalar
    (in the data model: a non-empty string), the stage succeeds and appends
    exactly one unreachable warning for each state name that the traversal
    from [StartAt] over [Next], [Choices[i].Next], [Default] and
    [Catch[i].Next] does not reach: the set of warned names is fixed by the
    graph, not by the order of the traversal. The stage does nothing when
    [States] or [StartAt] is absent or holds a falsy value (null, false,
    zero, an empty string, list or mapping). On the three-state example the
    document is valid and the one state warned unreachable is [C]. *)
Theorem unreachable_states_warned (self : validator)
    (root : list (string * json)) :
  definition self = JObj root →
  (∀ states start,
     dict_lookup "States" root = Some (JObj states) →
     states ≠ [] →
     dict_lookup "StartAt" root = Some start →
     truthy start = true →
     hashable start = true →
     all_states typed_edges states →
     all_states typed_branches states →
     ∃ unreachable,
       _detect_unreachable_states self
       = Ok (with_warnings (map unreachable_msg unreachable) self)
       ∧ NoDup unreachable
       ∧ (∀ name, name ∈ unreachable
                  ↔ name ∈ dict_keys states ∧ ¬ reach states start name))
  ∧ (falsy (dict_lookup "States" root) = true
     ∨ falsy (dict_lookup "StartAt" root) = true →
     _detect_unreachable_states self = Ok self)
  ∧ (∀ path,
       read_json path = Loaded three_state_example →
       ∃ v, validate (init path) = Ok (true, v)
            ∧ errors v = []
            ∧ (∀ name, unreachable_msg name ∈ warnings v ↔ name = "C")).
Proof. keep_perm.
  intros Hdef. split; [|split].
  - intros states start. now apply detect_unreachable_scalar_start.
  - now apply detect_unreachable_falsy.
  - apply three_state_example_validates.
Qed.

(** *** Fuel never runs out *)

Lemma detect_unreachable_fuel (self : validator) :
  _detect_unreachable_states self ≠ OutOfFuel.
Proof. no_env.
  unfold _detect_unreachable_states.
  repeat first
    [ apply py_get_fuel
    | (apply bind_fuel; [|intro])
    | match goal with
      | |- (if ?b then _ else _) ≠ OutOfFuel => destruct b
      | |- (match ?x with _ => _ end) ≠ OutOfFuel => destruct x
      end
    | discriminate ].
  apply bfs_fuel_enough. rewrite bfs_fuel_potential. simpl. lia.
Qed.

Lemma validate_fuel (self : validator) : validate self ≠ OutOfFuel.
Proof. no_env.
  unfold validate. destruct (load self) as [[] self1]; simpl;
    [|discriminate].
  unfold _validate_required_fields, _validate_start_at, _validate_states,
    _validate_state_references, _validate_terminal_states,
    _check_cross_account_patterns.
  repeat first
    [ apply detect_unreachable_fuel
    | (apply bind_fuel; [|intro])
    | fuel_step ].
  all: unfold validate_state, validate_references_of, check_reference,
         _validate_choice_state, _validate_parallel_state;
       repeat fuel_step.
  destruct acc as [acc n], x as [name state_def]. repeat fuel_step.
Qed.

(** *** Shapes without a guard *)

(** C2 (the code at the failing inputs). On each of the sample documents
    with an unguarded shape, [validate] does not return: an exception
    propagates out of a stage after the parse. *)
Theorem validate_raises_on_unguarded_shapes (path : string)
    (document : json) :
  read_json path = Loaded document →
  document ∈ unguarded_documents →
  validate (init path) = Raise.
Proof. no_env.
  intros Hread Hin. unfold validate, load.
  change (file_path (init path)) with path. rewrite Hread.
  cbv beta iota delta [negb].
  unfold unguarded_documents in Hin.
  repeat (apply elem_of_cons in Hin as [->|Hin]);
    try (vm_compute; reflexivity);
    try (now apply not_elem_of_nil in Hin).
  set (v0 := set_definition number_credentials_document (init path)).
  assert (H1 : _validate_required_fields v0 = Ok v0) by reflexivity.
  assert (H2 : _validate_start_at v0 = Ok v0) by reflexivity.
  assert (H3 : _validate_states v0 = Ok v0) by (vm_compute; reflexivity).
  assert (H4 : _validate_state_references v0 = Ok v0)
    by (vm_compute; reflexivity).
  assert (H5 : _validate_terminal_states v0 = Ok v0)
    by (vm_compute; reflexivity).
  rewrite H1. cbn [mbind result_bind].
  rewrite H2. cbn [mbind result_bind].
  rewrite H3. cbn [mbind result_bind].
  rewrite H4. cbn [mbind result_bind].
  rewrite H5. cbn [mbind result_bind].
  pose proof (unreachable_states_grows v0) as H6.
  pose proof (detect_unreachable_fuel v0) as H6'.
  destruct (_detect_unreachable_states v0) as [v6| |];
    [|reflexivity|congruence].
  destruct H6 as (Hdef & _). cbn [mbind result_bind].
  unfold _check_cross_account_patterns. rewrite Hdef. reflexivity.
Qed.

(** *** Loading *)

Lemma load_failure_errors (self self' : validator) :
  load self = (false, self') →
  ∃ msg, self' = add_error msg self.
Proof. no_env.
  unfold load. destruct (read_json (file_path self));
    intros [= <-]; eauto.
Qed.

Lemma validate_load_failure (self : validator) :
  (∀ j, read_json (file_path self) ≠ Loaded j) →
  ∃ msg, validate self = Ok (false, add_error msg self).
Proof. no_env.
  intros Hfail. unfold validate, load.
  destruct (read_json (file_path self)) as [j| | |]; simpl; eauto.
  now destruct (Hfail j).
Qed.

(** C6. When the text of the file does not parse, [validate] returns
    [False] at once: of the validator only [errors] has changed, by the one
    parse error appended; on a fresh validator the result holds that single
    diagnostic, no warning and no info, and the definition is still the
    empty one that [__init__] set: no later stage has run. *)
Theorem validate_parse_failure (self : validator) (e : string) :
  read_json (file_path self) = JSONDecodeError e →
  validate self = Ok (false, add_error ("Invalid JSON syntax: " +:+ e) self)
  ∧ (self = init (file_path self) →
     validate self
     = Ok (false, mkValidator (file_path self) ["Invalid JSON syntax: " +:+ e]
                              [] [] (JObj []))).
Proof. no_env.
  intros Hread. unfold validate, load. rewrite Hread. simpl.
  split; [reflexivity|]. intros ->. reflexivity.
Qed.

(** *** Validity *)

Lemma validate_returns_no_errors (self : validator) (b : bool)
    (v : validator) :
  validate self = Ok (b, v) → (b = true ↔ errors v = []).
Proof. no_env.
  unfold validate. destruct (load self) as [loaded self1] eqn:Hload.
  destruct loaded; simpl.
  - intros H.
    repeat (apply bind_Ok in H; destruct H as (? & _ & H)).
    injection H as <- <-. apply length_eqb_0.
  - intros [= <- <-]. apply load_failure_errors in Hload as [msg ->].
    simpl. split; [discriminate|]. intros H.
    now apply app_singleton_neq_nil in H.
Qed.

(** C1. Whatever [validate] returns, it returns [True] exactly when the
    errors list is empty at the end; and one turn of the driver's loop leaves
    the file out of [failed_files] exactly when its errors list is empty
    and, under [--strict], its warnings list is empty too. *)
Theorem validity_is_no_errors (strict quiet verbose : bool) (t t' : tally)
    (path : string) (b : bool) (v : validator) :
  validate (init path) = Ok (b, v) →
  main_step strict quiet verbose t path = Ok t' →
  (b = true ↔ errors v = [])
  ∧ (failed_files t' = failed_files t
     ↔ errors v = [] ∧ (strict = true → warnings v = []))
  ∧ (failed_files t' ≠ failed_files t
     → failed_files t' = failed_files t ++ [path]).
Proof. no_env.
  intros Hv Hstep.
  pose proof (validate_returns_no_errors _ _ _ Hv) as Hb.
  unfold main_step in Hstep. rewrite Hv in Hstep. simpl in Hstep.
  injection Hstep as <-. simpl.
  split; [exact Hb|].
  set (is_valid := if strict
                   then b && Nat.eqb (length (warnings v)) 0 else b).
  assert (Hvalid : is_valid = true
                   ↔ errors v = [] ∧ (strict = true → warnings v = [])).
  { subst is_valid. destruct strict.
    - rewrite andb_true_iff, length_eqb_0, Hb. tauto.
    - rewrite Hb. split; [intros H; split; [exact H|discriminate]|tauto]. }
  destruct is_valid; simpl.
  - split; [|congruence]. split; [intros _; now apply Hvalid|reflexivity].
  - split; [|reflexivity]. split.
    + intros H. now apply app_singleton_neq_self in H.
    + intros H. apply Hvalid in H. discriminate.
Qed.

(** *** The report *)

(** C10 (amended). The report is the header line with the file path, then
    the ERRORS block when there are errors, then the WARNINGS and the INFO
    block when verbose is set and the list is not empty, and the closing
    line "Valid" exactly when there are no errors: an invalid result gets no
    closing line of its own. *)
Theorem report_layout (self : validator) (verbose : bool) :
  report self verbose = join newline (report_lines self verbose)
  ∧ report_lines self verbose
    = ["File: " +:+ file_path self]
      ++ block "ERRORS" "✗" (errors self)
      ++ (if verbose then block "WARNINGS" "⚠" (warnings self) else [])
      ++ (if verbose then block "INFO" "ℹ" (info self) else [])
      ++ (match errors self with [] => ["  ✓ Valid"] | _ => [] end).
Proof. no_env.
  split; [reflexivity|].
  unfold report_lines, block.
  destruct (errors self) as [|e es], (warnings self) as [|w ws],
    (info self) as [|i0 is0], verbose; simpl;
    rewrite <- ?app_assoc; simpl; rewrite ?app_nil_r; reflexivity.
Qed.

(** *** Hardcoded account identifiers *)





(** *** Checking the typing predicates by computation *)

Lemma all_states_forallb (P : list (string * json) → bool)
    (states : list (string * json)) :
  forallb (fun item => match snd item with
                       | JObj state_def => P state_def
                       | _ => true
                       end) states = true →
  all_states P states.
Proof. no_env.
  intros Hall name d Hin. apply list_elem_of_In in Hin.
  rewrite forallb_forall in Hall. exact (Hall _ Hin).
Qed.

(** ** Further properties *)

(** *** The traversal does not depend on its fuel *)

Lemma bfs_S (states : list (string * json)) (fuel : nat) (V : gset string)
    (queue : list json) :
  bfs (S fuel) states V queue = bfs_step states (bfs fuel states) V queue.
Proof. no_env. reflexivity. Qed.

Lemma bfs_more_fuel (states : list (string * json)) (fuel : nat) :
  ∀ V queue,
    bfs fuel states V queue ≠ OutOfFuel →
    bfs (S fuel) states V queue = bfs fuel states V queue.
Proof. no_env.
  induction fuel as [|fuel IH]; intros V queue Hfuel.
  - now destruct Hfuel.
  - rewrite (bfs_S states (S fuel)). rewrite bfs_S in Hfuel |- *.
    unfold bfs_step in *.
    destruct queue as [|current queue]; [reflexivity|].
    destruct (negb (hashable current)); [reflexivity|].
    destruct current as [| | | |name| |]; try (now apply IH).
    destruct (bool_decide (name ∈ V)); [now apply IH|].
    destruct (dict_lookup name states) as [state_def|]; [|now apply IH].
    destruct state_def as [| | | | | |state_def]; try (now apply IH).
    destruct (next_states_of state_def) as [next| |]; simpl in *;
      try reflexivity.
    now apply IH.
Qed.

(** X1. The loop of [_detect_unreachable_states] ends on every [States]
    mapping and every start: the bound the model runs it with is enough,
    and any larger bound gives the same outcome. *)
Theorem traversal_terminates (states : list (string * json))
    (start_at : json) (fuel : nat) :
  (bfs_fuel states ≤ fuel)%nat →
  bfs fuel states ∅ [start_at] ≠ OutOfFuel
  ∧ bfs fuel states ∅ [start_at]
    = bfs (bfs_fuel states) states ∅ [start_at].
Proof. no_env.
  intros Hle.
  assert (Henough : ∀ f, (bfs_fuel states ≤ f)%nat →
                         bfs f states ∅ [start_at] ≠ OutOfFuel).
  { intros f Hf. apply bfs_fuel_enough.
    rewrite bfs_fuel_potential in Hf. simpl. lia. }
  split; [now apply Henough|].
  induction Hle as [|fuel Hle IH]; [reflexivity|].
  rewrite bfs_more_fuel; [exact IH|now apply Henough].
Qed.

(** *** Diagnostics are only ever appended *)

Lemma keeps_refl (self : validator) : keeps self self.
Proof. no_env. repeat split; reflexivity. Qed.

Lemma keeps_trans (a b c : validator) : keeps a b → keeps b c → keeps a c.
Proof. no_env.
  intros (Hd1 & Hf1 & He1 & Hw1 & Hi1) (Hd2 & Hf2 & He2 & Hw2 & Hi2).
  repeat split; try congruence; etrans; eassumption.
Qed.

Lemma keeps_add_error (msg : string) (a b : validator) :
  keeps a b → keeps a (add_error msg b).
Proof. no_env.
  intros H. eapply keeps_trans; [exact H|].
  repeat split; try reflexivity. simpl. now apply prefix_app_r.
Qed.

Lemma keeps_add_warning (msg : string) (a b : validator) :
  keeps a b → keeps a (add_warning msg b).
Proof. no_env.
  intros H. eapply keeps_trans; [exact H|].
  repeat split; try reflexivity. simpl. now apply prefix_app_r.
Qed.

Lemma keeps_add_info (msg : string) (a b : validator) :
  keeps a b → keeps a (add_info msg b).
Proof. no_env.
  intros H. eapply keeps_trans; [exact H|].
  repeat split; try reflexivity. simpl. now apply prefix_app_r.
Qed.

Lemma keeps_with_warnings (msgs : list string) (a b : validator) :
  keeps a b → keeps a (with_warnings msgs b).
Proof. no_env.
  intros H. eapply keeps_trans; [exact H|].
  repeat split; try reflexivity. simpl. now apply prefix_app_r.
Qed.

(** Peels a goal [wp run (keeps self)] down to the appends. *)
Ltac keep_step :=
  match goal with
  | |- wp (Ok _) _ => unfold wp
  | |- wp Raise _ => exact I
  | |- wp (_ ≫= _) _ => apply wp_bind
  | |- wp (_ <$> _) _ => apply wp_any; intro
  | |- wp (if ?b then _ else _) _ => destruct b
  | |- wp (py_in _ _) _ => apply wp_any; intro
  | |- wp (py_getitem _ _) _ => apply wp_any; intro
  | |- wp (py_get _ _ _) _ => apply wp_any; intro
  | |- wp (py_items _) _ => apply wp_any; intro
  | |- wp (py_iter _) _ => apply wp_any; intro
  | |- wp (set_has _ _) _ => apply wp_any; intro
  | |- wp (match ?x with _ => _ end) _ => destruct x
  | |- keeps _ (if ?b then _ else _) => destruct b
  | |- keeps _ (match ?x with _ => _ end) => destruct x
  | |- keeps _ (add_error _ _) => apply keeps_add_error
  | |- keeps _ (add_warning _ _) => apply keeps_add_warning
  | |- keeps _ (add_info _ _) => apply keeps_add_info
  | |- keeps ?a ?a => apply keeps_refl
  | H : keeps ?a ?b |- keeps ?a ?b => exact H
  end.

Lemma required_fields_keeps (self : validator) :
  wp (_validate_required_fields self) (keeps self).
Proof. no_env.
  unfold _validate_required_fields. cbv zeta. repeat keep_step.
Qed.

Lemma start_at_keeps (self : validator) :
  wp (_validate_start_at self) (keeps self).
Proof. no_env. unfold _validate_start_at. repeat keep_step. Qed.

Lemma choice_state_keeps (name : string) (d : list (string * json))
    (self0 self : validator) :
  keeps self0 self →
  wp (_validate_choice_state name d self) (keeps self0).
Proof. no_env.
  intros H. unfold _validate_choice_state. cbv zeta.
  repeat keep_step.
  all: try (apply (wp_rfold (keeps self0));
            [intros acc [i choice] Hacc|intros acc Hacc|]);
    repeat keep_step.
Qed.

Lemma parallel_state_keeps (name : string) (d : list (string * json))
    (self0 self : validator) :
  keeps self0 self →
  wp (_validate_parallel_state name d self) (keeps self0).
Proof. no_env.
  intros H. unfold _validate_parallel_state. repeat keep_step.
Qed.

Lemma validate_state_keeps (self0 self : validator) (item : string * json) :
  keeps self0 self →
  wp (validate_state self item) (keeps self0).
Proof. no_env.
  intros H. destruct item as [name sd]. unfold validate_state.
  destruct sd as [| | | | | |d]; [repeat keep_step..|].
  cbv zeta.
  destruct (negb (truthy (dict_get "Type" JNull d))); [repeat keep_step|].
  apply wp_bind, wp_any. intros valid.
  destruct (negb valid); [repeat keep_step|].
  apply wp_bind, wp_any. intros no_transition.
  set (self1 := if negb no_transition then _ else self).
  assert (H1 : keeps self0 self1) by (subst self1; repeat keep_step).
  clearbody self1.
  unfold _validate_task_state, _validate_wait_state, _validate_map_state.
  cbv zeta.
  repeat match goal with
  | |- wp (if eq_str ?a ?b then _ else _) _ => destruct (eq_str a b)
  end;
  try (now apply choice_state_keeps);
  try (now apply parallel_state_keeps);
  repeat keep_step.
Qed.

Lemma states_keeps (self : validator) :
  wp (_validate_states self) (keeps self).
Proof. no_env.
  unfold _validate_states. repeat keep_step.
  apply (wp_rfold (keeps self)); auto using keeps_refl.
  intros acc item Hacc. now apply validate_state_keeps.
Qed.

Lemma check_reference_keeps (vs : gset string) (name : string)
    (f : edge_field) (field : string) (self0 self : validator) (x : json) :
  keeps self0 self →
  wp (check_reference vs name f field self x) (keeps self0).
Proof. no_env. intros H. unfold check_reference. repeat keep_step. Qed.

Lemma validate_references_of_keeps (vs : gset string)
    (self0 self : validator) (item : string * json) :
  keeps self0 self →
  wp (validate_references_of vs self item) (keeps self0).
Proof. no_env.
  intros H. destruct item as [name sd]. unfold validate_references_of.
  destruct sd as [| | | | | |d]; try exact H.
  apply wp_bind.
  pose proof (check_reference_keeps vs name FNext "Next" self0 self
                (JObj d) H) as H1.
  destruct (check_reference vs name FNext "Next" self (JObj d))
    as [self1| |]; try exact I.
  simpl in H1. simpl. apply wp_bind.
  assert (H2 : wp (if eq_str (dict_get "Type" JNull d) "Choice"
       then
        py_iter (dict_get "Choices" (JArr []) d)
        ≫= λ choices : list json,
             rfold
               (λ (self2 : validator) '(i, choice),
                  check_reference vs name (FChoice i) "Next" self2 choice)
               self1 (enumerate choices)
             ≫= λ self2 : validator,
                  check_reference vs name FDefault "Default" self2 (JObj d)
       else Ok self1) (keeps self0)).
  { destruct (eq_str _ "Choice"); [|exact H1].
    apply wp_bind, wp_any. intros choices. apply wp_bind.
    apply (wp_rfold (keeps self0)); [| |exact H1].
    - intros acc' [i choice] Hacc'. now apply check_reference_keeps.
    - intros acc' Hacc'. now apply check_reference_keeps. }
  match goal with
  | |- wp ?r _ => destruct r as [self2| |]; try exact I
  end.
  simpl in H2. simpl. apply wp_bind, wp_any. intros catches.
  apply (wp_rfold (keeps self0)); [|auto|exact H2].
  intros acc' [i catch] Hacc'. now apply check_reference_keeps.
Qed.

Lemma state_references_keeps (self : validator) :
  wp (_validate_state_references self) (keeps self).
Proof. no_env.
  unfold _validate_state_references. cbv zeta. repeat keep_step.
  apply (wp_rfold (keeps self)); auto using keeps_refl.
  intros acc item Hacc. now apply validate_references_of_keeps.
Qed.

Lemma terminal_states_keeps (self : validator) :
  wp (_validate_terminal_states self) (keeps self).
Proof. no_env.
  unfold _validate_terminal_states. repeat keep_step.
  apply wp_any. intros terminal_states. repeat keep_step.
Qed.

Lemma unreachable_states_keeps (self : validator) :
  wp (_detect_unreachable_states self) (keeps self).
Proof. no_env.
  unfold _detect_unreachable_states. repeat keep_step.
  apply wp_any. intros reachable. rewrite fold_add_warning.
  apply keeps_with_warnings, keeps_refl.
Qed.

Lemma cross_account_keeps (self : validator) :
  wp (_check_cross_account_patterns self) (keeps self).
Proof. no_env.
  unfold _check_cross_account_patterns. repeat keep_step.
  apply (wp_rfold (λ acc, keeps self (fst acc))); [| |apply keeps_refl].
  - intros [acc n] [name sd] Hacc. simpl in Hacc.
    repeat keep_step; simpl; repeat keep_step.
  - intros [acc n] Hacc. simpl in Hacc. repeat keep_step.
Qed.

Lemma hardcoded_arns_keeps (self : validator) :
  keeps self (_check_hardcoded_arns self).
Proof. no_env.
  unfold _check_hardcoded_arns. cbv zeta. repeat keep_step.
Qed.

(** X2. Whatever [validate] returns on a loaded document, the validator
    it leaves holds that document and its path, and every diagnostic the
    validator held before is still there, in place, at the head of its
    list: no stage removes, reorders or rewrites an entry. *)
Theorem validate_keeps_diagnostics (self : validator) (document : json)
    (b : bool) (v : validator) :
  read_json (file_path self) = Loaded document →
  validate self = Ok (b, v) →
  definition v = document
  ∧ file_path v = file_path self
  ∧ errors self `prefix_of` errors v
  ∧ warnings self `prefix_of` warnings v
  ∧ info self `prefix_of` info v.
Proof. no_env.
  intros Hread H. unfold validate, load in H. rewrite Hread in H.
  cbv beta iota delta [negb] in H.
  set (v0 := set_definition document self) in H.
  apply bind_Ok in H as (v1 & E1 & H).
  pose proof (wp_elim _ _ _ (required_fields_keeps _) E1) as G1.
  apply bind_Ok in H as (v2 & E2 & H).
  pose proof (wp_elim _ _ _ (start_at_keeps _) E2) as G2.
  apply bind_Ok in H as (v3 & E3 & H).
  pose proof (wp_elim _ _ _ (states_keeps _) E3) as G3.
  apply bind_Ok in H as (v4 & E4 & H).
  pose proof (wp_elim _ _ _ (state_references_keeps _) E4) as G4.
  apply bind_Ok in H as (v5 & E5 & H).
  pose proof (wp_elim _ _ _ (terminal_states_keeps _) E5) as G5.
  apply bind_Ok in H as (v6 & E6 & H).
  pose proof (wp_elim _ _ _ (unreachable_states_keeps _) E6) as G6.
  apply bind_Ok in H as (v7 & E7 & H).
  pose proof (wp_elim _ _ _ (cross_account_keeps _) E7) as G7.
  pose proof (hardcoded_arns_keeps v7) as G8.
  injection H as <- <-.
  pose proof (keeps_trans _ _ _ G1
               (keeps_trans _ _ _ G2
                 (keeps_trans _ _ _ G3
                   (keeps_trans _ _ _ G4
                     (keeps_trans _ _ _ G5
                       (keeps_trans _ _ _ G6
                         (keeps_trans _ _ _ G7 G8)))))))
    as (Hd & Hf & He & Hw & Hi).
  repeat split; assumption.
Qed.

(** *** No exception on a typed document *)

Lemma bind_no_raise {A B} (r : result A) (k : A → result B) :
  r ≠ Raise → (∀ a, r = Ok a → k a ≠ Raise) → r ≫= k ≠ Raise.
Proof. no_env. destruct r; simpl; auto. Qed.

Lemma rfold_no_raise {A B} (body : A → B → result A) (l : list B) :
  (∀ acc x, x ∈ l → body acc x ≠ Raise) →
  ∀ acc, rfold body acc l ≠ Raise.
Proof. no_env.
  induction l as [|x l IH]; intros Hbody acc; simpl; [discriminate|].
  apply bind_no_raise.
  - apply Hbody. left.
  - intros acc' _. apply IH. intros a y Hy. apply Hbody. now right.
Qed.

Lemma elem_of_enumerate {A} (l : list A) (i : nat) (x : A) :
  (i, x) ∈ enumerate l → x ∈ l.
Proof. no_env.
  unfold enumerate. intros H. apply list_elem_of_In in H.
  apply in_combine_r in H. now apply list_elem_of_In.
Qed.

Lemma typed_rule_in (rules : list json) (rule : json) :
  forallb typed_rule rules = true → rule ∈ rules →
  ∃ fields, rule = JObj fields.
Proof. no_env.
  intros Hall Hin. rewrite forallb_forall in Hall.
  apply list_elem_of_In in Hin. specialize (Hall _ Hin).
  destruct rule; try discriminate. eauto.
Qed.

Lemma typed_type_hashable (d : list (string * json)) (default : json) :
  typed_tags d = true → hashable default = true →
  hashable (dict_get "Type" default d) = true.
Proof. no_env.
  unfold typed_tags, dict_get. intros H Hdef.
  apply andb_true_iff in H as [H _].
  now destruct (dict_lookup "Type" d).
Qed.

Lemma set_has_hashable (x : json) (s : gset string) :
  hashable x = true → set_has x s ≠ Raise.
Proof. no_env. unfold set_has. intros ->. discriminate. Qed.

Lemma validate_state_no_raise (self : validator) (name : string)
    (state_def : json) :
  (∀ d, state_def = JObj d → typed_state d = true) →
  validate_state self (name, state_def) ≠ Raise.
Proof. no_env.
  intros Htyped. unfold validate_state.
  destruct state_def as [| | | | | |d]; try discriminate.
  specialize (Htyped d eq_refl). unfold typed_state in Htyped.
  apply andb_true_iff in Htyped as [Htyped _].
  apply andb_true_iff in Htyped as [Htyped Hbranches].
  apply andb_true_iff in Htyped as [Htags Hedges].
  pose proof (typed_type_hashable d JNull Htags eq_refl) as Hhash.
  cbv zeta.
  destruct (negb (truthy (dict_get "Type" JNull d))); [discriminate|].
  apply bind_no_raise; [now apply set_has_hashable|]. intros valid _.
  destruct (negb valid); [discriminate|].
  apply bind_no_raise; [now apply set_has_hashable|].
  intros no_transition _.
  match goal with
  | |- context [_validate_choice_state name d ?v] => generalize v
  end.
  intros self1.
  destruct (eq_str (dict_get "Type" JNull d) "Choice") eqn:Hchoice.
  - unfold _validate_choice_state. cbv zeta.
    unfold typed_edges in Hedges. rewrite Hchoice in Hedges.
    apply andb_true_iff in Hedges as [Hedges _].
    apply andb_true_iff in Hedges as [_ Hedges].
    apply andb_true_iff in Hedges as [Hchoices _].
    unfold typed_rules in Hchoices. unfold dict_has. simpl.
    destruct (dict_lookup "Choices" d) as [[| | | | |choices|]|];
      try discriminate.
    simpl. apply bind_no_raise; [|discriminate].
    apply rfold_no_raise. intros acc [i choice] Hin.
    apply elem_of_enumerate in Hin.
    destruct (typed_rule_in _ _ Hchoices Hin) as [fields ->].
    discriminate.
  - destruct (eq_str _ "Task"); [discriminate|].
    destruct (eq_str _ "Wait"); [discriminate|].
    destruct (eq_str _ "Map"); [discriminate|].
    destruct (eq_str _ "Parallel"); [|discriminate].
    unfold _validate_parallel_state, dict_has. simpl.
    destruct (dict_lookup "Branches" d) as [[| | | | |[|? ?]|]|];
      discriminate.
Qed.

Lemma cross_account_no_raise (self0 : validator) (name : string)
    (state_def : json) (acc : validator * nat) :
  (∀ d, state_def = JObj d → typed_state d = true) →
  (let '(self, credentials_count) := acc in
   fun '(state_name, state_def) =>
     match state_def with
     | JObj state_def =>
         if dict_has "Credentials" state_def
         then
           creds ← py_getitem (JObj state_def) "Credentials";
           has_role ← py_in (JStr "RoleArn") creds;
           has_path ← (if has_role : bool then Ok true
                       else py_in (JStr "RoleArn.$") creds);
           Ok (if negb has_role && negb has_path
               then add_warning ("State '" +:+ state_name
                      +:+ "' has Credentials but no RoleArn") self
               else self,
               S credentials_count)
         else Ok (self, credentials_count)
     | _ => Ok (self, credentials_count)
     end) (name, state_def) ≠ Raise.
Proof. no_env.
  intros Htyped. destruct acc as [self n].
  destruct state_def as [| | | | | |d]; try discriminate.
  specialize (Htyped d eq_refl). unfold typed_state in Htyped.
  apply andb_true_iff in Htyped as [_ Hcreds].
  unfold typed_credentials in Hcreds. unfold dict_has. simpl.
  destruct (dict_lookup "Credentials" d) as [[| | | | | |creds]|];
    try discriminate.
  simpl. destruct (dict_has "RoleArn" creds); discriminate.
Qed.

Lemma typed_states_elem (states : list (string * json)) :
  forallb (fun item => match snd item with
                       | JObj state_def => typed_state state_def
                       | _ => true
                       end) states = true →
  ∀ name state_def d,
    (name, state_def) ∈ states → state_def = JObj d → typed_state d = true.
Proof. no_env.
  intros Hall name sd d Hin ->. rewrite forallb_forall in Hall.
  apply list_elem_of_In in Hin. exact (Hall _ Hin).
Qed.

Lemma typed_states_all (P : list (string * json) → bool)
    (states : list (string * json)) :
  (∀ d, typed_state d = true → P d = true) →
  forallb (fun item => match snd item with
                       | JObj state_def => typed_state state_def
                       | _ => true
                       end) states = true →
  all_states P states.
Proof. no_env.
  intros HP Hall name d Hin. apply HP.
  eapply typed_states_elem; eauto.
Qed.

Lemma typed_state_parts (d : list (string * json)) :
  typed_state d = true →
  typed_tags d = true ∧ typed_edges d = true ∧ typed_branches d = true
  ∧ typed_credentials d = true.
Proof. no_env.
  unfold typed_state. rewrite !andb_true_iff. tauto.
Qed.

Lemma required_fields_no_raise (self : validator)
    (root : list (string * json)) :
  definition self = JObj root →
  _validate_required_fields self ≠ Raise.
Proof. no_env.
  intros Hdef. unfold _validate_required_fields. cbv zeta.
  rewrite Hdef. simpl.
  destruct (negb (dict_has "StartAt" root)); simpl; rewrite Hdef; simpl;
    unfold dict_has;
    destruct (dict_lookup "States" root) as [[| | | | | |[|? ?]]|];
    discriminate.
Qed.

Lemma detect_unreachable_no_raise (self : validator)
    (root : list (string * json)) :
  definition self = JObj root →
  typed_target (dict_lookup "StartAt" root) = true →
  match dict_lookup "States" root with
  | None => True
  | Some (JObj states) =>
      all_states typed_edges states ∧ all_states typed_branches states
  | Some _ => False
  end →
  _detect_unreachable_states self ≠ Raise.
Proof. no_env.
  intros Hdef Hstart Hstates. unfold _detect_unreachable_states.
  rewrite Hdef. cbn [py_get mbind result_bind]. unfold dict_get.
  destruct (dict_lookup "States" root) as [[| | | | | |states]|];
    try (now destruct Hstates).
  destruct Hstates as [Hedges Hbranches].
  destruct (dict_lookup "StartAt" root) as [start|].
  - destruct (negb (truthy (JObj states)) || negb (truthy start));
      [discriminate|].
    apply bind_no_raise; [|discriminate].
    apply bfs_no_raise; auto. repeat constructor.
    now apply is_str_hashable.
  - cbn [truthy negb]. rewrite orb_true_r. discriminate.
Qed.

Lemma validate_no_raise (self : validator) (document : json) :
  typed_document document = true →
  read_json (file_path self) = Loaded document →
  validate self ≠ Raise.
Proof. no_env.
  intros Htyped Hread. unfold validate, load. rewrite Hread.
  cbv beta iota delta [negb].
  destruct document as [| | | | | |root]; try discriminate.
  simpl in Htyped. apply andb_true_iff in Htyped as [Hstart Hstates].
  set (v0 := set_definition (JObj root) self).
  assert (Hdef0 : definition v0 = JObj root) by reflexivity.
  clearbody v0.
  assert (Hstage : ∀ v, definition v = JObj root →
            _validate_required_fields v ≠ Raise
            ∧ _validate_start_at v ≠ Raise
            ∧ _validate_states v ≠ Raise
            ∧ _validate_state_references v ≠ Raise
            ∧ _validate_terminal_states v ≠ Raise
            ∧ _check_cross_account_patterns v ≠ Raise
            ∧ _detect_unreachable_states v ≠ Raise).
  { intros v Hdef.
    split; [now apply (required_fields_no_raise v root)|].
    assert (Hdetect : _detect_unreachable_states v ≠ Raise).
    { apply (detect_unreachable_no_raise v root Hdef Hstart).
      destruct (dict_lookup "States" root) as [[| | | | | |states]|];
        try discriminate; [|exact I].
      split; apply (typed_states_all _ states); try exact Hstates;
        intros d Hd; apply typed_state_parts in Hd; tauto. }
    revert Hdetect.
    unfold _validate_start_at, _validate_states,
      _validate_state_references, _validate_terminal_states,
      _check_cross_account_patterns.
    generalize (_detect_unreachable_states v). intros detect Hdetect.
    rewrite Hdef. cbv zeta. simpl. unfold dict_has, dict_get.
    destruct (dict_lookup "States" root) as [states|] eqn:Hs.
    2:{ destruct (dict_lookup "StartAt" root); simpl;
          repeat split; try discriminate; exact Hdetect. }
    destruct states as [| | | | | |states]; try discriminate.
    assert (Hsplit : ∀ P, (∀ d, typed_state d = true → P d = true) →
                          all_states P states)
      by (intros P HP; now apply typed_states_all).
    pose proof (Hsplit typed_tags
                  (λ d H, proj1 (typed_state_parts d H))) as Htags.
    pose proof (Hsplit typed_edges
                  (λ d H, proj1 (proj2 (typed_state_parts d H)))) as Hedges.
    pose proof (Hsplit typed_branches
                  (λ d H, proj1 (proj2 (proj2 (typed_state_parts d H)))))
      as Hbranches.
    split.
    { destruct (dict_lookup "StartAt" root) as [[| | | |start| |]|];
        try discriminate; simpl.
      destruct (negb (dict_has start states)); discriminate. }
    split.
    { simpl. apply rfold_no_raise. intros acc [name sd] Hin.
      apply validate_state_no_raise. intros d ->.
      eapply typed_states_elem; eauto. }
    split.
    { simpl. rewrite validate_references_typed by exact Hedges.
      discriminate. }
    split.
    { simpl. rewrite (terminal_scan _ Htags). simpl.
      destruct (map _ _); discriminate. }
    split; [|exact Hdetect].
    simpl. apply bind_no_raise; [|intros [? ?] _; destruct (_ <? _)%nat;
                                  discriminate].
    apply rfold_no_raise. intros acc [name sd] Hin.
    apply (cross_account_no_raise v). intros d ->.
    eapply typed_states_elem; eauto. }
  apply bind_no_raise; [now apply Hstage|]. intros v1 E1.
  pose proof (wp_elim _ _ _ (required_fields_keeps _) E1) as (Hd1 & _).
  rewrite Hdef0 in Hd1.
  apply bind_no_raise; [now apply Hstage|]. intros v2 E2.
  pose proof (wp_elim _ _ _ (start_at_keeps _) E2) as (Hd2 & _).
  rewrite Hd1 in Hd2.
  apply bind_no_raise; [now apply Hstage|]. intros v3 E3.
  pose proof (wp_elim _ _ _ (states_keeps _) E3) as (Hd3 & _).
  rewrite Hd2 in Hd3.
  apply bind_no_raise; [now apply Hstage|]. intros v4 E4.
  pose proof (wp_elim _ _ _ (state_references_keeps _) E4) as (Hd4 & _).
  rewrite Hd3 in Hd4.
  apply bind_no_raise; [now apply Hstage|]. intros v5 E5.
  pose proof (wp_elim _ _ _ (terminal_states_keeps _) E5) as (Hd5 & _).
  rewrite Hd4 in Hd5.
  apply bind_no_raise; [now apply Hstage|]. intros v6 E6.
  pose proof (wp_elim _ _ _ (unreachable_states_keeps _) E6) as (Hd6 & _).
  rewrite Hd5 in Hd6.
  apply bind_no_raise; [now apply Hstage|]. intros v7 E7.
  discriminate.
Qed.

(** X3. On a document typed as in the data model (an object; [StartAt] a
    string and [States] an object where present; in each state that is an
    object, [Type] a scalar, [End] a boolean, targets strings, [Choices]
    and [Catch] sequences of objects, [Branches] a sequence, [Credentials]
    an object)
    [validate] always returns: no exception propagates. States that are
    not objects, unknown types and missing fields are all reported, not
    raised. *)
Theorem validate_returns_on_typed_document (self : validator)
    (document : json) :
  typed_document document = true →
  read_json (file_path self) = Loaded document →
  ∃ b v, validate self = Ok (b, v).
Proof. no_env.
  intros Htyped Hread.
  pose proof (validate_no_raise self document Htyped Hread) as Hraise.
  pose proof (validate_fuel self) as Hfuel.
  destruct (validate self) as [[b v]| |]; [eauto|congruence|congruence].
Qed.

(** *** The cross-account check *)

Lemma with_warnings_app (a b : list string) (self : validator) :
  with_warnings b (with_warnings a self) = with_warnings (a ++ b) self.
Proof. no_env. unfold with_warnings. simpl. now rewrite app_assoc. Qed.

Lemma cross_account_scan (items : list (string * json)) :
  all_states typed_credentials items →
  ∀ self n,
    rfold (fun '(self, credentials_count) '(state_name, state_def) =>
             match state_def with
             | JObj state_def =>
                 if dict_has "Credentials" state_def
                 then
                   creds ← py_getitem (JObj state_def) "Credentials";
                   has_role ← py_in (JStr "RoleArn") creds;
                   has_path ← (if has_role : bool then Ok true
                               else py_in (JStr "RoleArn.$") creds);
                   Ok (if negb has_role && negb has_path
                       then add_warning ("State '" +:+ state_name
                              +:+ "' has Credentials but no RoleArn") self
                       else self,
                       S credentials_count)
                 else Ok (self, credentials_count)
             | _ => Ok (self, credentials_count)
             end) (self, n) items
    = Ok (with_warnings
            (map credentials_msg
                 (map fst (List.filter (λ item, lacks_role (snd item)) items)))
            self,
          n + length (List.filter (λ item, has_credentials (snd item)) items)).
Proof. no_env.
  induction items as [|[name sd] items IH]; intros Htyped self n.
  - simpl. now rewrite with_warnings_nil, Nat.add_0_r.
  - assert (Hrest : all_states typed_credentials items).
    { intros k d Hin. apply (Htyped k d). now right. }
    rewrite rfold_cons.
    destruct sd as [| | | | | |d]; simpl; try (now apply IH).
    assert (Hd : typed_credentials d = true) by (apply (Htyped name d); left).
    unfold typed_credentials in Hd. unfold dict_has.
    destruct (dict_lookup "Credentials" d) as [[| | | | | |creds]|];
      try discriminate; simpl.
    + unfold dict_has.
      destruct (dict_lookup "RoleArn" creds); simpl.
      * rewrite IH by exact Hrest. f_equal. f_equal. lia.
      * destruct (dict_lookup "RoleArn.$" creds); simpl;
          rewrite IH by exact Hrest.
        -- f_equal. f_equal. lia.
        -- change (add_warning ("State '" +:+ name
                     +:+ "' has Credentials but no RoleArn") self)
             with (with_warnings [credentials_msg name] self).
           rewrite with_warnings_app. simpl. f_equal. f_equal. lia.
    + now apply IH.
Qed.

(** X4. When [Credentials], where a state has it, is an object, the
    cross-account check never touches the errors; it warns, in state
    order, about exactly the states whose [Credentials] has neither
    [RoleArn] nor [RoleArn.$]; and it adds the one info line exactly when
    some state has [Credentials], with the number of such states, whether
    they have a role or not. *)
Theorem cross_account_counts_credentials (self : validator)
    (root states : list (string * json)) :
  definition self = JObj root →
  dict_lookup "States" root = Some (JObj states) →
  all_states typed_credentials states →
  let lacking := map fst (List.filter (λ item, lacks_role (snd item)) states) in
  let count := length (List.filter (λ item, has_credentials (snd item))
                                   states) in
  _check_cross_account_patterns self
  = Ok (with_info (if Nat.ltb 0 count then [cross_account_msg count] else [])
          (with_warnings (map credentials_msg lacking) self))
  ∧ (length lacking ≤ count)%nat.
Proof. no_env.
  intros Hdef Hstates Htyped. cbv zeta. split.
  - unfold _check_cross_account_patterns. rewrite Hdef. simpl.
    unfold dict_get. rewrite Hstates. simpl.
    rewrite (cross_account_scan _ Htyped). simpl.
    destruct (length _) as [|n]; simpl.
    + unfold with_info. simpl. rewrite app_nil_r. reflexivity.
    + reflexivity.
  - rewrite length_map. clear. induction states as [|[name sd] states IH];
      simpl; [lia|].
    assert (Himp : lacks_role sd = true → has_credentials sd = true).
    { destruct sd as [| | | | | |d]; simpl; try discriminate.
      unfold dict_has.
      destruct (dict_lookup "Credentials" d); [reflexivity|discriminate]. }
    destruct (lacks_role sd); simpl.
    + rewrite Himp by reflexivity. simpl. lia.
    + destruct (has_credentials sd); simpl; lia.
Qed.

(** *** What the reachability stage warns about, on any states *)

Lemma detect_unreachable_result (self self' : validator)
    (root states : list (string * json)) (s : string) :
  definition self = JObj root →
  dict_lookup "States" root = Some (JObj states) →
  dict_lookup "StartAt" root = Some (JStr s) →
  _detect_unreachable_states self = Ok self' →
  self' = self
  ∨ ∃ R, bfs (bfs_fuel states) states ∅ [JStr s] = Ok R
         ∧ self' = with_warnings
                     (map unreachable_msg
                        (set_iter (list_to_set (dict_keys states) ∖ R)))
                     self.
Proof. no_env.
  intros Hdef Hstates Hstart Hrun.
  destruct states as [|item states'] eqn:Hst.
  { left. unfold _detect_unreachable_states in Hrun. rewrite Hdef in Hrun.
    cbn [py_get mbind result_bind] in Hrun. unfold dict_get in Hrun.
    rewrite Hstates, Hstart in Hrun. simpl in Hrun. congruence. }
  destruct (String.eqb_spec s "") as [->|Hs].
  { left. unfold _detect_unreachable_states in Hrun. rewrite Hdef in Hrun.
    cbn [py_get mbind result_bind] in Hrun. unfold dict_get in Hrun.
    rewrite Hstates, Hstart in Hrun. cbn [truthy negb String.eqb orb] in Hrun.
    congruence. }
  rewrite <- Hst in *. right.
  rewrite (detect_unreachable_unfold _ root states s) in Hrun; auto;
    [|congruence].
  apply bind_Ok in Hrun as (R & Hbfs & Hrun). injection Hrun as <-.
  eauto.
Qed.

(** X5. Whatever the states hold, when the reachability stage returns it
    has only appended unreachable warnings, for distinct keys of [States];
    the state that [StartAt] names is never among them, and neither is a
    state listed as a target by a state that is not warned. *)
Theorem unreachable_warnings_sound (self self' : validator)
    (root states : list (string * json)) (s : string) :
  definition self = JObj root →
  dict_lookup "States" root = Some (JObj states) →
  dict_lookup "StartAt" root = Some (JStr s) →
  _detect_unreachable_states self = Ok self' →
  ∃ warned,
    self' = with_warnings (map unreachable_msg warned) self
    ∧ NoDup warned
    ∧ (∀ name, name ∈ warned → name ∈ dict_keys states)
    ∧ (s ∉ warned)
    ∧ (warned ≠ [] →
       ∀ name state_def next target,
         name ∈ dict_keys states →
         name ∉ warned →
         dict_lookup name states = Some (JObj state_def) →
         next_states_of state_def = Ok next →
         JStr target ∈ next →
         target ∉ warned).
Proof. keep_perm.
  intros Hdef Hstates Hstart Hrun.
  destruct (detect_unreachable_result _ _ _ _ _ Hdef Hstates Hstart Hrun)
    as [->|(R & Hbfs & ->)].
  - exists []. rewrite with_warnings_nil.
    repeat split; try constructor; try (intros ? H; now apply not_elem_of_nil in H).
    + apply not_elem_of_nil.
    + congruence.
  - exists (set_iter (list_to_set (dict_keys states) ∖ R)).
    destruct (bfs_complete _ _ _ _ _ Hbfs) as (_ & Hq & Hcl).
    assert (Hcl' : closed_under_next states (λ k, k ∈ R))
      by (apply Hcl; set_solver).
    split; [reflexivity|]. split; [apply set_iter_NoDup|].
    split; [|split].
    + intros name. rewrite elem_of_set_iter, elem_of_difference.
      rewrite elem_of_list_to_set. tauto.
    + rewrite elem_of_set_iter, elem_of_difference, elem_of_list_to_set.
      intros [Hkey Hnot]. apply Hnot, Hq; [left|].
      now apply dict_has_keys.
    + intros _ name sd next target Hkey Hname Hl Hnext Hin.
      rewrite elem_of_set_iter, elem_of_difference, elem_of_list_to_set
        in Hname |- *.
      intros [Htkey Htnot]. apply Htnot.
      apply (Hcl' name sd next target); auto.
      * destruct (decide (name ∈ R)); [assumption|tauto].
      * now apply dict_has_keys.
Qed.

(** *** The driver *)

Lemma is_valid_passes (strict : bool) (b : bool) (v : validator) :
  (if strict then b && Nat.eqb (length (warnings v)) 0 else b)
  = passes strict (b, v).
Proof. no_env.
  unfold passes. simpl. destruct strict; [reflexivity|].
  now rewrite andb_true_r.
Qed.

Lemma main_step_eq (strict quiet verbose : bool) (t : tally)
    (path : string) :
  main_step strict quiet verbose t path
  = match validate (init path) with
    | Ok r =>
        Ok (mkTally (total_errors t + length (errors (snd r)))
                    (total_warnings t + length (warnings (snd r)))
                    (if negb (passes strict r) then failed_files t ++ [path]
                     else failed_files t)
                    (if negb quiet || negb (passes strict r)
                     then printed t ++ [report (snd r) verbose; ""]
                     else printed t))
    | Raise => Raise
    | OutOfFuel => OutOfFuel
    end.
Proof. no_env.
  unfold main_step.
  destruct (validate (init path)) as [[b v]| |]; simpl; [|reflexivity..].
  now rewrite is_valid_passes.
Qed.

Lemma main_step_Ok (strict quiet verbose : bool) (t t' : tally)
    (path : string) :
  main_step strict quiet verbose t path = Ok t' →
  ∃ r, validate (init path) = Ok r
       ∧ t' = mkTally (total_errors t + length (errors (snd r)))
                      (total_warnings t + length (warnings (snd r)))
                      (if negb (passes strict r) then failed_files t ++ [path]
                       else failed_files t)
                      (if negb quiet || negb (passes strict r)
                       then printed t ++ [report (snd r) verbose; ""]
                       else printed t).
Proof. no_env.
  rewrite main_step_eq.
  destruct (validate (init path)) as [r| |]; intros H; try discriminate.
  injection H as <-. eauto.
Qed.

Lemma main_loop_from (strict quiet verbose : bool) (files : list string) :
  ∀ t0 t,
    rfold (main_step strict quiet verbose) t0 files = Ok t →
    ∃ results,
      Forall2 (λ path r, validate (init path) = Ok r) files results
      ∧ failed_files t
        = failed_files t0
          ++ map fst (List.filter (λ pr, negb (passes strict (snd pr)))
                                  (zip files results))
      ∧ total_errors t
        = total_errors t0
          + sum_list (map (λ r, length (errors (snd r))) results)
      ∧ total_warnings t
        = total_warnings t0
          + sum_list (map (λ r, length (warnings (snd r))) results)
      ∧ printed t
        = printed t0
          ++ concat (map (λ r, if negb quiet || negb (passes strict r)
                               then [report (snd r) verbose; ""] else [])
                         results).
Proof. no_env.
  induction files as [|path files IH]; intros t0 t Hrun.
  - simpl in Hrun. injection Hrun as <-. exists [].
    split; [constructor|]. simpl. rewrite !app_nil_r. repeat split; lia.
  - rewrite rfold_cons in Hrun.
    apply bind_Ok in Hrun as (t1 & Hstep & Hrun).
    apply main_step_Ok in Hstep as (r & Hv & ->).
    apply IH in Hrun as (results & Hall & Hfailed & Herrors & Hwarnings & Hout).
    exists (r :: results). split; [now constructor|].
    simpl in *. rewrite Hfailed, Herrors, Hwarnings, Hout.
    destruct (passes strict r); simpl.
    + repeat split; try lia.
      destruct (negb quiet); simpl; [|reflexivity].
      now rewrite <- app_assoc.
    + rewrite orb_true_r. rewrite <- !app_assoc. repeat split; lia.
Qed.

(** X6. When the loop of [main] over the files returns, every file was
    validated once, in order; the failed files are exactly the files whose
    result does not pass (an error, or under [--strict] a warning), in the
    order of the run; the totals are the sums of the errors and of the
    warnings of all files, passed or not; a report was printed for each
    file, or under [--quiet] for the failed ones only; and there are no
    more failed files than files, so that the count of the files passed in
    the summary is not negative. *)
Theorem main_loop_accounting (strict quiet verbose : bool)
    (asl_files : list string) (t : tally) :
  main_loop strict quiet verbose asl_files = Ok t →
  ∃ results,
    Forall2 (λ path r, validate (init path) = Ok r) asl_files results
    ∧ failed_files t
      = map fst (List.filter (λ pr, negb (passes strict (snd pr)))
                             (zip asl_files results))
    ∧ total_errors t = sum_list (map (λ r, length (errors (snd r))) results)
    ∧ total_warnings t
      = sum_list (map (λ r, length (warnings (snd r))) results)
    ∧ printed t
      = concat (map (λ r, if negb quiet || negb (passes strict r)
                          then [report (snd r) verbose; ""] else [])
                    results)
    ∧ (length (failed_files t) ≤ length asl_files)%nat.
Proof. no_env.
  unfold main_loop. intros Hrun.
  apply main_loop_from in Hrun as (results & Hall & H1 & H2 & H3 & H4).
  exists results. simpl in *. repeat split; auto.
  rewrite H1, length_map.
  etrans; [apply List.filter_length_le|].
  rewrite length_zip. lia.
Qed.



Lemma main_Ok (strict quiet verbose : bool) (files : list string)
    (found : list (string * list string)) (code : nat) (out : list string) :
  main strict quiet verbose files found = Ok (code, out) →
  let asl_files := if truthy_list files then files
                   else find_asl_files found in
  (asl_files = [] ∧ code = 0
   ∧ out = if negb quiet then ["No .asl.json files found"] else [])
  ∨ ∃ t, main_loop strict quiet verbose asl_files = Ok t
         ∧ code = (if truthy_list (failed_files t) then 1 else 0)
         ∧ (quiet = true → out = printed t).
Proof. no_env.
  unfold main. cbv zeta.
  destruct (if truthy_list files then files else find_asl_files found)
    as [|path asl_files] eqn:Hfiles.
  - simpl. intros H. injection H as <- <-. left. auto.
  - cbn [truthy_list negb]. intros H.
    apply bind_Ok in H as (t & Hloop & H). right. exists t.
    split; [exact Hloop|].
    destruct (truthy_list (failed_files t)); injection H as <- <-;
      (split; [reflexivity|]); intros ->; simpl; now rewrite !app_nil_r.
Qed.

Lemma filter_failed_nil (strict : bool) (files : list string)
    (results : list (bool * validator)) :
  length files = length results →
  map fst (List.filter (λ pr : string * (bool * validator),
                          negb (passes strict (snd pr)))
                       (zip files results)) = [] →
  Forall (λ r, passes strict r = true) results.
Proof. no_env.
  revert results. induction files as [|path files IH];
    intros [|r results] Hlen Hnil; try discriminate; [constructor|].
  simpl in Hnil. destruct (passes strict r) eqn:Hr; simpl in Hnil;
    [|discriminate].
  constructor; [exact Hr|]. apply IH; [simpl in Hlen; lia|exact Hnil].
Qed.

(** X8. The exit status of [main] is 0 or 1; it is 0 exactly when every
    file validated passes: no error, and under [--strict] no warning. *)
Theorem main_exit_status (strict quiet verbose : bool) (files : list string)
    (found : list (string * list string)) (code : nat) (out : list string) :
  main strict quiet verbose files found = Ok (code, out) →
  let asl_files := if truthy_list files then files
                   else find_asl_files found in
  (code = 0
   ∧ ∀ path, path ∈ asl_files →
       ∃ r, validate (init path) = Ok r ∧ passes strict r = true)
  ∨ (code = 1
     ∧ ∃ path r, path ∈ asl_files ∧ validate (init path) = Ok r
                 ∧ passes strict r = false).
Proof. no_env.
  intros Hmain. apply main_Ok in Hmain. cbv zeta in *.
  destruct Hmain as [(-> & -> & _)|(t & Hloop & -> & _)].
  - left. split; [reflexivity|]. intros path H. now apply not_elem_of_nil in H.
  - unfold main_loop in Hloop.
    apply main_loop_from in Hloop as (results & Hall & Hfailed & _).
    simpl in Hfailed.
    destruct (failed_files t) as [|path failed] eqn:Ht; simpl.
    + left. split; [reflexivity|]. intros path Hpath.
      symmetry in Hfailed.
      apply filter_failed_nil in Hfailed;
        [|exact (Forall2_length _ _ _ Hall)].
      clear -Hall Hfailed Hpath.
      induction Hall as [|p r ps rs Hp Hall IH];
        [now apply not_elem_of_nil in Hpath|].
      apply Forall_cons in Hfailed as [Hr Hrs].
      apply elem_of_cons in Hpath as [->|Hpath]; eauto.
    + right. split; [reflexivity|].
      assert (Hin : path ∈ map fst
                (List.filter (λ pr : string * (bool * validator),
                                negb (passes strict (snd pr)))
                             (zip (if truthy_list files then files
                                   else find_asl_files found) results)))
        by (rewrite <- Hfailed; left).
      apply list_elem_of_In, in_map_iff in Hin as ([p r] & <- & Hin).
      apply filter_In in Hin as [Hin Hr]. simpl in *.
      exists p, r. apply negb_true_iff in Hr.
      clear -Hall Hin Hr. revert Hin.
      induction Hall as [|p' r' ps rs Hp Hall IH]; simpl; [tauto|].
      intros [Heq|Hin].
      * injection Heq as -> ->. split; [left|]. auto.
      * destruct (IH Hin) as (H1 & H2 & H3). split; [now right|]. auto.
Qed.

(** X9. A run with [--quiet] that exits with status 0 prints nothing. *)
Theorem quiet_success_is_silent (strict verbose : bool) (files : list string)
    (found : list (string * list string)) (out : list string) :
  main strict true verbose files found = Ok (0, out) → out = [].
Proof. no_env.
  intros Hmain. apply main_Ok in Hmain. cbv zeta in *.
  destruct Hmain as [(_ & _ & ->)|(t & Hloop & Hcode & Hout)];
    [reflexivity|].
  rewrite Hout by reflexivity. unfold main_loop in Hloop.
  apply main_loop_from in Hloop as (results & Hall & Hfailed & _ & _ & ->).
  simpl in *.
  destruct (failed_files t) eqn:Ht; [|discriminate].
  symmetry in Hfailed.
  apply filter_failed_nil in Hfailed; [|exact (Forall2_length _ _ _ Hall)].
  clear -Hfailed. induction Hfailed as [|r rs Hr _ IH]; [reflexivity|].
  simpl. now rewrite Hr.
Qed.

Lemma passes_strict (r : bool * validator) :
  passes true r = true → passes false r = true.
Proof. no_env.
  unfold passes. intros H. apply andb_true_iff in H as [-> _]. reflexivity.
Qed.

(** X10. [--strict] only adds failures: when a strict run exits with
    status 0, so does the run on the same files without [--strict],
    whatever its other flags. *)
Theorem strict_success_implies_success (quiet verbose quiet' verbose' : bool)
    (files : list string) (found : list (string * list string))
    (out : list string) :
  main true quiet verbose files found = Ok (0, out) →
  ∃ out', main false quiet' verbose' files found = Ok (0, out').
Proof. no_env.
  intros Hmain. unfold main in *.
  destruct (if truthy_list files then files else find_asl_files found)
    as [|path asl_files] eqn:Hfiles; simpl in *; [eauto|].
  apply bind_Ok in Hmain as (t & Hloop & Hmain).
  destruct (failed_files t) eqn:Ht; simpl in Hmain; [|discriminate].
  unfold main_loop in *.
  assert (Hgen : ∀ files t0 t0' t,
    failed_files t0' = [] →
    rfold (main_step true quiet verbose) t0 files = Ok t →
    failed_files t = [] →
    ∃ t', rfold (main_step false quiet' verbose') t0' files = Ok t'
          ∧ failed_files t' = []).
  { clear. induction files as [|p files IH]; intros t0 t0' t H0 Hrun Hnil.
    - simpl. eauto.
    - rewrite rfold_cons in Hrun |- *.
      apply bind_Ok in Hrun as (t1 & Hstep & Hrun).
      pose proof Hrun as Hrest.
      apply main_loop_from in Hrest as (results & _ & Hfailed & _).
      apply main_step_Ok in Hstep as (r & Hv & ->). simpl in Hfailed.
      rewrite Hnil in Hfailed. symmetry in Hfailed.
      apply app_eq_nil in Hfailed as [Hfailed _].
      destruct (passes true r) eqn:Hr; simpl in Hfailed;
        [|now apply app_singleton_neq_nil in Hfailed].
      rewrite main_step_eq, Hv. cbn [mbind result_bind].
      rewrite (passes_strict _ Hr). cbn [negb].
      eapply IH; [|exact Hrun|exact Hnil]. simpl. exact H0. }
  destruct (Hgen _ (mkTally 0 0 [] []) (mkTally 0 0 [] []) t eq_refl Hloop Ht)
    as (t' & -> & Ht').
  simpl. rewrite Ht'. simpl. eauto.
Qed.



(** *** A document found valid is well formed *)

Lemma errors_squeeze (a b c : validator) :
  errors a `prefix_of` errors b →
  errors b `prefix_of` errors c →
  errors c = errors a →
  errors b = errors a ∧ errors c = errors b.
Proof. no_env.
  intros Hab Hbc Hca. rewrite Hca in Hbc.
  assert (errors a = errors b).
  { apply prefix_length_eq; [exact Hab|]. now apply prefix_length. }
  split; congruence.
Qed.

Lemma add_error_changes (msg : string) (self self' : validator) :
  errors self `prefix_of` errors self' →
  errors (add_error msg self') ≠ errors self.
Proof. no_env.
  intros Hp Heq. apply prefix_length in Hp.
  apply (f_equal length) in Heq. simpl in Heq. rewrite length_app in Heq.
  simpl in Heq. lia.
Qed.

Lemma rfold_errors_prefix {B} (body : validator → B → result validator)
    (l : list B) :
  (∀ acc x acc', body acc x = Ok acc' → errors acc `prefix_of` errors acc') →
  ∀ self self', rfold body self l = Ok self' →
                errors self `prefix_of` errors self'.
Proof. no_env.
  intros Hbody. induction l as [|x l IH]; intros self self' Hrun.
  - simpl in Hrun. now injection Hrun as <-.
  - rewrite rfold_cons in Hrun. apply bind_Ok in Hrun as (acc & Hx & Hrun).
    etrans; [exact (Hbody _ _ _ Hx)|exact (IH _ _ Hrun)].
Qed.

Lemma rfold_clean {B} (body : validator → B → result validator)
    (Q : B → Prop) (l : list B) :
  (∀ acc x acc', body acc x = Ok acc' → errors acc `prefix_of` errors acc') →
  (∀ acc x acc', body acc x = Ok acc' → errors acc' = errors acc → Q x) →
  ∀ self self', rfold body self l = Ok self' →
                errors self' = errors self → Forall Q l.
Proof. no_env.
  intros Hkeep Hbody. induction l as [|x l IH]; intros self self' Hrun Herr.
  - constructor.
  - rewrite rfold_cons in Hrun. apply bind_Ok in Hrun as (acc & Hx & Hrun).
    destruct (errors_squeeze self acc self') as [H1 H2]; auto.
    { exact (Hkeep _ _ _ Hx). }
    { exact (rfold_errors_prefix body l Hkeep _ _ Hrun). }
    constructor; [exact (Hbody _ _ _ Hx H1)|exact (IH _ _ Hrun H2)].
Qed.

Lemma Forall_enumerate {A} (P : A → Prop) (l : list A) :
  Forall (λ p, P (snd p)) (enumerate l) → Forall P l.
Proof. no_env.
  unfold enumerate. generalize 0 as k.
  induction l as [|x l IH]; intros k H; [constructor|].
  simpl in H. apply Forall_cons in H as [Hx H].
  constructor; [exact Hx|exact (IH _ H)].
Qed.

Lemma keeps_errors (a b : validator) :
  keeps a b → errors a `prefix_of` errors b.
Proof. no_env. now intros (_ & _ & H & _). Qed.

Lemma required_fields_clean (self self' : validator) :
  _validate_required_fields self = Ok self' →
  errors self' = errors self →
  ∃ root states,
    definition self = JObj root
    ∧ dict_lookup "States" root = Some (JObj states)
    ∧ states ≠ []
    ∧ dict_has "StartAt" root = true.
Proof. no_env.
  unfold _validate_required_fields. intros Hrun Herr.
  destruct (definition self) as [| | | |s|l|root] eqn:Hdef;
    try discriminate.
  - (* a string *)
    simpl in Hrun.
    destruct (is_substring "StartAt" s); simpl in Hrun; rewrite Hdef in Hrun;
      simpl in Hrun; destruct (is_substring "States" s); simpl in Hrun;
      try discriminate; injection Hrun as <-;
      exfalso; revert Herr; simpl.
    + apply app_singleton_neq_self.
    + intros H. apply (f_equal length) in H. rewrite !length_app in H.
      simpl in H. lia.
  - (* a list *)
    simpl in Hrun.
    destruct (existsb _ l); simpl in Hrun; rewrite Hdef in Hrun;
      simpl in Hrun; destruct (existsb _ l); simpl in Hrun;
      try discriminate; injection Hrun as <-;
      exfalso; revert Herr; simpl.
    + apply app_singleton_neq_self.
    + intros H. apply (f_equal length) in H. rewrite !length_app in H.
      simpl in H. lia.
  - simpl in Hrun. exists root.
    destruct (dict_has "StartAt" root) eqn:Hstart; simpl in Hrun;
      rewrite Hdef in Hrun; simpl in Hrun; unfold dict_has in Hrun;
      destruct (dict_lookup "States" root) as [states|]; simpl in Hrun;
      try (injection Hrun as <-; exfalso; revert Herr; simpl;
           first [ apply app_singleton_neq_self
                 | intros H; apply (f_equal length) in H;
                   rewrite !length_app in H; simpl in H; lia ]).
    + destruct states as [| | | | | |[|item states]];
        injection Hrun as <-;
        try (exfalso; revert Herr; simpl; apply app_singleton_neq_self).
      exists (item :: states). repeat split; auto; discriminate.
    + destruct states as [| | | | | |[|item states]];
        injection Hrun as <-;
        exfalso; revert Herr; simpl;
        intros H; apply (f_equal length) in H;
        rewrite ?length_app in H; simpl in H; lia.
Qed.

Lemma start_at_clean (self self' : validator)
    (root states : list (string * json)) :
  definition self = JObj root →
  dict_lookup "States" root = Some (JObj states) →
  dict_has "StartAt" root = true →
  _validate_start_at self = Ok self' →
  errors self' = errors self →
  ∃ start, dict_lookup "StartAt" root = Some (JStr start)
           ∧ dict_has start states = true.
Proof. no_env.
  intros Hdef Hstates Hhas. unfold _validate_start_at. rewrite Hdef. simpl.
  rewrite Hhas. simpl. unfold dict_has at 1. rewrite Hstates. simpl.
  unfold dict_has in Hhas. unfold dict_get. rewrite Hstates.
  destruct (dict_lookup "StartAt" root) as [start_at|]; [|discriminate].
  simpl. destruct (hashable start_at); simpl; [|discriminate].
  intros Hrun Herr.
  destruct start_at as [| | | |start| |]; simpl in Hrun;
    try (injection Hrun as <-; exfalso; revert Herr; simpl;
         apply app_singleton_neq_self).
  destruct (dict_has start states) eqn:Hfound; simpl in Hrun.
  - eauto.
  - injection Hrun as <-. exfalso. revert Herr. simpl.
    apply app_singleton_neq_self.
Qed.

Lemma choice_state_clean (name : string) (d : list (string * json))
    (self self' : validator) :
  _validate_choice_state name d self = Ok self' →
  errors self' = errors self →
  ∃ choices, dict_lookup "Choices" d = Some (JArr choices)
             ∧ choices ≠ []
             ∧ Forall (λ choice, py_in (JStr "Next") choice = Ok true) choices.
Proof. no_env.
  unfold _validate_choice_state, dict_has. simpl.
  destruct (dict_lookup "Choices" d) as [choices|]; simpl.
  2:{ intros H Herr. injection H as <-.
      now apply app_singleton_neq_self in Herr. }
  destruct choices as [| | | | |choices|];
    try (intros H Herr; injection H as <-;
         now apply app_singleton_neq_self in Herr).
  intros Hrun Herr. apply bind_Ok in Hrun as (self2 & Hloop & Hrun).
  assert (Herr2 : errors self' = errors self2)
    by (injection Hrun as <-; now destruct (dict_lookup "Default" d)).
  set (self1 := if Nat.eqb (length choices) 0 then _ else self) in Hloop.
  assert (Hkeep : ∀ acc (x : nat * json) acc',
    (let '(i, choice) := x in
     py_in (JStr "Next") choice ≫= λ has_next : bool,
       Ok (if negb has_next
           then add_error ("Choice state '" +:+ name +:+ "' choice["
                           +:+ str_of_nat i +:+ "] missing 'Next' field") acc
           else acc)) = Ok acc' →
    errors acc `prefix_of` errors acc').
  { intros acc [i choice] acc' H. apply bind_Ok in H as ([] & _ & H);
      injection H as <-; simpl; [reflexivity|now apply prefix_app_r]. }
  destruct (errors_squeeze self self1 self2) as [H1 H2].
  { subst self1. destruct (Nat.eqb _ 0); simpl;
      [now apply prefix_app_r|reflexivity]. }
  { eapply rfold_errors_prefix; [|exact Hloop].
    intros acc x acc'. destruct x as [i choice]. apply (Hkeep acc (i, choice)). }
  { congruence. }
  exists choices. split; [reflexivity|]. split.
  - intros ->. subst self1. simpl in H1.
    now apply app_singleton_neq_self in H1.
  - apply Forall_enumerate.
    eapply (rfold_clean _ (λ p, py_in (JStr "Next") (snd p) = Ok true));
      [| |exact Hloop|exact H2].
    + intros acc x acc'. destruct x as [i choice].
      apply (Hkeep acc (i, choice)).
    + intros acc [i choice] acc' H Hsame.
      apply bind_Ok in H as ([] & Hin & H); [exact Hin|].
      injection H as <-. now apply app_singleton_neq_self in Hsame.
Qed.

Lemma parallel_state_clean (name : string) (d : list (string * json))
    (self self' : validator) :
  _validate_parallel_state name d self = Ok self' →
  errors self' = errors self →
  ∃ branch branches, dict_lookup "Branches" d = Some (JArr (branch :: branches)).
Proof. no_env.
  unfold _validate_parallel_state, dict_has. simpl.
  destruct (dict_lookup "Branches" d) as [[| | | | |[|branch branches]|]|];
    simpl; try (intros H Herr; injection H as <-;
                now apply app_singleton_neq_self in Herr).
  eauto.
Qed.

Lemma valid_state_types (ty : string) :
  ty ∈ VALID_STATE_TYPES →
  ty = "Task" ∨ ty = "Pass" ∨ ty = "Choice" ∨ ty = "Wait" ∨ ty = "Succeed"
  ∨ ty = "Fail" ∨ ty = "Parallel" ∨ ty = "Map".
Proof. no_env.
  unfold VALID_STATE_TYPES. rewrite elem_of_list_to_set.
  rewrite !elem_of_cons. intros H.
  repeat (destruct H as [H|H]; [tauto|]). now apply not_elem_of_nil in H.
Qed.

Lemma validate_state_clean (self self' : validator) (item : string * json) :
  validate_state self item = Ok self' →
  errors self' = errors self →
  state_shape (snd item).
Proof. no_env.
  destruct item as [name sd]. unfold validate_state.
  destruct sd as [| | | | | |d];
    try (intros H Herr; injection H as <-;
         now apply app_singleton_neq_self in Herr).
  cbv zeta. intros Hrun Herr.
  destruct (negb (truthy (dict_get "Type" JNull d))).
  { injection Hrun as <-. now apply app_singleton_neq_self in Herr. }
  apply bind_Ok in Hrun as (valid & Hvalid & Hrun).
  destruct valid; simpl in Hrun.
  2:{ injection Hrun as <-. now apply app_singleton_neq_self in Herr. }
  unfold set_has in Hvalid.
  destruct (dict_get "Type" JNull d) as [| | | |ty| |] eqn:Htype;
    try discriminate.
  simpl in Hvalid. injection Hvalid as Hvalid.
  apply bool_decide_eq_true in Hvalid.
  assert (Hlookup : dict_lookup "Type" d = Some (JStr ty)).
  { unfold dict_get in Htype. destruct (dict_lookup "Type" d); congruence. }
  apply bind_Ok in Hrun as (no_transition & Hno & Hrun).
  simpl in Hno. injection Hno as <-.
  set (self1 := if negb (bool_decide (ty ∈ NO_TRANSITION_TYPES)) then _
                else self) in Hrun.
  assert (Hp1 : errors self `prefix_of` errors self1).
  { subst self1. destruct (negb _); [|reflexivity].
    destruct (_ && _); simpl; [now apply prefix_app_r|reflexivity]. }
  assert (Hp2 : errors self1 `prefix_of` errors self').
  { apply keeps_errors.
    repeat match type of Hrun with
    | (if ?c then _ else _) = _ => destruct c
    end.
    - exact (wp_elim _ _ _ (choice_state_keeps name d self1 self1
                              (keeps_refl _)) Hrun).
    - injection Hrun as <-. unfold _validate_task_state. cbv zeta.
      repeat keep_step.
    - injection Hrun as <-. unfold _validate_wait_state. cbv zeta.
      repeat keep_step.
    - injection Hrun as <-. unfold _validate_map_state. cbv zeta.
      repeat keep_step.
    - exact (wp_elim _ _ _ (parallel_state_keeps name d self1 self1
                              (keeps_refl _)) Hrun).
    - injection Hrun as <-. apply keeps_refl. }
  destruct (errors_squeeze self self1 self' Hp1 Hp2 Herr) as [H1 H2].
  exists d, ty. split; [reflexivity|]. split; [exact Hlookup|].
  split; [exact Hvalid|]. split.
  - intros Hnot. subst self1.
    rewrite bool_decide_eq_false_2 in H1 by exact Hnot. simpl in H1.
    destruct (truthy (dict_get "End" (JBool false) d)); [now left|].
    destruct (dict_has "Next" d); [now right|].
    simpl in H1. now apply app_singleton_neq_self in H1.
  - clearbody self1. unfold type_rule.
    apply valid_state_types in Hvalid.
    destruct Hvalid as [->|[->|[->|[->|[->|[->|[->| ->]]]]]]];
      simpl in Hrun; repeat split; try discriminate; intros _.
    + injection Hrun as <-. unfold _validate_task_state in H2.
      destruct (dict_has "Resource" d); [reflexivity|].
      cbv zeta in H2. simpl in H2.
      destruct (negb (dict_has "Catch" d) && negb (dict_has "Retry" d));
        simpl in H2; now apply app_singleton_neq_self in H2.
    + exact (choice_state_clean _ _ _ _ Hrun H2).
    + injection Hrun as <-. unfold _validate_wait_state in H2.
      cbv zeta in H2.
      destruct (existsb (λ f, dict_has f d) wait_fields); [reflexivity|].
      simpl in H2. now apply app_singleton_neq_self in H2.
    + exact (parallel_state_clean _ _ _ _ Hrun H2).
    + injection Hrun as <-. unfold _validate_map_state in H2.
      cbv zeta in H2.
      destruct (dict_has "ItemProcessor" d); [reflexivity|].
      destruct (dict_has "Iterator" d); [reflexivity|].
      simpl in H2. now apply app_singleton_neq_self in H2.
Qed.

Lemma check_reference_clean (vs : gset string) (name : string)
    (f : edge_field) (field : string) (self self' : validator)
    (d : list (string * json)) (target : json) :
  check_reference vs name f field self (JObj d) = Ok self' →
  errors self' = errors self →
  dict_lookup field d = Some target →
  ∃ t, target = JStr t ∧ t ∈ vs.
Proof. no_env.
  unfold check_reference. simpl. unfold dict_has. intros Hrun Herr Hl.
  rewrite Hl in Hrun. simpl in Hrun. unfold set_has in Hrun.
  destruct (hashable target); simpl in Hrun; [|discriminate].
  injection Hrun as <-.
  destruct target as [| | | |t| |]; simpl in Herr;
    try now apply app_singleton_neq_self in Herr.
  destruct (bool_decide (t ∈ vs)) eqn:Hin; simpl in Herr.
  - apply bool_decide_eq_true in Hin. eauto.
  - now apply app_singleton_neq_self in Herr.
Qed.

Lemma reference_loop_clean (vs : gset string) (name : string)
    (f : nat → edge_field) (self self' : validator) (l : list json) :
  rfold (fun self '(i, x) => check_reference vs name (f i) "Next" self x)
        self (enumerate l) = Ok self' →
  errors self `prefix_of` errors self'
  ∧ (errors self' = errors self →
     ∀ rule target, JObj rule ∈ l → dict_lookup "Next" rule = Some target →
                    ∃ t, target = JStr t ∧ t ∈ vs).
Proof. no_env.
  intros Hloop.
  assert (Hkeep : ∀ acc (x : nat * json) acc',
    (let '(i, x) := x in check_reference vs name (f i) "Next" acc x) = Ok acc'
    → errors acc `prefix_of` errors acc').
  { intros acc [i x] acc' Hx. apply keeps_errors.
    exact (wp_elim _ _ _ (check_reference_keeps vs name (f i) "Next" acc acc
                            x (keeps_refl _)) Hx). }
  split.
  - eapply rfold_errors_prefix; [|exact Hloop].
    intros acc x acc'. destruct x as [i x]. apply (Hkeep acc (i, x)).
  - intros Herr rule target Hin Hl.
    assert (Hall : Forall (λ x, ∀ rule target, x = JObj rule →
                     dict_lookup "Next" rule = Some target →
                     ∃ t, target = JStr t ∧ t ∈ vs) l).
    { apply Forall_enumerate.
      eapply (rfold_clean _ (λ p : nat * json, ∀ rule target,
                 snd p = JObj rule → dict_lookup "Next" rule = Some target →
                 ∃ t, target = JStr t ∧ t ∈ vs));
        [| |exact Hloop|exact Herr].
      - intros acc x acc'. destruct x as [i x]. apply (Hkeep acc (i, x)).
      - intros acc [i x] acc' Hx Hsame r t Hr Ht. simpl in Hr. subst x.
        exact (check_reference_clean _ _ _ _ _ _ _ _ Hx Hsame Ht). }
    rewrite Forall_forall in Hall. exact (Hall _ Hin rule target eq_refl Hl).
Qed.

Lemma validate_references_clean (vs : gset string) (self self' : validator)
    (item : string * json) :
  validate_references_of vs self item = Ok self' →
  errors self' = errors self →
  ∀ fields, snd item = JObj fields →
    (∀ target, dict_lookup "Next" fields = Some target →
               ∃ t, target = JStr t ∧ t ∈ vs)
    ∧ (eq_str (dict_get "Type" JNull fields) "Choice" = true →
       (∀ target, dict_lookup "Default" fields = Some target →
                  ∃ t, target = JStr t ∧ t ∈ vs)
       ∧ ∀ choices rule target,
           dict_lookup "Choices" fields = Some (JArr choices) →
           JObj rule ∈ choices →
           dict_lookup "Next" rule = Some target →
           ∃ t, target = JStr t ∧ t ∈ vs)
    ∧ (∀ catches rule target,
         dict_lookup "Catch" fields = Some (JArr catches) →
         JObj rule ∈ catches →
         dict_lookup "Next" rule = Some target →
         ∃ t, target = JStr t ∧ t ∈ vs).
Proof. no_env.
  destruct item as [name sd]. intros Hrun Herr fields Hsd.
  simpl in Hsd. subst sd.
  unfold validate_references_of in Hrun.
  apply bind_Ok in Hrun as (self1 & Hnext & Hrun).
  apply bind_Ok in Hrun as (self2 & Hchoice & Hrun).
  apply bind_Ok in Hrun as (catches & Hiter & Hcatch).
  apply (reference_loop_clean vs name FCatch) in Hcatch as [P2 Hcatch].
  assert (P0 : errors self `prefix_of` errors self1).
  { apply keeps_errors.
    exact (wp_elim _ _ _ (check_reference_keeps vs name FNext "Next" self self
                            (JObj fields) (keeps_refl _)) Hnext). }
  assert (P1 : errors self1 `prefix_of` errors self2
               ∧ (errors self2 = errors self1 →
                  eq_str (dict_get "Type" JNull fields) "Choice" = true →
                  (∀ target, dict_lookup "Default" fields = Some target →
                             ∃ t, target = JStr t ∧ t ∈ vs)
                  ∧ ∀ choices rule target,
                      dict_lookup "Choices" fields = Some (JArr choices) →
                      JObj rule ∈ choices →
                      dict_lookup "Next" rule = Some target →
                      ∃ t, target = JStr t ∧ t ∈ vs)).
  { destruct (eq_str (dict_get "Type" JNull fields) "Choice").
    2:{ injection Hchoice as <-. split; [reflexivity|discriminate]. }
    apply bind_Ok in Hchoice as (choices & Hiterc & Hchoice).
    apply bind_Ok in Hchoice as (self3 & Hloop & Hdefault).
    apply (reference_loop_clean vs name FChoice) in Hloop as [P13 Hloop].
    assert (P32 : errors self3 `prefix_of` errors self2).
    { apply keeps_errors.
      exact (wp_elim _ _ _ (check_reference_keeps vs name FDefault "Default"
                              self3 self3 (JObj fields) (keeps_refl _))
                     Hdefault). }
    split; [etrans; eassumption|].
    intros Hsame _.
    destruct (errors_squeeze self1 self3 self2 P13 P32 Hsame) as [H3 H2].
    split.
    - intros target Hl.
      exact (check_reference_clean _ _ _ _ _ _ _ _ Hdefault H2 Hl).
    - intros cs rule target Hcs. unfold dict_get in Hiterc.
      rewrite Hcs in Hiterc. injection Hiterc as <-. now apply Hloop. }
  destruct P1 as [P1 Hchoices].
  destruct (errors_squeeze self self1 self' P0) as [H1 H1'];
    [etrans; eassumption|exact Herr|].
  destruct (errors_squeeze self1 self2 self' P1 P2 H1') as [H2 H2'].
  split; [|split].
  - intros target Hl.
    exact (check_reference_clean _ _ _ _ _ _ _ _ Hnext H1 Hl).
  - now apply Hchoices.
  - intros cs rule target Hcs. unfold dict_get in Hiter.
    rewrite Hcs in Hiter. injection Hiter as <-. now apply Hcatch.
Qed.

Lemma terminal_states_clean (self self' : validator)
    (root states : list (string * json)) :
  definition self = JObj root →
  dict_lookup "States" root = Some (JObj states) →
  _validate_terminal_states self = Ok self' →
  errors self' = errors self →
  Exists (λ item, ends_workflow (snd item) = true) states.
Proof. no_env.
  intros Hdef Hstates. unfold _validate_terminal_states. rewrite Hdef.
  intros Hrun Herr.
  apply bind_Ok in Hrun as (st & Hget & Hrun). injection Hget as <-.
  unfold dict_get in Hrun. rewrite Hstates in Hrun.
  apply bind_Ok in Hrun as (items & Hitems & Hrun). injection Hitems as <-.
  apply bind_Ok in Hrun as (found & Hloop & Hrun).
  injection Hrun as <-.
  destruct found as [|first found].
  { now apply app_singleton_neq_self in Herr. }
  destruct (terminal_states_found _ _ _ Hloop) as [H|H];
    [discriminate|congruence|exact H].
Qed.

(** X12. A document that [validate] finds valid is well formed: it is an
    object whose [States] is a non-empty object and whose [StartAt] names
    one of the states; every state is an object with a known [Type], with
    a truthy [End] or a [Next] unless it is a Choice, Succeed or Fail
    state, and with what its type requires ([Choices] a non-empty list of
    rules with a [Next], [Resource], one of the four wait fields,
    [ItemProcessor] or [Iterator], [Branches] a non-empty list); the
    transition targets of a state ([Next], the [Next] of a catcher, and
    for a Choice state [Default] and the [Next] of a rule) name states; and
    some state ends the workflow. *)
Theorem valid_document_is_well_formed (self v : validator) (document : json) :
  read_json (file_path self) = Loaded document →
  validate self = Ok (true, v) →
  well_formed document.
Proof. no_env.
  intros Hread H. unfold validate, load in H. rewrite Hread in H.
  cbv beta iota delta [negb] in H.
  set (v0 := set_definition document self) in H.
  apply bind_Ok in H as (v1 & E1 & H).
  pose proof (wp_elim _ _ _ (required_fields_keeps _) E1) as G1.
  apply bind_Ok in H as (v2 & E2 & H).
  pose proof (wp_elim _ _ _ (start_at_keeps _) E2) as G2.
  apply bind_Ok in H as (v3 & E3 & H).
  pose proof (wp_elim _ _ _ (states_keeps _) E3) as G3.
  apply bind_Ok in H as (v4 & E4 & H).
  pose proof (wp_elim _ _ _ (state_references_keeps _) E4) as G4.
  apply bind_Ok in H as (v5 & E5 & H).
  pose proof (wp_elim _ _ _ (terminal_states_keeps _) E5) as G5.
  apply bind_Ok in H as (v6 & E6 & H).
  pose proof (wp_elim _ _ _ (unreachable_states_keeps _) E6) as G6.
  apply bind_Ok in H as (v7 & E7 & H).
  pose proof (wp_elim _ _ _ (cross_account_keeps _) E7) as G7.
  pose proof (hardcoded_arns_keeps v7) as G8.
  injection H as Hvalid <-.
  apply Nat.eqb_eq, length_zero_iff_nil in Hvalid.
  pose proof (keeps_trans _ _ _ G6 (keeps_trans _ _ _ G7 G8)) as G68.
  assert (Hnil : ∀ a b, keeps a b → errors b = [] → errors a = []).
  { intros a b Hk Hb. apply keeps_errors in Hk. rewrite Hb in Hk.
    now apply prefix_nil_inv in Hk. }
  pose proof (Hnil _ _ G68 Hvalid) as N5.
  pose proof (Hnil _ _ G5 N5) as N4.
  pose proof (Hnil _ _ G4 N4) as N3.
  pose proof (Hnil _ _ G3 N3) as N2.
  pose proof (Hnil _ _ G2 N2) as N1.
  pose proof (Hnil _ _ G1 N1) as N0.
  destruct G1 as (D1 & _), G2 as (D2 & _), G3 as (D3 & _), G4 as (D4 & _).
  destruct (required_fields_clean _ _ E1) as (root & states & Hdef & Hstates
                                               & Hne & Hstart);
    [congruence|].
  simpl in Hdef. subst document.
  assert (Hd1 : definition v1 = JObj root) by (rewrite D1; reflexivity).
  assert (Hd2 : definition v2 = JObj root) by congruence.
  assert (Hd3 : definition v3 = JObj root) by congruence.
  assert (Hd4 : definition v4 = JObj root) by congruence.
  destruct (start_at_clean _ _ _ _ Hd1 Hstates Hstart E2) as (start & Hs & Hk);
    [congruence|].
  exists root, states, start.
  repeat split; auto.
  - unfold _validate_states in E3. rewrite Hd2 in E3. simpl in E3.
    unfold dict_get in E3. rewrite Hstates in E3. simpl in E3.
    eapply rfold_clean; [| |exact E3|congruence].
    + intros acc x acc' Hx. apply keeps_errors.
      exact (wp_elim _ _ _ (validate_state_keeps acc acc x (keeps_refl _)) Hx).
    + intros acc x acc'. apply validate_state_clean.
  - unfold _validate_state_references in E4. rewrite Hd3 in E4. simpl in E4.
    unfold dict_get in E4. rewrite Hstates in E4. simpl in E4.
    assert (Hknown : ∀ target,
      (∃ t, target = JStr t ∧ t ∈ (list_to_set (dict_keys states)
                                    : gset string)) →
      known states target).
    { intros target (t & -> & Ht). exists t. split; [reflexivity|].
      apply dict_has_keys. now apply elem_of_list_to_set in Ht. }
    eapply Forall_impl.
    + eapply (rfold_clean _ (λ item, ∀ fields, snd item = JObj fields → _));
        [| |exact E4|congruence].
      * intros acc x acc' Hx. apply keeps_errors.
        exact (wp_elim _ _ _ (validate_references_of_keeps _ acc acc x
                                (keeps_refl _)) Hx).
      * intros acc x acc'. apply validate_references_clean.
    + intros item Hitem fields Hsd.
      destruct (Hitem fields Hsd) as (Hnext & Hchoice & Hcatch).
      split; [|split].
      * intros target Hl. apply Hknown. eauto.
      * intros Hty. destruct (Hchoice Hty) as [Hdefault Hrules]. split.
        -- intros target Hl. apply Hknown. eauto.
        -- intros cs rule target Hcs Hin Hl. apply Hknown. eauto.
      * intros cs rule target Hcs Hin Hl. apply Hknown. eauto.
  - eapply terminal_states_clean; [exact Hd4|exact Hstates|exact E5|congruence].
Qed.

(** *** A well-formed document is found valid *)

Lemma grows_nothing (self self' : validator) :
  grows (λ _, False) self self' → errors self' = errors self.
Proof. no_env.
  intros (_ & _ & new & -> & Hnew). destruct new as [|msg new].
  - now rewrite app_nil_r.
  - now apply Forall_cons in Hnew as [[] _].
Qed.

Lemma unreachable_states_no_error (self : validator) :
  wp (_detect_unreachable_states self) (grows (λ _, False) self).
Proof. no_env.
  unfold _detect_unreachable_states.
  repeat wp_step (λ _ : string, False).
  apply wp_any. intros reachable. rewrite fold_add_warning.
  apply grows_with_warnings, grows_refl.
Qed.

Lemma cross_account_no_error (self : validator) :
  wp (_check_cross_account_patterns self) (grows (λ _, False) self).
Proof. no_env.
  unfold _check_cross_account_patterns.
  repeat wp_step (λ _ : string, False).
  apply (wp_rfold (λ acc, grows (λ _, False) self (fst acc)));
    [| |apply grows_refl].
  - intros [acc n] [name sd] Hacc. simpl in Hacc.
    repeat wp_step (λ _ : string, False); simpl;
      repeat wp_step (λ _ : string, False).
  - intros [acc n] Hacc. simpl in Hacc. repeat wp_step (λ _ : string, False).
Qed.

Lemma hardcoded_arns_no_error (self : validator) :
  grows (λ _, False) self (_check_hardcoded_arns self).
Proof. no_env.
  unfold _check_hardcoded_arns. cbv zeta.
  repeat wp_step (λ _ : string, False).
Qed.

Lemma rfold_fixed {A B} (body : A → B → result A) (l : list B) (R : A → A → Prop) :
  (∀ a, R a a) → (∀ a b c, R a b → R b c → R a c) →
  (∀ acc x acc', x ∈ l → body acc x = Ok acc' → R acc acc') →
  ∀ self self', rfold body self l = Ok self' → R self self'.
Proof. no_env.
  intros Hrefl Htrans. induction l as [|x l IH]; intros Hbody self self' Hrun.
  - simpl in Hrun. injection Hrun as <-. apply Hrefl.
  - rewrite rfold_cons in Hrun. apply bind_Ok in Hrun as (acc & Hx & Hrun).
    apply (Htrans _ acc).
    + apply (Hbody _ x); [left|exact Hx].
    + apply IH; [|exact Hrun]. intros a y a' Hy. apply Hbody. now right.
Qed.

Lemma choice_state_silent (name : string) (d : list (string * json))
    (self self' : validator) :
  type_rule "Choice" d →
  _validate_choice_state name d self = Ok self' →
  errors self' = errors self.
Proof. no_env.
  intros (Hrule & _). destruct (Hrule eq_refl) as (choices & Hl & Hne & Hall).
  unfold _validate_choice_state, dict_has. simpl. rewrite Hl. simpl.
  destruct choices as [|choice choices]; [congruence|].
  cbn [length Nat.eqb]. intros Hrun.
  apply bind_Ok in Hrun as (self2 & Hloop & Hrun).
  assert (H2 : errors self2 = errors self).
  { refine (rfold_fixed _ _ (λ a b, errors b = errors a) _ _ _ _ _ Hloop);
      [reflexivity|congruence|].
    intros acc [i x] acc' Hin Hx. apply elem_of_enumerate in Hin.
    rewrite Forall_forall in Hall. rewrite (Hall _ Hin) in Hx.
    simpl in Hx. now injection Hx as <-. }
  injection Hrun as <-. now destruct (dict_lookup "Default" d).
Qed.

Lemma validate_state_silent (self self' : validator) (item : string * json) :
  state_shape (snd item) →
  validate_state self item = Ok self' →
  errors self' = errors self.
Proof. no_env.
  destruct item as [name sd].
  intros (d & ty & Hsd & Hl & Hvalid & Htrans & Hrule). simpl in Hsd.
  subst sd. unfold validate_state. cbv zeta.
  assert (Hget : dict_get "Type" JNull d = JStr ty)
    by (unfold dict_get; now rewrite Hl).
  rewrite !Hget.
  assert (Hty : truthy (JStr ty) = true).
  { apply valid_state_types in Hvalid.
    destruct Hvalid as [->|[->|[->|[->|[->|[->|[->| ->]]]]]]]; reflexivity. }
  rewrite Hty. cbn [negb set_has hashable mbind result_bind].
  rewrite (bool_decide_eq_true_2 _ Hvalid). cbn [negb].
  set (self1 := if negb (bool_decide (ty ∈ NO_TRANSITION_TYPES)) then _
                else self).
  assert (H1 : errors self1 = errors self).
  { subst self1. destruct (decide (ty ∈ NO_TRANSITION_TYPES)) as [Hin|Hnot].
    - now rewrite (bool_decide_eq_true_2 _ Hin).
    - rewrite (bool_decide_eq_false_2 _ Hnot). cbn [negb].
      destruct (Htrans Hnot) as [-> | ->]; [reflexivity|].
      now rewrite andb_false_r. }
  clearbody self1. rewrite <- H1. clear H1.
  destruct Hrule as (Hchoice & Htask & Hwait & Hmap & Hparallel).
  unfold eq_str.
  destruct (String.eqb_spec ty "Choice") as [->|_].
  { apply choice_state_silent. repeat split; auto; discriminate. }
  destruct (String.eqb_spec ty "Task") as [->|_].
  { intros H. injection H as <-. unfold _validate_task_state.
    rewrite (Htask eq_refl). cbv zeta. cbn [negb].
    now destruct (_ && _). }
  destruct (String.eqb_spec ty "Wait") as [->|_].
  { intros H. injection H as <-. unfold _validate_wait_state. cbv zeta.
    now rewrite (Hwait eq_refl). }
  destruct (String.eqb_spec ty "Map") as [->|_].
  { intros H. injection H as <-. unfold _validate_map_state. cbv zeta.
    specialize (Hmap eq_refl).
    destruct (dict_has "ItemProcessor" d), (dict_has "Iterator" d);
      try discriminate; reflexivity. }
  destruct (String.eqb_spec ty "Parallel") as [->|_].
  { destruct (Hparallel eq_refl) as (branch & branches & Hb).
    unfold _validate_parallel_state, dict_has. simpl. rewrite Hb. simpl.
    intros H. now injection H as <-. }
  intros H. now injection H as <-.
Qed.

Lemma check_reference_silent (vs : gset string) (name : string)
    (f : edge_field) (field : string) (self self' : validator) (x : json) :
  (∀ d target, x = JObj d → dict_lookup field d = Some target →
               ∃ t, target = JStr t ∧ t ∈ vs) →
  check_reference vs name f field self x = Ok self' →
  errors self' = errors self.
Proof. no_env.
  intros Hknown. unfold check_reference. intros Hrun.
  apply bind_Ok in Hrun as (has_field & Hin & Hrun).
  destruct has_field; [|now injection Hrun as <-].
  apply bind_Ok in Hrun as (target & Hget & Hrun).
  destruct x as [| | | | | |d]; try discriminate.
  simpl in Hget. destruct (dict_lookup field d) as [v|] eqn:Hl;
    [|discriminate].
  injection Hget as ->.
  destruct (Hknown d target eq_refl Hl) as (t & -> & Ht).
  simpl in Hrun. rewrite (bool_decide_eq_true_2 _ Ht) in Hrun.
  now injection Hrun as <-.
Qed.

Lemma iter_objects (k : string) (fields rule : list (string * json))
    (l : list json) :
  py_iter (dict_get k (JArr []) fields) = Ok l →
  JObj rule ∈ l →
  ∃ rules, dict_lookup k fields = Some (JArr rules) ∧ JObj rule ∈ rules.
Proof. no_env.
  unfold dict_get.
  destruct (dict_lookup k fields) as [[| | | |s|rules|d]|]; simpl;
    try discriminate; intros H Hin; injection H as <-.
  - exfalso. induction s as [|c s IH]; simpl in Hin.
    + now apply not_elem_of_nil in Hin.
    + apply elem_of_cons in Hin as [Hin|Hin]; [discriminate|auto].
  - eauto.
  - exfalso. unfold dict_keys in Hin.
    apply list_elem_of_In, in_map_iff in Hin as (key & Hkey & _).
    discriminate.
  - now apply not_elem_of_nil in Hin.
Qed.

Lemma reference_loop_silent (vs : gset string) (name : string)
    (f : nat → edge_field) (self self' : validator) (l : list json) :
  (∀ rule target, JObj rule ∈ l → dict_lookup "Next" rule = Some target →
                  ∃ t, target = JStr t ∧ t ∈ vs) →
  rfold (fun self '(i, x) => check_reference vs name (f i) "Next" self x)
        self (enumerate l) = Ok self' →
  errors self' = errors self.
Proof. no_env.
  intros Hknown Hloop.
  refine (rfold_fixed _ _ (λ a b, errors b = errors a) _ _ _ _ _ Hloop);
    [reflexivity|congruence|].
  intros acc [i x] acc' Hin Hx. apply elem_of_enumerate in Hin.
  refine (check_reference_silent _ _ _ _ _ _ _ _ Hx).
  intros d target -> Hl. eauto.
Qed.

Lemma validate_references_silent (states : list (string * json))
    (self self' : validator) (item : string * json) :
  targets_known states (snd item) →
  validate_references_of (list_to_set (dict_keys states)) self item
  = Ok self' →
  errors self' = errors self.
Proof. no_env.
  destruct item as [name sd]. simpl. intros Hknown Hrun.
  destruct sd as [| | | | | |fields];
    try (injection Hrun as <-; reflexivity).
  destruct (Hknown fields eq_refl) as (Hnext & Hchoice & Hcatch).
  assert (Hin : ∀ target, known states target →
    ∃ t, target = JStr t
         ∧ t ∈ (list_to_set (dict_keys states) : gset string)).
  { intros target (t & -> & Ht). exists t. split; [reflexivity|].
    apply elem_of_list_to_set. now apply dict_has_keys. }
  unfold validate_references_of in Hrun.
  apply bind_Ok in Hrun as (self1 & Hrun1 & Hrun).
  apply bind_Ok in Hrun as (self2 & Hrun2 & Hrun).
  apply bind_Ok in Hrun as (catches & Hiter & Hrun3).
  apply check_reference_silent in Hrun1.
  2:{ intros d target Hd Hl. injection Hd as <-. auto. }
  apply reference_loop_silent in Hrun3.
  2:{ intros rule target Hrule Hl.
      destruct (iter_objects _ _ _ _ Hiter Hrule) as (rules & Hrules & Hr).
      eauto. }
  assert (H2 : errors self2 = errors self1).
  { destruct (eq_str (dict_get "Type" JNull fields) "Choice") eqn:Hty.
    2:{ now injection Hrun2 as <-. }
    destruct (Hchoice eq_refl) as [Hdefault Hrules].
    apply bind_Ok in Hrun2 as (choices & Hiterc & Hrun2).
    apply bind_Ok in Hrun2 as (self3 & Hloop & Hrun2).
    apply reference_loop_silent in Hloop.
    2:{ intros rule target Hrule Hl.
        destruct (iter_objects _ _ _ _ Hiterc Hrule) as (rules & Hr & Hr').
        eauto. }
    apply check_reference_silent in Hrun2.
    2:{ intros d target Hd Hl. injection Hd as <-. auto. }
    congruence. }
  congruence.
Qed.

(** X13. The converse: on a well-formed document, no check of [validate]
    records an error, so that when [validate] returns, on a validator
    without an error yet, it returns true. *)
Theorem well_formed_document_is_valid (self v : validator) (document : json)
    (b : bool) :
  read_json (file_path self) = Loaded document →
  errors self = [] →
  well_formed document →
  validate self = Ok (b, v) →
  b = true ∧ errors v = [].
Proof. no_env.
  intros Hread Hnone (root & states & start & -> & Hstates & Hne & Hstart
                      & Hkey & Hshape & Hknown & Hend) H.
  unfold validate, load in H. rewrite Hread in H.
  cbv beta iota delta [negb] in H.
  set (v0 := set_definition (JObj root) self) in H.
  apply bind_Ok in H as (v1 & E1 & H).
  pose proof (wp_elim _ _ _ (required_fields_keeps _) E1) as (D1 & _).
  apply bind_Ok in H as (v2 & E2 & H).
  pose proof (wp_elim _ _ _ (start_at_keeps _) E2) as (D2 & _).
  apply bind_Ok in H as (v3 & E3 & H).
  pose proof (wp_elim _ _ _ (states_keeps _) E3) as (D3 & _).
  apply bind_Ok in H as (v4 & E4 & H).
  pose proof (wp_elim _ _ _ (state_references_keeps _) E4) as (D4 & _).
  apply bind_Ok in H as (v5 & E5 & H).
  apply bind_Ok in H as (v6 & E6 & H).
  pose proof (grows_nothing _ _
                (wp_elim _ _ _ (unreachable_states_no_error _) E6)) as N6.
  apply bind_Ok in H as (v7 & E7 & H).
  pose proof (grows_nothing _ _
                (wp_elim _ _ _ (cross_account_no_error _) E7)) as N7.
  pose proof (grows_nothing _ _ (hardcoded_arns_no_error v7)) as N8.
  injection H as <- <-.
  assert (Hd0 : definition v0 = JObj root) by reflexivity.
  assert (Hd1 : definition v1 = JObj root) by congruence.
  assert (Hd2 : definition v2 = JObj root) by congruence.
  assert (Hd3 : definition v3 = JObj root) by congruence.
  assert (Hd4 : definition v4 = JObj root) by congruence.
  assert (N1 : errors v1 = errors v0).
  { assert (Hhas : dict_has "StartAt" root = true)
      by (unfold dict_has; now rewrite Hstart).
    unfold _validate_required_fields in E1. rewrite Hd0 in E1.
    simpl in E1. rewrite Hhas in E1. simpl in E1. unfold v0 in E1.
    simpl in E1. unfold dict_has in E1. rewrite Hstates in E1.
    simpl in E1. destruct states; [congruence|].
    now injection E1 as <-. }
  assert (N2 : errors v2 = errors v1).
  { assert (Hhas : dict_has "StartAt" root = true)
      by (unfold dict_has; now rewrite Hstart).
    assert (Hhas' : dict_has "States" root = true)
      by (unfold dict_has; now rewrite Hstates).
    unfold _validate_start_at in E2. rewrite Hd1 in E2.
    simpl in E2. rewrite Hhas in E2. simpl in E2. rewrite Hhas' in E2.
    simpl in E2. unfold dict_get in E2. rewrite Hstart, Hstates in E2.
    simpl in E2. rewrite Hkey in E2. now injection E2 as <-. }
  assert (N3 : errors v3 = errors v2).
  { unfold _validate_states in E3. rewrite Hd2 in E3. simpl in E3.
    unfold dict_get in E3. rewrite Hstates in E3. simpl in E3.
    refine (rfold_fixed _ _ (λ a b, errors b = errors a) _ _ _ _ _ E3);
      [reflexivity|congruence|].
    intros acc x acc' Hin. apply validate_state_silent.
    rewrite Forall_forall in Hshape. now apply Hshape. }
  assert (N4 : errors v4 = errors v3).
  { unfold _validate_state_references in E4. rewrite Hd3 in E4.
    simpl in E4. unfold dict_get in E4. rewrite Hstates in E4. simpl in E4.
    refine (rfold_fixed _ _ (λ a b, errors b = errors a) _ _ _ _ _ E4);
      [reflexivity|congruence|].
    intros acc x acc' Hin. apply validate_references_silent.
    rewrite Forall_forall in Hknown. now apply Hknown. }
  assert (N5 : errors v5 = errors v4).
  { unfold _validate_terminal_states in E5. rewrite Hd4 in E5.
    apply bind_Ok in E5 as (st & Hget & E5). injection Hget as <-.
    unfold dict_get in E5. rewrite Hstates in E5.
    apply bind_Ok in E5 as (items & Hitems & E5). injection Hitems as <-.
    apply bind_Ok in E5 as (found & Hloop & E5). injection E5 as <-.
    pose proof (terminal_states_kept _ _ _ Hloop (or_intror Hend)) as Hfound.
    now destruct found. }
  assert (Hnil : errors (_check_hardcoded_arns v7) = []).
  { rewrite N8, N7, N6, N5, N4, N3, N2, N1. exact Hnone. }
  split; [|exact Hnil]. now rewrite Hnil.
Qed.

(** *** Looking for the files *)

Lemma terraform_is_hidden (parts : list string) :
  existsb (String.eqb ".terraform") parts = true →
  existsb starts_with_dot parts = true.
Proof. no_env.
  intros H. apply existsb_exists in H as (part & Hin & Heq).
  apply String.eqb_eq in Heq. subst part.
  apply existsb_exists. exists ".terraform". split; [exact Hin|reflexivity].
Qed.

Lemma kept_is_visible (parts : list string) :
  negb (existsb starts_with_dot parts)
  && negb (existsb (String.eqb "node_modules") parts
           || existsb (String.eqb ".terraform") parts)
  = visible parts.
Proof. no_env.
  destruct (existsb (String.eqb ".terraform") parts) eqn:Htf.
  - rewrite (terraform_is_hidden _ Htf). simpl. symmetry.
    apply not_true_is_false. intros Hvis. unfold visible in Hvis.
    rewrite forallb_forall in Hvis.
    apply existsb_exists in Htf as (part & Hin & Hpart).
    apply String.eqb_eq in Hpart. subst part.
    specialize (Hvis _ Hin). discriminate.
  - rewrite orb_false_r. unfold visible. clear Htf.
    induction parts as [|part parts IH]; [reflexivity|].
    cbn [existsb forallb]. rewrite <- IH.
    destruct (starts_with_dot part), (String.eqb "node_modules" part),
      (existsb starts_with_dot parts),
      (existsb (String.eqb "node_modules") parts); reflexivity.
Qed.

(** X14. [find_asl_files] returns, sorted, the text of exactly the paths
    found of which no part starts with a dot and none is [node_modules],
    each as often as it was found: the test for [.terraform] never
    excludes a path the test for hidden parts has not excluded before. *)
Theorem find_asl_files_visible_sorted (found : list (string * list string)) :
  find_asl_files found
  ≡ₚ map fst (List.filter (λ item, visible (snd item)) found)
  ∧ Sorted String.le (find_asl_files found).
Proof. no_env.
  unfold find_asl_files. split; [|apply Sorted_merge_sort; apply _].
  rewrite merge_sort_Permutation.
  erewrite List.filter_ext; [reflexivity|].
  intros [text parts]. apply kept_is_visible.
Qed.

(** *** The pattern of account identifiers *)

Lemma arn_run_stops (a rest : string) :
  all_chars is_arn_char a = true →
  arn_run (a +:+ String ":" rest) = (String.length a, String ":" rest).
Proof. no_env.
  unfold all_chars. induction a as [|c a IH]; simpl; [reflexivity|].
  intros H. apply andb_true_iff in H as [-> H]. now rewrite (IH H).
Qed.

Lemma take_digits_app (a rest : string) :
  all_chars is_digit a = true →
  take_digits (String.length a) (a +:+ rest) = Some (a, rest).
Proof. no_env.
  unfold all_chars. induction a as [|c a IH]; simpl; [reflexivity|].
  intros H. apply andb_true_iff in H as [-> H]. now rewrite (IH H).
Qed.

Lemma findall_skip (m rest : string) :
  findall_from (String.length m) (m +:+ rest) = findall_from 0 rest.
Proof. no_env.
  induction m as [|c m IH]; simpl; [|exact IH].
  destruct rest; reflexivity.
Qed.

Lemma string_app_assoc (a b c : string) : (a +:+ b) +:+ c = a +:+ (b +:+ c).
Proof. no_env.
  induction a as [|x a IH]; [reflexivity|].
  change (String x ((a +:+ b) +:+ c) = String x (a +:+ (b +:+ c))).
  now rewrite IH.
Qed.

Lemma string_app_length (a b : string) :
  String.length (a +:+ b) = String.length a + String.length b.
Proof. no_env.
  induction a as [|x a IH]; [reflexivity|].
  change (S (String.length (a +:+ b)) = S (String.length a) + String.length b).
  now rewrite IH.
Qed.

Lemma drop_prefix_app (p s : string) : drop_prefix p (p +:+ s) = Some s.
Proof. no_env.
  induction p as [|c p IH]; [now destruct s|].
  change (drop_prefix (String c p) (String c (p +:+ s)) = Some s).
  cbn [drop_prefix]. now rewrite Ascii.eqb_refl.
Qed.

(** X15. A text that starts with an ARN — [arn:aws:], a non-empty service
    and a region, each of lower-case letters, digits and hyphens, and an
    account of twelve digits, each followed by a colon — matches the
    pattern there with the account captured, and the scan goes on with
    what follows the account's colon. *)
Theorem findall_account_ids_at_arn (service region account rest : string) :
  service ≠ "" →
  all_chars is_arn_char service = true →
  all_chars is_arn_char region = true →
  all_chars is_digit account = true →
  String.length account = 12 →
  let text := "arn:aws:" +:+ (service +:+ (":" +:+ (region +:+ (":" +:+
              (account +:+ (":" +:+ rest)))))) in
  match_arn text = Some (account, rest)
  ∧ findall_account_ids text = account :: findall_account_ids rest.
Proof. no_env.
  intros Hne Hservice Hregion Hdigits Hlen. cbv zeta.
  change ("arn:aws:" +:+ (service +:+ (":" +:+ (region +:+ (":" +:+
            (account +:+ (":" +:+ rest)))))))
    with ("arn:aws:" +:+ (service +:+ String ":" (region +:+ String ":"
            (account +:+ String ":" rest)))).
  set (text := "arn:aws:" +:+ _).
  assert (Hmatch : match_arn text = Some (account, rest)).
  { assert (Hcolon : ∀ s, drop_colon (String ":" s) = Some s)
      by reflexivity.
    unfold match_arn, text. rewrite drop_prefix_app. cbn [mbind option_bind].
    rewrite (arn_run_stops service _ Hservice).
    destruct service as [|c service]; [now destruct Hne|].
    cbn [String.length Nat.eqb]. rewrite Hcolon. cbn [mbind option_bind].
    rewrite (arn_run_stops region _ Hregion).
    rewrite Hcolon. cbn [mbind option_bind].
    rewrite <- Hlen, (take_digits_app account _ Hdigits).
    cbn [mbind option_bind]. rewrite Hcolon. reflexivity. }
  split; [exact Hmatch|].
  unfold findall_account_ids.
  assert (Hsplit : ∃ m, text = String "a" (m +:+ rest)
                        ∧ String.length text - String.length rest - 1
                          = String.length m).
  { exists ("rn:aws:" +:+ (service +:+ String ":" (region +:+ String ":"
              (account +:+ ":")))).
    assert (Htext : text = String "a" (("rn:aws:" +:+ (service +:+ String ":"
                      (region +:+ String ":" (account +:+ ":")))) +:+ rest)).
    { subst text.
      change (String ":" (region +:+ String ":" (account +:+ String ":" rest)))
        with (":" +:+ (region +:+ (":" +:+ (account +:+ (":" +:+ rest))))).
      change (String ":" (region +:+ String ":" (account +:+ ":")))
        with (":" +:+ (region +:+ (":" +:+ (account +:+ ":")))).
      change (String "a" (("rn:aws:" +:+ ?x) +:+ rest))
        with (("arn:aws:" +:+ x) +:+ rest).
      now rewrite !string_app_assoc. }
    split; [exact Htext|].
    rewrite Htext. cbn [String.length]. rewrite string_app_length. lia. }
  destruct Hsplit as (m & Htext & Hskip).
  rewrite Htext at 1. cbn [findall_from]. rewrite <- Htext, Hmatch, Hskip.
  f_equal. apply findall_skip.
Qed.

(** *** A document without [States] *)

(** X16. On a document that is an object without [States], whatever else it
    holds, [validate] raises nothing and returns false; it records, in this
    order, that [StartAt] is missing if it is, that [States] is missing, and
    that there is no terminal state; no other check but that of the
    hard-coded account identifiers adds anything. *)
Theorem validate_without_states (self : validator)
    (root : list (string * json)) :
  read_json (file_path self) = Loaded (JObj root) →
  dict_lookup "States" root = None →
  validate self
  = Ok (false,
        _check_hardcoded_arns
          (with_errors
             ((if dict_has "StartAt" root then []
               else ["Missing required field: 'StartAt'"])
              ++ ["Missing required field: 'States'"; no_terminal_msg])
             (set_definition (JObj root) self))).
Proof. no_env.
  intros Hread Hstates. unfold validate, load. rewrite Hread.
  cbv beta iota delta [negb].
  assert (Hhas : dict_has "States" root = false)
    by (unfold dict_has; now rewrite Hstates).
  set (v0 := set_definition (JObj root) self).
  set (v1 := add_error "Missing required field: 'States'"
               (if dict_has "StartAt" root then v0
                else add_error "Missing required field: 'StartAt'" v0)).
  assert (Hd1 : definition v1 = JObj root)
    by (unfold v1; now destruct (dict_has "StartAt" root)).
  assert (E1 : _validate_required_fields v0 = Ok v1).
  { unfold _validate_required_fields, v1. simpl.
    destruct (dict_has "StartAt" root); simpl; rewrite Hhas; reflexivity. }
  assert (E2 : _validate_start_at v1 = Ok v1).
  { unfold _validate_start_at. rewrite Hd1. simpl. rewrite Hhas.
    now destruct (dict_has "StartAt" root). }
  assert (E3 : _validate_states v1 = Ok v1).
  { unfold _validate_states. rewrite Hd1. simpl. unfold dict_get.
    now rewrite Hstates. }
  assert (E4 : _validate_state_references v1 = Ok v1).
  { unfold _validate_state_references. rewrite Hd1. simpl. unfold dict_get.
    now rewrite Hstates. }
  set (v2 := add_error no_terminal_msg v1).
  assert (E5 : _validate_terminal_states v1 = Ok v2).
  { unfold _validate_terminal_states. rewrite Hd1. simpl. unfold dict_get.
    now rewrite Hstates. }
  assert (E6 : _detect_unreachable_states v2 = Ok v2).
  { unfold _detect_unreachable_states.
    replace (definition v2) with (JObj root) by (symmetry; exact Hd1).
    simpl. unfold dict_get at 1. now rewrite Hstates. }
  assert (E7 : _check_cross_account_patterns v2 = Ok v2).
  { unfold _check_cross_account_patterns.
    replace (definition v2) with (JObj root) by (symmetry; exact Hd1).
    simpl. unfold dict_get. now rewrite Hstates. }
  rewrite E1. cbn [mbind result_bind]. rewrite E2. cbn [mbind result_bind].
  rewrite E3. cbn [mbind result_bind]. rewrite E4. cbn [mbind result_bind].
  rewrite E5. cbn [mbind result_bind]. rewrite E6. cbn [mbind result_bind].
  rewrite E7. cbn [mbind result_bind].
  assert (Hv2 : v2 = with_errors
                       ((if dict_has "StartAt" root then []
                         else ["Missing required field: 'StartAt'"])
                        ++ ["Missing required field: 'States'";
                            no_terminal_msg]) v0).
  { unfold v2, v1, with_errors, add_error.
    destruct (dict_has "StartAt" root); simpl; f_equal;
      rewrite <- !app_assoc; reflexivity. }
  rewrite <- Hv2. f_equal. f_equal.
  assert (Herr : errors (_check_hardcoded_arns v2) = errors v2).
  { unfold _check_hardcoded_arns. cbv zeta. now destruct (findall_account_ids _). }
  rewrite Herr. unfold v2. simpl. rewrite length_app. simpl.
  rewrite Nat.add_1_r. reflexivity.
Qed.

(** *** The warnings of the structural check *)

Lemma choices_loop_silent (name : string) (choices : list json) :
  Forall (λ choice, py_in (JStr "Next") choice = Ok true) choices →
  ∀ k self,
    rfold (fun self '(i, choice) =>
             has_next ← py_in (JStr "Next") choice;
             Ok (if negb has_next
                 then add_error ("Choice state '" +:+ name
                                 +:+ "' choice[" +:+ str_of_nat i
                                 +:+ "] missing 'Next' field") self
                 else self))
          self (combine (seq k (length choices)) choices)
    = Ok self.
Proof. no_env.
  induction 1 as [|choice choices Hchoice _ IH]; intros k self;
    [reflexivity|].
  cbn [length seq combine]. rewrite rfold_cons. rewrite Hchoice.
  cbn [mbind result_bind negb]. apply IH.
Qed.

Lemma validate_state_warns (self : validator) (item : string * json) :
  state_shape (snd item) →
  validate_state self item = Ok (with_warnings (state_warnings item) self).
Proof. no_env.
  destruct item as [name sd].
  intros (d & ty & Hsd & Hl & Hvalid & Htrans & Hrule). simpl in Hsd.
  subst sd. unfold validate_state, state_warnings. cbv zeta.
  cbn [fst snd].
  assert (Hget : dict_get "Type" JNull d = JStr ty)
    by (unfold dict_get; now rewrite Hl).
  rewrite !Hget.
  assert (Hty : truthy (JStr ty) = true).
  { apply valid_state_types in Hvalid.
    destruct Hvalid as [->|[->|[->|[->|[->|[->|[->| ->]]]]]]]; reflexivity. }
  rewrite Hty. cbn [negb set_has hashable mbind result_bind].
  rewrite (bool_decide_eq_true_2 _ Hvalid). cbn [negb].
  set (self1 := if negb (bool_decide (ty ∈ NO_TRANSITION_TYPES)) then _
                else self).
  assert (H1 : self1 = self).
  { subst self1. destruct (decide (ty ∈ NO_TRANSITION_TYPES)) as [Hin|Hnot].
    - now rewrite (bool_decide_eq_true_2 _ Hin).
    - rewrite (bool_decide_eq_false_2 _ Hnot). cbn [negb].
      destruct (Htrans Hnot) as [-> | ->]; [reflexivity|].
      now rewrite andb_false_r. }
  rewrite H1. clear self1 H1.
  destruct Hrule as (Hchoice & Htask & Hwait & Hmap & Hparallel).
  unfold eq_str.
  destruct (String.eqb_spec ty "Choice") as [->|_].
  { destruct (Hchoice eq_refl) as (choices & Hc & Hne & Hall).
    unfold _validate_choice_state, dict_has. simpl. rewrite Hc. simpl.
    destruct choices as [|choice choices]; [congruence|].
    cbn [length Nat.eqb]. unfold enumerate.
    rewrite (choices_loop_silent name (choice :: choices) Hall).
    cbn [mbind result_bind].
    destruct (dict_lookup "Default" d); [|reflexivity].
    now rewrite with_warnings_nil. }
  destruct (String.eqb_spec ty "Task") as [->|_].
  { unfold _validate_task_state. rewrite (Htask eq_refl). cbv zeta.
    cbn [negb].
    destruct (negb (dict_has "Catch" d) && negb (dict_has "Retry" d));
      [reflexivity|now rewrite with_warnings_nil]. }
  rewrite with_warnings_nil.
  destruct (String.eqb_spec ty "Wait") as [->|_].
  { unfold _validate_wait_state. cbv zeta. now rewrite (Hwait eq_refl). }
  destruct (String.eqb_spec ty "Map") as [->|_].
  { unfold _validate_map_state. cbv zeta. specialize (Hmap eq_refl).
    destruct (dict_has "ItemProcessor" d), (dict_has "Iterator" d);
      try discriminate; reflexivity. }
  destruct (String.eqb_spec ty "Parallel") as [->|_]; [|reflexivity].
  destruct (Hparallel eq_refl) as (branch & branches & Hb).
  unfold _validate_parallel_state, dict_has. simpl. now rewrite Hb.
Qed.

(** X17. On states against which the structural check has nothing to say
    (see X12), [_validate_states] raises nothing and adds no error; it
    warns, in state order, about exactly the Choice states without
    [Default] and the Task states with neither [Catch] nor [Retry]. *)
Theorem structural_warnings (self : validator)
    (root states : list (string * json)) :
  definition self = JObj root →
  dict_lookup "States" root = Some (JObj states) →
  Forall (λ item, state_shape (snd item)) states →
  _validate_states self
  = Ok (with_warnings (flat_map state_warnings states) self).
Proof. no_env.
  intros Hdef Hstates Hshape. unfold _validate_states. rewrite Hdef.
  simpl. unfold dict_get. rewrite Hstates. simpl.
  clear Hdef Hstates. revert self.
  induction Hshape as [|item states Hitem _ IH]; intros self.
  - simpl. now rewrite with_warnings_nil.
  - rewrite rfold_cons, (validate_state_warns _ _ Hitem).
    cbn [mbind result_bind]. rewrite IH, with_warnings_app. reflexivity.
Qed.

End Validator.

(** ** The properties on the sample documents *)

Lemma elements_iter_perm : ∀ X : gset string, elements X ≡ₚ elements X.
Proof. reflexivity. Qed.

Lemma empty_start_reaches_nothing (name : string) :
  ¬ reach [("A", JObj [("Type", JStr "Succeed")])] (JStr "") name.
Proof.
  induction 1 as [name Hstart Hhas|]; [|assumption].
  injection Hstart as <-. discriminate.
Qed.

Lemma empty_start_two_reaches_nothing (name : string) :
  ¬ reach [("A", JObj [("Type", JStr "Succeed")]);
           ("B", JObj [("Type", JStr "Fail")])] (JStr "") name.
Proof.
  induction 1 as [name Hstart Hhas|]; [|assumption].
  injection Hstart as <-. discriminate.
Qed.

Lemma unreachable_terminal_reaches_only_A (name : string) :
  reach [("A", JObj [("Type", JStr "Pass"); ("Next", JStr "A")]);
         ("B", JObj [("Type", JStr "Succeed")])] (JStr "A") name →
  name = "A".
Proof.
  induction 1 as [name Hstart _|name sd field target _ IH Hl Hin _].
  - now injection Hstart.
  - subst name. injection Hl as <-.
    apply list_elem_of_singleton in Hin. now injection Hin.
Qed.

(** C3, as stated, fails when [StartAt] is the empty string: [States] is a
    non-empty mapping and [StartAt] is present, yet the stage returns at its
    guard and state [A], which no traversal visits, gets no warning. *)
Lemma empty_start_at_skips_traversal :
  let states := [("A", JObj [("Type", JStr "Succeed")])] in
  let self := set_definition empty_start_document (init "empty.asl.json") in
  definition self = JObj [("StartAt", JStr ""); ("States", JObj states)]
  ∧ _detect_unreachable_states elements self = Ok self
  ∧ ¬ ∃ unreachable,
        _detect_unreachable_states elements self
        = Ok (with_warnings (map unreachable_msg unreachable) self)
        ∧ (∀ name, name ∈ unreachable
                   ↔ name ∈ dict_keys states
                     ∧ ¬ reach states (JStr "") name).
Proof.
  cbv zeta. split; [reflexivity|]. split; [reflexivity|].
  intros (unreachable & Hrun & Hiff).
  assert (Hin : "A" ∈ unreachable).
  { apply Hiff. split; [left|apply empty_start_reaches_nothing]. }
  change (_detect_unreachable_states elements
            (set_definition empty_start_document (init "empty.asl.json")))
    with (Ok (set_definition empty_start_document (init "empty.asl.json")))
    in Hrun.
  injection Hrun as Hrun.
  destruct unreachable; [now apply not_elem_of_nil in Hin|discriminate].
Qed.

(** C9, as stated, fails when [StartAt] is the empty string: it is present
    and names no key of the non-empty [States], yet no key gets a
    warning. *)
Lemma empty_start_at_no_warning :
  let states := [("A", JObj [("Type", JStr "Succeed")]);
                 ("B", JObj [("Type", JStr "Fail")])] in
  let self := set_definition empty_start_two_states (init "empty.asl.json") in
  definition self = JObj [("StartAt", JStr ""); ("States", JObj states)]
  ∧ dict_has "" states = false
  ∧ _detect_unreachable_states elements self = Ok self
  ∧ ¬ ∃ order,
        _detect_unreachable_states elements self
        = Ok (with_warnings (map unreachable_msg order) self)
        ∧ (∀ name, name ∈ order ↔ name ∈ dict_keys states).
Proof.
  cbv zeta. split; [reflexivity|]. split; [reflexivity|].
  split; [reflexivity|].
  intros (order & Hrun & Hiff).
  assert (Hin : "A" ∈ order) by (apply Hiff; left).
  change (_detect_unreachable_states elements
            (set_definition empty_start_two_states (init "empty.asl.json")))
    with (Ok (set_definition empty_start_two_states (init "empty.asl.json")))
    in Hrun.
  injection Hrun as Hrun.
  destruct order; [now apply not_elem_of_nil in Hin|discriminate].
Qed.

(** C4, as stated, fails when [End] holds a value that is truthy without
    being [true]: in the one state [End] is the string [no], so no state is
    of type [Succeed] or [Fail] or has [End] equal to [true], yet the stage
    appends no error and the document is found valid. *)
Lemma truthy_end_counts_as_terminal :
  let states := [("A", JObj [("Type", JStr "Pass"); ("End", JStr "no")])] in
  let self := set_definition truthy_end_document (init "end.asl.json") in
  definition self = JObj [("StartAt", JStr "A"); ("States", JObj states)]
  ∧ (∀ name state_def,
       (name, state_def) ∈ states → is_terminal state_def = false)
  ∧ _validate_terminal_states self = Ok self
  ∧ ¬ (∃ self',
         _validate_terminal_states self = Ok self'
         ∧ (self' = add_error no_terminal_msg self
            ↔ ∀ name state_def,
                (name, state_def) ∈ states → is_terminal state_def = false))
  ∧ validate sample_repr plain_dumps elements
             (fun _ => Loaded truthy_end_document) (init "end.asl.json")
    = Ok (true, self).
Proof.
  cbv zeta.
  assert (Hnone : ∀ name state_def,
            (name, state_def)
            ∈ [("A", JObj [("Type", JStr "Pass"); ("End", JStr "no")])] →
            is_terminal state_def = false).
  { intros name state_def Hin. apply list_elem_of_singleton in Hin.
    injection Hin as _ ->. reflexivity. }
  split; [reflexivity|]. split; [exact Hnone|]. split; [reflexivity|].
  split; [|vm_compute; reflexivity].
  intros (self' & Hrun & Hiff).
  change (_validate_terminal_states
            (set_definition truthy_end_document (init "end.asl.json")))
    with (Ok (set_definition truthy_end_document (init "end.asl.json")))
    in Hrun.
  injection Hrun as <-.
  apply Hiff in Hnone. apply (f_equal errors) in Hnone. discriminate.
Qed.

(** C10, as stated, fails on a result with an error: the report ends with
    the line of the last error; there is no closing line. *)
Lemma report_without_closing_line :
  let self := mkValidator "bad.asl.json" ["boom"] [] [] (JObj []) in
  report_lines self false
  = ["File: bad.asl.json"; "  ERRORS (1):"; "    ✗ boom"]
  ∧ last (report_lines self false) = Some "    ✗ boom"
  ∧ existsb (String.eqb "  ✓ Valid") (report_lines self false) = false
  ∧ validate sample_repr sample_dumps elements sample_files
             (init "broken.asl.json")
    = Ok (false,
          mkValidator "broken.asl.json"
            ["Invalid JSON syntax: Expecting value: line 1 column 1 (char 0)"]
            [] [] (JObj [])).
Proof. cbv zeta. repeat split. Qed.

(** *** Instances *)

Lemma validity_is_no_errors_witness :
  ∃ b v t',
    validate sample_repr sample_dumps elements sample_files
             (init "three.asl.json") = Ok (b, v)
    ∧ main_step sample_repr sample_dumps elements sample_files
                true false true (mkTally 0 0 [] []) "three.asl.json" = Ok t'
    ∧ (b = true ↔ errors v = [])
    ∧ (failed_files t' = []
       ↔ errors v = [] ∧ (true = true → warnings v = []))
    ∧ (failed_files t' ≠ [] → failed_files t' = [] ++ ["three.asl.json"]).
Proof.
  eexists _, _, _.
  split; [vm_compute; reflexivity|].
  split; [vm_compute; reflexivity|].
  apply (validity_is_no_errors sample_repr sample_dumps elements sample_files
           true false true (mkTally 0 0 [] []) _ "three.asl.json");
    vm_compute; reflexivity.
Defined.

Lemma validate_raises_on_unguarded_shapes_witness :
  validate sample_repr sample_dumps elements sample_files
           (init "array.asl.json") = Raise.
Proof.
  apply (validate_raises_on_unguarded_shapes sample_repr sample_dumps
           elements sample_files "array.asl.json" array_root_document).
  - reflexivity.
  - vm_compute. constructor.
Defined.

Lemma unreachable_states_warned_witness :
  let states :=
    [("A", JObj [("Type", JStr "Pass"); ("Next", JStr "B");
                 ("End", JBool false)]);
     ("B", JObj [("Type", JStr "Succeed")]);
     ("C", JObj [("Type", JStr "Succeed")])] in
  let self := set_definition three_state_example (init "three.asl.json") in
  ∃ unreachable,
    _detect_unreachable_states elements self
    = Ok (with_warnings (map unreachable_msg unreachable) self)
    ∧ NoDup unreachable
    ∧ (∀ name, name ∈ unreachable
               ↔ name ∈ dict_keys states ∧ ¬ reach states (JStr "A") name).
Proof.
  cbv zeta.
  apply (proj1 (unreachable_states_warned sample_repr sample_dumps elements
                  sample_files elements_iter_perm
                  (set_definition three_state_example
                                  (init "three.asl.json"))
                  (root_of three_state_example) eq_refl)).
  - reflexivity.
  - discriminate.
  - reflexivity.
  - reflexivity.
  - reflexivity.
  - apply all_states_forallb. reflexivity.
  - apply all_states_forallb. reflexivity.
Defined.

Lemma terminal_check_scans_all_states_witness :
  let self :=
    set_definition unreachable_terminal_document (init "loop.asl.json") in
  ∃ self', _validate_terminal_states self = Ok self' ∧ self' = self.
Proof.
  cbv zeta.
  destruct (terminal_check_scans_all_states
              (set_definition unreachable_terminal_document
                              (init "loop.asl.json"))
              (root_of unreachable_terminal_document)
              (states_of unreachable_terminal_document) eq_refl eq_refl)
    as (Hreturns & Hwhen & _).
  destruct (Hreturns (all_states_forallb scalar_type
                        (states_of unreachable_terminal_document) eq_refl))
    as (self' & Hrun).
  exists self'. split; [exact Hrun|].
  destruct (Hwhen self' Hrun) as (_ & _ & Hterminal).
  apply (Hterminal (JStr "A") "B" (JObj [("Type", JStr "Succeed")])).
  - right. left.
  - reflexivity.
  - intros Hreach. apply unreachable_terminal_reaches_only_A in Hreach.
    discriminate.
Defined.

Lemma reference_errors_per_edge_witness :
  let bad :=
    set_definition catch_before_dangling_document (init "catch.asl.json") in
  let self := set_definition dangling_edges_document (init "edges.asl.json") in
  (reference_errors sample_repr (states_of catch_before_dangling_document)
                    ("B", JObj [("Type", JStr "Pass"); ("Next", JStr "Gone")])
   = ["State 'B' 'Next' references non-existent state: 'Gone'"]
   ∧ _validate_state_references sample_repr bad = Raise
   ∧ validate sample_repr sample_dumps elements
              (fun _ => Loaded catch_before_dangling_document)
              (init "catch.asl.json") = Raise)
  ∧ _validate_state_references sample_repr self
    = Ok (with_errors
            ["Choice state 'A' choice[1] references non-existent state: 'Nowhere'";
             "Choice state 'A' 'Default' references non-existent state: 'Lost'";
             "State 'B' 'Next' references non-existent state: 'Gone'";
             "State 'B' Catch[0] references non-existent state: 'Missing'"]
            self).
Proof.
  cbv zeta. split; [split; [reflexivity|split; [|reflexivity]]|].
  - apply (proj1 (proj2 (proj2
             (reference_errors_per_edge sample_repr
                (set_definition catch_before_dangling_document
                                (init "catch.asl.json"))
                (root_of catch_before_dangling_document)
                (states_of catch_before_dangling_document) eq_refl eq_refl)))
             "A"
             [("Type", JStr "Pass"); ("Next", JStr "B");
              ("Catch", JArr [JInt 1])]
             "Catch" [JInt 1] (JInt 1)).
    + left.
    + now left.
    + reflexivity.
    + left.
    + reflexivity.
  - rewrite (proj1 (proj2
               (reference_errors_per_edge sample_repr
                  (set_definition dangling_edges_document
                                  (init "edges.asl.json"))
                  (root_of dangling_edges_document)
                  (states_of dangling_edges_document) eq_refl eq_refl))
               (all_states_forallb typed_edges
                  (states_of dangling_edges_document) eq_refl)).
    reflexivity.
Defined.

Lemma validate_parse_failure_witness :
  validate sample_repr sample_dumps elements sample_files
           (init "broken.asl.json")
  = Ok (false,
        add_error
          "Invalid JSON syntax: Expecting value: line 1 column 1 (char 0)"
          (init "broken.asl.json")).
Proof.
  apply (proj1 (validate_parse_failure sample_repr sample_dumps elements
                  sample_files (init "broken.asl.json")
                  "Expecting value: line 1 column 1 (char 0)" eq_refl)).
Defined.


Lemma dangling_start_at_one_error_witness :
  ∃ b v,
    validate sample_repr sample_dumps elements sample_files
             (init "dangling.asl.json") = Ok (b, v)
    ∧ b = false
    ∧ List.filter is_start_at_error (errors v)
      = ["'StartAt' references non-existent state: 'X'"].
Proof.
  eexists _, _. split; [vm_compute; reflexivity|].
  apply (proj2 (proj2 (dangling_start_at_one_error sample_repr sample_dumps
                         elements sample_files
                         (set_definition dangling_start_document
                                         (init "dangling.asl.json"))
                         (root_of dangling_start_document)
                         (states_of dangling_start_document)
                         "X" eq_refl eq_refl eq_refl eq_refl))
               "dangling.asl.json").
  - reflexivity.
  - vm_compute. reflexivity.
Defined.

Lemma unknown_start_all_unreachable_witness :
  let states := [("A", JObj [("Type", JStr "Succeed")])] in
  let self :=
    set_definition dangling_start_document (init "dangling.asl.json") in
  bfs (bfs_fuel states) states ∅ [JStr "X"] = Ok ∅
  ∧ ∃ order,
      _detect_unreachable_states elements self
      = Ok (with_warnings (map unreachable_msg order) self)
      ∧ NoDup order
      ∧ (∀ name, name ∈ order ↔ name ∈ dict_keys states).
Proof.
  cbv zeta.
  apply (unknown_start_all_unreachable elements elements_iter_perm
           (set_definition dangling_start_document (init "dangling.asl.json"))
           (root_of dangling_start_document)
           (states_of dangling_start_document) "X" eq_refl eq_refl).
  - discriminate.
  - reflexivity.
  - discriminate.
  - reflexivity.
Defined.

(** A state that is not an object is guarded: the validator reports it and
    ends normally. *)
Example non_object_state_is_reported :
  validate sample_repr sample_dumps elements
           (fun _ => Loaded (JObj [("StartAt", JStr "A");
                                   ("States", JObj [("A", JInt 5)])]))
           (init "scalar.asl.json")
  = Ok (false,
        mkValidator "scalar.asl.json"
          ["State 'A' must be an object"; no_terminal_msg]
          [hardcoded_msg ["123456789012"]] []
          (JObj [("StartAt", JStr "A"); ("States", JObj [("A", JInt 5)])])).
Proof. vm_compute. reflexivity. Qed.

(** *** Instances of the further properties *)

Lemma traversal_terminates_witness :
  let states := states_of three_state_example in
  (bfs_fuel states ≤ 20)%nat
  ∧ bfs 20 states ∅ [JStr "A"] ≠ OutOfFuel
  ∧ bfs 20 states ∅ [JStr "A"] = bfs (bfs_fuel states) states ∅ [JStr "A"].
Proof.
  cbv zeta.
  assert (H : (bfs_fuel (states_of three_state_example) ≤ 20)%nat)
    by (vm_compute; lia).
  split; [exact H|].
  exact (traversal_terminates (states_of three_state_example) (JStr "A") 20 H).
Defined.

Lemma validate_keeps_diagnostics_witness :
  let self := init "three.asl.json" in
  ∃ b v,
    validate sample_repr sample_dumps elements sample_files self = Ok (b, v)
    ∧ definition v = three_state_example
    ∧ file_path v = file_path self
    ∧ errors self `prefix_of` errors v
    ∧ warnings self `prefix_of` warnings v
    ∧ info self `prefix_of` info v.
Proof.
  cbv zeta. eexists _, _.
  split; [vm_compute; reflexivity|].
  eapply (validate_keeps_diagnostics sample_repr sample_dumps elements
            sample_files (init "three.asl.json") three_state_example);
    vm_compute; reflexivity.
Defined.

Lemma validate_returns_on_typed_document_witness :
  ∃ b v,
    validate sample_repr sample_dumps elements sample_files
             (init "three.asl.json") = Ok (b, v).
Proof.
  apply (validate_returns_on_typed_document sample_repr sample_dumps elements
           sample_files (init "three.asl.json") three_state_example);
    reflexivity.
Defined.

Lemma cross_account_counts_credentials_witness :
  let self := set_definition credentials_document (init "creds.asl.json") in
  _check_cross_account_patterns self
  = Ok (with_info [cross_account_msg 2]
          (with_warnings [credentials_msg "B"] self))
  ∧ (1 ≤ 2)%nat.
Proof.
  cbv zeta.
  exact (cross_account_counts_credentials
           (set_definition credentials_document (init "creds.asl.json"))
           (root_of credentials_document) (states_of credentials_document)
           eq_refl eq_refl
           (all_states_forallb typed_credentials
              (states_of credentials_document) eq_refl)).
Defined.

Lemma unreachable_warnings_sound_witness :
  let states := states_of three_state_example in
  let self := set_definition three_state_example (init "three.asl.json") in
  ∃ warned,
    with_warnings [unreachable_msg "C"] self
    = with_warnings (map unreachable_msg warned) self
    ∧ NoDup warned
    ∧ (∀ name, name ∈ warned → name ∈ dict_keys states)
    ∧ ("A" ∉ warned)
    ∧ (warned ≠ [] →
       ∀ name state_def next target,
         name ∈ dict_keys states →
         name ∉ warned →
         dict_lookup name states = Some (JObj state_def) →
         next_states_of state_def = Ok next →
         JStr target ∈ next →
         target ∉ warned).
Proof.
  cbv zeta.
  apply (unreachable_warnings_sound elements elements_iter_perm
           (set_definition three_state_example (init "three.asl.json"))
           (with_warnings [unreachable_msg "C"]
              (set_definition three_state_example (init "three.asl.json")))
           (root_of three_state_example) (states_of three_state_example)
           "A" eq_refl eq_refl eq_refl).
  vm_compute. reflexivity.
Defined.

Lemma main_loop_accounting_witness :
  let asl_files := ["three.asl.json"; "dangling.asl.json"] in
  ∃ t,
    main_loop sample_repr sample_dumps elements sample_files
              false false true asl_files = Ok t
    ∧ ∃ results,
        Forall2 (λ path r,
                   validate sample_repr sample_dumps elements sample_files
                            (init path) = Ok r) asl_files results
        ∧ failed_files t
          = map fst (List.filter (λ pr, negb (passes false (snd pr)))
                                 (zip asl_files results))
        ∧ total_errors t
          = sum_list (map (λ r, length (errors (snd r))) results)
        ∧ total_warnings t
          = sum_list (map (λ r, length (warnings (snd r))) results)
        ∧ printed t
          = concat (map (λ r, if negb false || negb (passes false r)
                              then [report (snd r) true; ""] else [])
                        results)
        ∧ (length (failed_files t) ≤ length asl_files)%nat.
Proof.
  cbv zeta. eexists.
  split; [vm_compute; reflexivity|].
  apply (main_loop_accounting sample_repr sample_dumps elements sample_files
           false false true ["three.asl.json"; "dangling.asl.json"]).
  vm_compute. reflexivity.
Defined.

Lemma main_exit_status_witness :
  let asl_files := ["three.asl.json"; "dangling.asl.json"] in
  ∃ code out,
    main sample_repr sample_dumps elements sample_files
         false true false asl_files [] = Ok (code, out)
    ∧ ((code = 0
        ∧ ∀ path, path ∈ asl_files →
            ∃ r, validate sample_repr sample_dumps elements sample_files
                          (init path) = Ok r
                 ∧ passes false r = true)
       ∨ (code = 1
          ∧ ∃ path r, path ∈ asl_files
                      ∧ validate sample_repr sample_dumps elements
                                 sample_files (init path) = Ok r
                      ∧ passes false r = false)).
Proof.
  cbv zeta. eexists _, _.
  split; [vm_compute; reflexivity|].
  eapply (main_exit_status sample_repr sample_dumps elements sample_files
            false true false ["three.asl.json"; "dangling.asl.json"] []).
  vm_compute. reflexivity.
Defined.

Lemma quiet_success_is_silent_witness :
  ∃ out,
    main sample_repr sample_dumps elements sample_files
         false true true ["three.asl.json"] [] = Ok (0, out)
    ∧ out = [].
Proof.
  eexists. split; [vm_compute; reflexivity|].
  apply (quiet_success_is_silent sample_repr sample_dumps elements
           sample_files false true ["three.asl.json"] []).
  vm_compute. reflexivity.
Defined.

Lemma strict_success_implies_success_witness :
  main sample_repr plain_dumps elements plain_files
       true true false ["single.asl.json"] [] = Ok (0, [])
  ∧ ∃ out',
      main sample_repr plain_dumps elements plain_files
           false false true ["single.asl.json"] [] = Ok (0, out').
Proof.
  assert (H : main sample_repr plain_dumps elements plain_files
                   true true false ["single.asl.json"] [] = Ok (0, []))
    by (vm_compute; reflexivity).
  split; [exact H|].
  exact (strict_success_implies_success sample_repr plain_dumps elements
           plain_files true false false true ["single.asl.json"] [] [] H).
Defined.

Lemma valid_document_is_well_formed_witness :
  validate sample_repr plain_dumps elements plain_files
           (init "single.asl.json")
  = Ok (true, set_definition single_state_document (init "single.asl.json"))
  ∧ well_formed single_state_document.
Proof.
  assert (H : validate sample_repr plain_dumps elements plain_files
                       (init "single.asl.json")
              = Ok (true, set_definition single_state_document
                                         (init "single.asl.json")))
    by (vm_compute; reflexivity).
  split; [exact H|].
  exact (valid_document_is_well_formed sample_repr plain_dumps elements
           plain_files (init "single.asl.json") _ single_state_document
           eq_refl H).
Defined.

Lemma single_state_well_formed : well_formed single_state_document.
Proof.
  exists (root_of single_state_document), (states_of single_state_document),
         "A".
  split; [reflexivity|]. split; [reflexivity|]. split; [discriminate|].
  split; [reflexivity|]. split; [reflexivity|]. split; [|split].
  - constructor; [|constructor].
    exists [("Type", JStr "Succeed")], "Succeed".
    split; [reflexivity|]. split; [reflexivity|]. split; [|split].
    + unfold VALID_STATE_TYPES. rewrite elem_of_list_to_set, !elem_of_cons.
      tauto.
    + intros Hnot. exfalso. apply Hnot. unfold NO_TRANSITION_TYPES.
      rewrite elem_of_list_to_set, !elem_of_cons. tauto.
    + repeat split; intros H; discriminate H.
  - constructor; [|constructor].
    intros fields Heq. injection Heq as <-. split; [|split].
    + intros target H. discriminate H.
    + intros H. discriminate H.
    + intros catches rule target H. discriminate H.
  - left. reflexivity.
Qed.

Lemma well_formed_document_is_valid_witness :
  ∃ b v,
    validate sample_repr plain_dumps elements plain_files
             (init "single.asl.json") = Ok (b, v)
    ∧ b = true ∧ errors v = [].
Proof.
  eexists _, _. split; [vm_compute; reflexivity|].
  apply (well_formed_document_is_valid sample_repr plain_dumps elements
           plain_files (init "single.asl.json") _ single_state_document _
           eq_refl eq_refl single_state_well_formed).
  vm_compute. reflexivity.
Defined.

Lemma findall_account_ids_at_arn_witness :
  match_arn "arn:aws:states:eu-west-1:123456789012:stateMachine:x"
  = Some ("123456789012", "stateMachine:x")
  ∧ findall_account_ids "arn:aws:states:eu-west-1:123456789012:stateMachine:x"
    = ["123456789012"].
Proof.
  exact (findall_account_ids_at_arn "states" "eu-west-1" "123456789012"
           "stateMachine:x" ltac:(discriminate) eq_refl eq_refl eq_refl
           eq_refl).
Defined.

Lemma validate_without_states_witness :
  validate sample_repr plain_dumps elements plain_files
           (init "stateless.asl.json")
  = Ok (false,
        mkValidator "stateless.asl.json"
          ["Missing required field: 'StartAt'";
           "Missing required field: 'States'"; no_terminal_msg]
          [] [] stateless_document).
Proof.
  exact (validate_without_states sample_repr plain_dumps elements plain_files
           (init "stateless.asl.json") (root_of stateless_document)
           eq_refl eq_refl).
Defined.

Lemma credentials_states_shaped :
  Forall (λ item, state_shape (snd item)) (states_of credentials_document).
Proof.
  assert (Hvalid : ∀ ty, In ty ["Task"; "Succeed"] → ty ∈ VALID_STATE_TYPES).
  { intros ty Hin. unfold VALID_STATE_TYPES.
    rewrite elem_of_list_to_set, !elem_of_cons.
    destruct Hin as [<-|[<-|[]]]; tauto. }
  repeat constructor.
  - eexists _, "Task". split; [reflexivity|]. split; [reflexivity|].
    split; [apply Hvalid; now left|]. split; [intros _; now right|].
    repeat split; intros H; try discriminate H; reflexivity.
  - eexists _, "Task". split; [reflexivity|]. split; [reflexivity|].
    split; [apply Hvalid; now left|]. split; [intros _; now right|].
    repeat split; intros H; try discriminate H; reflexivity.
  - eexists _, "Succeed". split; [reflexivity|]. split; [reflexivity|].
    split; [apply Hvalid; right; now left|]. split.
    + intros Hnot. exfalso. apply Hnot. unfold NO_TRANSITION_TYPES.
      rewrite elem_of_list_to_set, !elem_of_cons. tauto.
    + repeat split; intros H; discriminate H.
Qed.

Lemma structural_warnings_witness :
  let self := set_definition credentials_document (init "creds.asl.json") in
  _validate_states sample_repr self
  = Ok (with_warnings [task_handling_msg "A"; task_handling_msg "B"] self).
Proof.
  cbv zeta.
  exact (structural_warnings sample_repr
           (set_definition credentials_document (init "creds.asl.json"))
           (root_of credentials_document) (states_of credentials_document)
           eq_refl eq_refl credentials_states_shaped).
Defined.
